(** * Ax benchmark replication loop: a shallow embedding of
      [ax/benchmark/benchmark.py] and the properties of its bookkeeping.

    Python values are modelled as follows.
    - [float] objective values: IEEE 754 binary64 numbers, as the kernel's
      primitive floats, with their rounding, infinities, NaN and signed
      zeros.
    - wall-clock readings, runtimes, costs and [float] parameter values:
      canonical rationals [Qc] (they are finite floats in the program; the
      rounding of clock and cost arithmetic is not modelled, and no
      arithmetic is done on parameter values).
    - [set[int]]: [gset nat]; [dict] used as a map: [gmap]; [dict] whose
      iteration order is observed: an association list in insertion order.
    - exceptions and logging: a small state-and-error monad [Prog] over a
      [World] that keeps logger levels and the calls made to collaborators. *)

From Stdlib Require Import QArith Qcanon Floats.
From stdpp Require Import gmap strings list fin_maps pretty.

Local Open Scope Qc_scope.

(** ** Numbers *)

Definition Qcleb (x y : Qc) : bool := Qle_bool x y.
Definition Qceqb (x y : Qc) : bool := Qeq_bool x y.

(** Python [float] is the primitive type [float]; its constants
    [float("inf")], [float("-inf")] and [float("nan")]. *)
Definition PosInf : float := infinity.
Definition NegInf : float := neg_infinity.
Definition NaN : float := nan.

(** [float(z)] for an integer below 2^63 in absolute value. *)
Definition of_Z (z : Z) : float :=
  match z with
  | Z0 => 0%float
  | Zpos _ => of_uint63 (Uint63.of_Z z)
  | Zneg p => (- of_uint63 (Uint63.of_Z (Zpos p)))%float
  end.

(** ** Score/Trace math *)

(** [compute_score_trace]: numpy broadcasting of
    [100 * (optimization_trace - baseline_value) / (optimal_value - baseline_value)]
    over an array of doubles, each operation rounded; a division by zero
    yields an infinity or NaN (with a runtime warning), it does not
    raise. *)
Definition compute_score_trace
    (optimization_trace : list float) (baseline_value optimal_value : float)
    : list float :=
  (λ v, (100 * (v - baseline_value) / (optimal_value - baseline_value))%float)
    <$> optimization_trace.

(** ** Exceptions and effects *)

Inductive Exception : Type :=
  | ValueError (msg : string)
  | KeyError (key : nat)
  | IndexError (msg : string)
  | TypeError (msg : string)
  | OtherError (msg : string).

Inductive Outcome (A : Type) : Type :=
  | Returned (a : A)
  | Raised (e : Exception).
Arguments Returned {A} a.
Arguments Raised {A} e.

Global Instance Outcome_ret : MRet Outcome := λ A a, Returned a.
Global Instance Outcome_bind : MBind Outcome := λ A B f m,
  match m with
  | Returned a => f a
  | Raised e => Raised e
  end.
Global Instance Outcome_fmap : FMap Outcome := λ A B f m,
  match m with
  | Returned a => Returned (f a)
  | Raised e => Raised e
  end.

(** Tuple unpacking [(x,) = xs]. *)
Definition unpack_single {A} (xs : list A) : Outcome A :=
  match xs with
  | [x] => Returned x
  | [] => Raised (ValueError "not enough values to unpack (expected 1, got 0)")
  | _ => Raised (ValueError "too many values to unpack (expected 1)")
  end.

(** ** Data model *)

(** [TParamValue = None | str | bool | float | int]. *)
Inductive TParamValue : Type :=
  | PNone
  | PStr (s : string)
  | PBool (b : bool)
  | PFloat (q : Qc)
  | PInt (z : Z).

Global Instance TParamValue_eq_dec : EqDecision TParamValue.
Proof. solve_decision. Defined.

Abbreviation TParameterization := (gmap string TParamValue).

(** [{**parameters, **overrides}]: the right operand wins on common keys. *)
Definition dict_merge (parameters overrides : TParameterization)
    : TParameterization := overrides ∪ parameters.

Module Arm.
Record t : Type := mk { name : string; parameters : TParameterization }.
End Arm.

Global Instance Arm_eq_dec : EqDecision Arm.t.
Proof. solve_decision. Defined.

(** Objects that the benchmark code only hands over to its collaborators
    are kept as opaque handles. *)
Inductive SearchSpace : Type := SearchSpaceRef (id : nat).
Inductive GenerationStrategy : Type := GenerationStrategyRef (id : nat).
Inductive EarlyStoppingStrategy : Type := EarlyStoppingStrategyRef (id : nat).
Inductive AuxiliaryExperiments : Type := AuxiliaryExperimentsRef (id : nat).

Inductive Objective : Type :=
  | SingleObjective (minimize : bool)
  | MultiObjective.

Module OptimizationConfig.
Record t : Type := mk { objective : Objective }.
End OptimizationConfig.

Inductive TrialStatus : Type :=
  | CANDIDATE
  | STAGED
  | FAILED
  | COMPLETED
  | RUNNING
  | ABANDONED
  | DISPATCHED
  | EARLY_STOPPED.

Global Instance TrialStatus_eq_dec : EqDecision TrialStatus.
Proof. solve_decision. Defined.

Abbreviation RunMetadata := (gmap string (list float)).

(** A trial's index is its key in [Experiment.trials]. *)
Module Trial.
Record t : Type := mk {
  arms : list Arm.t;
  status : TrialStatus;
  run_metadata : RunMetadata;
}.

(** [trial.update_run_metadata(metadata)]: [dict.update]. *)
Definition update_run_metadata (trial : t) (metadata : RunMetadata) : t :=
  mk (arms trial) (status trial) (metadata ∪ run_metadata trial).

Definition mark_completed (trial : t) : t :=
  mk (arms trial) COMPLETED (run_metadata trial).
End Trial.

Module BenchmarkTestFunction.
Record t : Type := mk {
  n_steps : nat;
  evaluate_true : TParameterization → list float;
}.
End BenchmarkTestFunction.

Module BackendSimulator.
Record t : Type := mk { time : Qc }.
End BackendSimulator.

Module SimulatedBackendRunner.
Record t : Type := mk { simulator : BackendSimulator.t }.
End SimulatedBackendRunner.

Module BenchmarkRunner.
Record t : Type := mk {
  test_function : BenchmarkTestFunction.t;
  noise_std : Qc;
  step_runtime_function : option (TParameterization → Qc);
  max_concurrency : Z;
  simulated_backend_runner : option SimulatedBackendRunner.t;
}.
End BenchmarkRunner.

(** [runner] is the experiment's [BenchmarkRunner], [None] when the
    experiment has no runner of that class. *)
Module Experiment.
Record t : Type := mk {
  name : option string;
  search_space : SearchSpace;
  optimization_config : OptimizationConfig.t;
  runner : option BenchmarkRunner.t;
  status_quo : option Arm.t;
  auxiliary_experiments_by_purpose : option AuxiliaryExperiments;
  trials : gmap nat Trial.t;
}.

Definition with_trials (e : t) (ts : gmap nat Trial.t) : t :=
  mk (name e) (search_space e) (optimization_config e) (runner e)
     (status_quo e) (auxiliary_experiments_by_purpose e) ts.

(** [experiment.runner = value]. *)
Definition set_runner (e : t) (r : option BenchmarkRunner.t) : t :=
  mk (name e) (search_space e) (optimization_config e) r
     (status_quo e) (auxiliary_experiments_by_purpose e) (trials e).
End Experiment.

Module BenchmarkProblem.
Record t : Type := mk {
  name : string;
  optimization_config : OptimizationConfig.t;
  num_trials : nat;
  test_function : BenchmarkTestFunction.t;
  noise_std : Qc;
  optimal_value : float;
  baseline_value : float;
  search_space : SearchSpace;
  report_inference_value_as_trace : bool;
  n_best_points : nat;
  step_runtime_function : option (TParameterization → Qc);
  target_fidelity_and_task : TParameterization;
  status_quo_params : option TParameterization;
  auxiliary_experiments_by_purpose : option AuxiliaryExperiments;
}.

(** Modelled from the spec: the property [is_moo] of [BenchmarkProblem]
    (benchmark_problem.py is not among the sources), the flag for
    whether the problem is multi-objective. *)
Definition is_moo (p : t) : bool :=
  match OptimizationConfig.objective (optimization_config p) with
  | MultiObjective => true
  | SingleObjective _ => false
  end.
End BenchmarkProblem.

(** [BenchmarkMethod] with the attributes benchmark.py reads from it. *)
Module BenchmarkMethod.
Record t : Type := mk {
  name : string;
  generation_strategy : GenerationStrategy;
  timeout_hours : option Qc;
  distribute_replications : bool;
  batch_size : option Z;
  run_trials_in_batches : bool;
  max_pending_trials : Z;
  early_stopping_strategy : option EarlyStoppingStrategy;
}.
End BenchmarkMethod.

Inductive TrialType : Type := TRIAL | BATCH_TRIAL.

Module SchedulerOptions.
Record t : Type := mk {
  max_pending_trials : Z;
  init_seconds_between_polls : Z;
  min_seconds_before_poll : Z;
  trial_type : TrialType;
  batch_size : option Z;
  run_trials_in_batches : bool;
  early_stopping_strategy : option EarlyStoppingStrategy;
  status_quo_weight : Qc;
  logging_level : Z;
}.
End SchedulerOptions.

Module Scheduler.
Record t : Type := mk {
  experiment : Experiment.t;
  generation_strategy : GenerationStrategy;
  options : SchedulerOptions.t;
}.
End Scheduler.

Module BenchmarkResult.
Record t : Type := mk {
  name : option string;
  seed : nat;
  experiment : Experiment.t;
  oracle_trace : list float;
  inference_trace : list float;
  optimization_trace : list float;
  score_trace : list float;
  cost_trace : list Qc;
  fit_time : Qc;
  gen_time : Qc;
}.
End BenchmarkResult.

(** One progress step yielded by [Scheduler.run_trials_and_yield_results]:
    the experiment as the scheduler left it when it yielded, and the
    reading of [monotonic()] taken after the body of that iteration. *)
Module Step.
Record t : Type := mk { experiment : Experiment.t; monotonic : Qc }.
End Step.

(** The two clock readings a replication takes before its loop:
    [time()] for the experiment name and [monotonic()] for [start]. *)
Module Clock.
Record t : Type := mk { time : Z; monotonic : Qc }.
End Clock.

(** ** Effects: logger levels and calls to collaborators *)

Definition NOTSET : Z := 0.
Definition INFO : Z := 20.
Definition WARNING : Z := 30.

Inductive Call : Type :=
  | LoggerWarning (logger_name msg : string)
  | AttachTrial (parameterizations : list TParameterization)
      (arm_names : list string)
  | RunnerRun (runner : BenchmarkRunner.t) (trial_index : nat)
  | FetchData
  | PollAndProcessResults
  | SummarizeFinalResult
  | GetBestParameters (experiment : Experiment.t)
      (optimization_config : OptimizationConfig.t) (n_points : nat).

Module World.
Record t : Type := mk { log_levels : gmap string Z; calls : list Call }.
End World.

Definition Prog (A : Type) : Type := World.t → Outcome A * World.t.

Global Instance Prog_ret : MRet Prog := λ A a w, (Returned a, w).
Global Instance Prog_bind : MBind Prog := λ A B f m w,
  match m w with
  | (Returned a, w') => f a w'
  | (Raised e, w') => (Raised e, w')
  end.

Definition raise {A} (e : Exception) : Prog A := λ w, (Raised e, w).
Definition lift {A} (o : Outcome A) : Prog A := λ w, (o, w).

Definition record_call (c : Call) : Prog unit := λ w,
  (Returned (), World.mk (World.log_levels w) (World.calls w ++ [c])).

(** The level of the logger [name]. *)
Definition logger_level (w : World.t) (name : string) : Z :=
  default NOTSET (World.log_levels w !! name).

(** [logger.level], for the logger [name]. *)
Definition level (name : string) : Prog Z := λ w,
  (Returned (logger_level w name), w).

(** [logger.setLevel(level)] for the logger [name], the level given by
    its number ([level="WARNING"] is [WARNING]). *)
Definition setLevel (name : string) (lvl : Z) : Prog unit := λ w,
  (Returned (),
   World.mk (<[name := lvl]> (World.log_levels w)) (World.calls w)).

(** Modelled from the spec: [get_logger] of [ax.utils.common.logger]
    (logger.py is not among the sources). The call sets the level of the
    named logger to the default level [DEFAULT_LOG_LEVEL], which is INFO,
    and returns the logger. *)
Definition get_logger (name : string) : Prog unit := setLevel name INFO.

(** [logger.warning(msg)] for the logger [name]. *)
Definition warning (name msg : string) : Prog unit :=
  record_call (LoggerWarning name msg).

(** ** Collaborators consumed through their interfaces *)

Class Externals : Type := {
  (** [Scheduler.run_trials_and_yield_results(max_trials, timeout_hours)],
      run under [with_rng_seed(seed)]: the finite sequence of steps. *)
  run_trials_and_yield_results :
    Scheduler.t → nat → nat → option Qc → list Step.t;
  (** [BenchmarkMethod.get_best_parameters(experiment, optimization_config,
      n_points)] *)
  get_best_parameters :
    BenchmarkMethod.t → Experiment.t → OptimizationConfig.t → nat →
    Outcome (list TParameterization);
  (** [BenchmarkRunner.run(trial)] *)
  runner_run : BenchmarkRunner.t → Trial.t → RunMetadata;
  (** [BestPointMixin._get_trace(experiment, optimization_config)] *)
  _get_trace : Experiment.t → OptimizationConfig.t → list float;
  (** [get_total_runtime(trial, step_runtime_function, n_steps)] *)
  get_total_runtime :
    Trial.t → option (TParameterization → Qc) → nat → Qc;
  (** [get_model_times(experiment)] *)
  get_model_times : Experiment.t → Qc * Qc;
  (** [GenerationStrategy.clone_reset()] *)
  clone_reset : GenerationStrategy → GenerationStrategy;
  get_sobol_generation_strategy : GenerationStrategy;
  (** [BenchmarkMethod(generation_strategy=gs)], the other attributes at
      their declared defaults *)
  BenchmarkMethod_init : GenerationStrategy → BenchmarkMethod.t;
  (** a [BenchmarkProblem] holding the declared defaults of the optional
      attributes *)
  BenchmarkProblem_defaults : BenchmarkProblem.t;
  (** [numpy.ndarray.mean] of an array of doubles that is not empty *)
  ndarray_mean : list float → float;
}.

(** ** Runner and scheduler set-up *)

(** Modelled from the spec: the constructor of [BenchmarkRunner]
    (benchmark_runner.py is not among the sources). A simulated backend is
    attached when max concurrency > 1 or a step-runtime function is
    supplied; its clock starts at zero. *)
Definition BenchmarkRunner_init
    (test_function : BenchmarkTestFunction.t) (noise_std : Qc)
    (step_runtime_function : option (TParameterization → Qc))
    (max_concurrency : Z) : BenchmarkRunner.t :=
  BenchmarkRunner.mk test_function noise_std step_runtime_function
    max_concurrency
    (if bool_decide (1 < max_concurrency)%Z
        || bool_decide (is_Some step_runtime_function)
     then Some (SimulatedBackendRunner.mk (BackendSimulator.mk 0))
     else None).

Definition get_benchmark_runner
    (problem : BenchmarkProblem.t) (max_concurrency : Z) : BenchmarkRunner.t :=
  BenchmarkRunner_init
    (BenchmarkProblem.test_function problem)
    (BenchmarkProblem.noise_std problem)
    (BenchmarkProblem.step_runtime_function problem)
    max_concurrency.

Definition get_benchmark_scheduler_options
    (method : BenchmarkMethod.t) (include_sq : bool) (logging_level : Z)
    : SchedulerOptions.t :=
  let trial_type :=
    if match BenchmarkMethod.batch_size method with
       | None => true
       | Some batch_size => bool_decide (1 < batch_size)%Z
       end || include_sq
    then BATCH_TRIAL
    else TRIAL in
  SchedulerOptions.mk
    (BenchmarkMethod.max_pending_trials method)
    0
    0
    trial_type
    (BenchmarkMethod.batch_size method)
    (BenchmarkMethod.run_trials_in_batches method)
    (BenchmarkMethod.early_stopping_strategy method)
    (if include_sq then 1 else 0)
    logging_level.

(** ** Python dictionaries whose iteration order is observed *)

Abbreviation dict K V := (list (K * V)).

(** [d[k] = v]: an existing key keeps its position. *)
Fixpoint dict_set {K V} `{EqDecision K} (k : K) (v : V) (d : dict K V)
    : dict K V :=
  match d with
  | [] => [(k, v)]
  | (k', v') :: d' =>
      if decide (k = k') then (k, v) :: d' else (k', v') :: dict_set k v d'
  end.

(** [{arm.name: arm.parameters for arm in arms}] *)
Definition dict_of_arms (arms : list Arm.t) : dict string TParameterization :=
  foldl (λ d arm, dict_set (Arm.name arm) (Arm.parameters arm) d) [] arms.

(** ** Oracle evaluator *)

(** [experiment.trials[i]] *)
Definition lookup_trial (experiment : Experiment.t) (i : nat)
    : Outcome Trial.t :=
  match Experiment.trials experiment !! i with
  | Some trial => Returned trial
  | None => Raised (KeyError i)
  end.

(** Modelled from the spec: [Experiment.attach_trial] (experiment.py is not
    among the sources). The new trial takes the next trial index, holds one
    arm per name and parameterization, and is running. *)
Definition attach_trial
    (experiment : Experiment.t) (parameterizations : list TParameterization)
    (arm_names : list string) : Prog Experiment.t :=
  record_call (AttachTrial parameterizations arm_names);;
  let trial_index := size (Experiment.trials experiment) in
  let trial :=
    Trial.mk (zip_with Arm.mk arm_names parameterizations) RUNNING ∅ in
  mret (Experiment.with_trials experiment
          (<[trial_index := trial]> (Experiment.trials experiment))).

Definition no_arms_message : string :=
  "Can't create a trial with no arms. Each sublist in list_of_list_of_params must have at least one element.".

Section Model.
Context `{Externals}.

(** The body of the [for] loop of [get_oracle_experiment_from_params]. *)
Fixpoint attach_and_run_trials
    (problem : BenchmarkProblem.t) (runner : BenchmarkRunner.t)
    (items : dict nat (dict string TParameterization))
    (experiment : Experiment.t) : Prog Experiment.t :=
  match items with
  | [] => mret experiment
  | (trial_index, dict_of_params) :: items' =>
      if bool_decide (length dict_of_params = 0%nat)
      then raise (ValueError no_arms_message)
      else
        experiment ← attach_trial experiment
          ((λ parameters,
              dict_merge parameters
                (BenchmarkProblem.target_fidelity_and_task problem))
             <$> dict_of_params.*2)
          (dict_of_params.*1);
        trial ← lift (lookup_trial experiment trial_index);
        record_call (RunnerRun runner trial_index);;
        let metadata := runner_run runner trial in
        let trial := Trial.update_run_metadata trial metadata in
        let trial := Trial.mark_completed trial in
        attach_and_run_trials problem runner items'
          (Experiment.with_trials experiment
             (<[trial_index := trial]> (Experiment.trials experiment)))
  end.

Definition get_oracle_experiment_from_params
    (problem : BenchmarkProblem.t)
    (dict_of_dict_of_params : dict nat (dict string TParameterization))
    : Prog Experiment.t :=
  let experiment :=
    Experiment.mk None
      (BenchmarkProblem.search_space problem)
      (BenchmarkProblem.optimization_config problem)
      None None None ∅ in
  let runner :=
    BenchmarkRunner_init (BenchmarkProblem.test_function problem) 0 None 1 in
  get_logger "ax.core.experiment";;
  original_log_level ← level "ax.core.experiment";
  setLevel "ax.core.experiment" WARNING;;
  experiment ←
    attach_and_run_trials problem runner dict_of_dict_of_params experiment;
  setLevel "ax.core.experiment" original_log_level;;
  record_call FetchData;;
  mret experiment.

Definition _get_oracle_value_of_params
    (params : TParameterization) (problem : BenchmarkProblem.t) : Prog float :=
  dummy_experiment ←
    get_oracle_experiment_from_params problem [(0%nat, [("0_0", params)])];
  lift (unpack_single
          (_get_trace dummy_experiment
             (BenchmarkProblem.optimization_config problem))).

Definition _get_oracle_trace_from_arms
    (evaluated_arms_list : list (list Arm.t)) (problem : BenchmarkProblem.t)
    : Prog (list float) :=
  dummy_experiment ←
    get_oracle_experiment_from_params problem
      (imap (λ i arms, (i, dict_of_arms arms)) evaluated_arms_list);
  mret (_get_trace dummy_experiment
          (BenchmarkProblem.optimization_config problem)).

(** ** Cost accumulator *)

(** [assert_is_instance(experiment.runner, BenchmarkRunner)] *)
Definition assert_is_BenchmarkRunner (runner : option BenchmarkRunner.t)
    : Outcome BenchmarkRunner.t :=
  match runner with
  | Some r => Returned r
  | None => Raised (TypeError "expected BenchmarkRunner")
  end.

(** Python's [sum]. *)
Definition sum (xs : list Qc) : Qc := foldl Qcplus 0 xs.

Definition _get_cumulative_cost
    (previous_cost : Qc) (new_trials : gset nat) (experiment : Experiment.t)
    : Outcome Qc :=
  runner ← assert_is_BenchmarkRunner (Experiment.runner experiment);
  match BenchmarkRunner.simulated_backend_runner runner with
  | Some simulated_backend_runner =>
      mret (BackendSimulator.time
              (SimulatedBackendRunner.simulator simulated_backend_runner))
  | None =>
      per_trial_times ←
        mapM (λ i,
                trial ← lookup_trial experiment i;
                mret (get_total_runtime trial
                        (BenchmarkRunner.step_runtime_function runner)
                        (BenchmarkTestFunction.n_steps
                           (BenchmarkRunner.test_function runner))))
             (elements new_trials);
      mret (previous_cost + sum per_trial_times)
  end.

End Model.

(** ** Replication driver *)

Definition is_completed_or_early_stopped (s : TrialStatus) : bool :=
  match s with
  | COMPLETED | EARLY_STOPPED => true
  | _ => false
  end.

(** [{t.index for t in experiment.trials.values()
      if t.status in (COMPLETED, EARLY_STOPPED)}] *)
Definition currently_completed_trials (experiment : Experiment.t) : gset nat :=
  dom (filter
         (λ it, is_completed_or_early_stopped (Trial.status it.2) = true)
         (Experiment.trials experiment)).

(** The local variables of [benchmark_replication] that the loop updates,
    and the experiment as of the last step consumed. *)
Module Loop.
Record t : Type := mk {
  cost_trace : list Qc;
  best_params_list : list TParameterization;
  evaluated_arms_list : list (list Arm.t);
  remaining_hours : option Qc;
  previously_completed_trial_idcs : gset nat;
  cost : Qc;
  experiment : Experiment.t;
}.
End Loop.

Definition benchmark_logger : string := "ax.benchmark.benchmark".

Section Replication.
Context `{Externals}.
Context (problem : BenchmarkProblem.t) (method : BenchmarkMethod.t).

Definition is_mf_or_mt : bool :=
  bool_decide (0 < size (BenchmarkProblem.target_fidelity_and_task problem))%nat.

(** [{arm for i in newly_completed_trials for arm in experiment.trials[i].arms}];
    the set is kept as a duplicate-free list. *)
Definition newly_evaluated_arms
    (experiment : Experiment.t) (newly_completed_trials : gset nat)
    : Outcome (list Arm.t) :=
  arms ← mapM (λ i, Trial.arms <$> lookup_trial experiment i)
              (elements newly_completed_trials);
  mret (remove_dups (concat arms)).

(** The bookkeeping done under [if len(newly_completed_trials) > 0]. *)
Definition record_newly_completed
    (st : Loop.t) (experiment : Experiment.t)
    (newly_completed_trials : gset nat)
    : Prog (Qc * list Qc * list (list Arm.t) * list TParameterization) :=
  cost ← lift (_get_cumulative_cost (Loop.cost st) newly_completed_trials
                 experiment);
  let cost_trace := Loop.cost_trace st ++ [cost] in
  params ← lift (newly_evaluated_arms experiment newly_completed_trials);
  let evaluated_arms_list := Loop.evaluated_arms_list st ++ [params] in
  if negb (BenchmarkProblem.is_moo problem || is_mf_or_mt)
  then
    record_call
      (GetBestParameters experiment
         (BenchmarkProblem.optimization_config problem)
         (BenchmarkProblem.n_best_points problem));;
    best ← lift (get_best_parameters method experiment
                   (BenchmarkProblem.optimization_config problem)
                   (BenchmarkProblem.n_best_points problem));
    best_params ← lift (unpack_single best);
    mret (cost, cost_trace, evaluated_arms_list,
          Loop.best_params_list st ++ [best_params])
  else
    mret (cost, cost_trace, evaluated_arms_list, Loop.best_params_list st).

(** [currently_completed_trials - previously_completed_trial_idcs] *)
Definition newly_completed_trials (st : Loop.t) (step : Step.t) : gset nat :=
  currently_completed_trials (Step.experiment step)
    ∖ Loop.previously_completed_trial_idcs st.

(** [remaining_hours = timeout_hours - (monotonic() - start) / 3600] *)
Definition remaining_after
    (timeout_hours start : Qc) (step : Step.t) : Qc :=
  let elapsed_hours := (Step.monotonic step - start) / Qc_of_Z 3600 in
  timeout_hours - elapsed_hours.

(** One iteration of the [for] loop over the scheduler's steps; the
    boolean tells whether the iteration ended in [break]. *)
Definition loop_body (start : Qc) (st : Loop.t) (step : Step.t)
    : Prog (Loop.t * bool) :=
  let experiment := Step.experiment step in
  let newly_completed_trials := newly_completed_trials st step in
  let previously_completed_trial_idcs :=
    currently_completed_trials experiment in
  '(cost, cost_trace, evaluated_arms_list, best_params_list) ←
    (if bool_decide (0 < size newly_completed_trials)%nat
     then record_newly_completed st experiment newly_completed_trials
     else mret (Loop.cost st, Loop.cost_trace st,
                Loop.evaluated_arms_list st, Loop.best_params_list st));
  match BenchmarkMethod.timeout_hours method with
  | Some timeout_hours =>
      let remaining_hours := remaining_after timeout_hours start step in
      let st' :=
        Loop.mk cost_trace best_params_list evaluated_arms_list
          (Some remaining_hours) previously_completed_trial_idcs cost
          experiment in
      if Qcleb remaining_hours 0
      then
        warning benchmark_logger "The optimization loop timed out.";;
        mret (st', true)
      else mret (st', false)
  | None =>
      mret (Loop.mk cost_trace best_params_list evaluated_arms_list
              (Loop.remaining_hours st) previously_completed_trial_idcs cost
              experiment,
            false)
  end.

Fixpoint run_loop (start : Qc) (steps : list Step.t) (st : Loop.t)
    : Prog Loop.t :=
  match steps with
  | [] => mret st
  | step :: steps' =>
      '(st', stop) ← loop_body start st step;
      if stop : bool then mret st' else run_loop start steps' st'
  end.

(** The iterations [run_loop] executes: the loop state on entry of each
    iteration, with the step it consumes. An iteration that raises or
    breaks is the last one. *)
Fixpoint iterations
    (start : Qc) (steps : list Step.t) (st : Loop.t) (w : World.t)
    : list (Loop.t * Step.t) :=
  match steps with
  | [] => []
  | step :: steps' =>
      (st, step) ::
        match loop_body start st step w with
        | (Returned (st', false), w') => iterations start steps' st' w'
        | _ => []
        end
  end.

(** The experiment and the scheduler that [benchmark_replication] sets up. *)
Definition replication_experiment
    (scheduler_logging_level : Z) (clock : Clock.t) : Experiment.t :=
  let sq_arm :=
    match BenchmarkProblem.status_quo_params problem with
    | None => None
    | Some status_quo_params => Some (Arm.mk "status_quo" status_quo_params)
    end in
  let scheduler_options :=
    get_benchmark_scheduler_options method (bool_decide (is_Some sq_arm))
      scheduler_logging_level in
  let runner :=
    get_benchmark_runner problem
      (SchedulerOptions.max_pending_trials scheduler_options) in
  Experiment.mk
    (Some (BenchmarkProblem.name problem +:+ "|"
           +:+ BenchmarkMethod.name method +:+ "_"
           +:+ pretty (Clock.time clock)))
    (BenchmarkProblem.search_space problem)
    (BenchmarkProblem.optimization_config problem)
    (Some runner)
    sq_arm
    (BenchmarkProblem.auxiliary_experiments_by_purpose problem)
    ∅.

(** Modelled from the spec: the constructor of [Scheduler] (scheduler.py
    is not among the sources), kept as the record of its three arguments.
    What the scheduler does to logger levels with the [logging_level] of
    its options is not modelled; the statements on logger levels below are
    about the oracle evaluator, which a replication calls after the
    scheduler is done. *)
Definition replication_scheduler
    (scheduler_logging_level : Z) (clock : Clock.t) : Scheduler.t :=
  let experiment := replication_experiment scheduler_logging_level clock in
  let scheduler_options :=
    get_benchmark_scheduler_options method
      (bool_decide (is_Some (Experiment.status_quo experiment)))
      scheduler_logging_level in
  Scheduler.mk experiment
    (clone_reset (BenchmarkMethod.generation_strategy method))
    scheduler_options.

(** The steps the scheduler yields to the loop of one replication. *)
Definition replication_steps
    (seed : nat) (scheduler_logging_level : Z) (clock : Clock.t)
    : list Step.t :=
  run_trials_and_yield_results
    (replication_scheduler scheduler_logging_level clock) seed
    (BenchmarkProblem.num_trials problem)
    (BenchmarkMethod.timeout_hours method).

Definition initial_loop_state
    (scheduler_logging_level : Z) (clock : Clock.t) : Loop.t :=
  Loop.mk [] [] [] (BenchmarkMethod.timeout_hours method) ∅ 0
    (replication_experiment scheduler_logging_level clock).

(** What [benchmark_replication] does once the loop is over. *)
Definition finalize_replication
    (seed : nat) (strip_runner_before_saving : bool) (st : Loop.t)
    : Prog BenchmarkResult.t :=
  record_call SummarizeFinalResult;;
  inference_trace ←
    mapM (λ params, _get_oracle_value_of_params params problem)
         (Loop.best_params_list st);
  oracle_trace ←
    _get_oracle_trace_from_arms (Loop.evaluated_arms_list st) problem;
  let optimization_trace :=
    if BenchmarkProblem.report_inference_value_as_trace problem
    then inference_trace
    else oracle_trace in
  let score_trace :=
    compute_score_trace optimization_trace
      (BenchmarkProblem.baseline_value problem)
      (BenchmarkProblem.optimal_value problem) in
  let '(fit_time, gen_time) := get_model_times (Loop.experiment st) in
  let experiment :=
    if strip_runner_before_saving
    then Experiment.set_runner (Loop.experiment st) None
    else Loop.experiment st in
  mret (BenchmarkResult.mk
          (Experiment.name experiment)
          seed
          experiment
          oracle_trace
          inference_trace
          optimization_trace
          score_trace
          (Loop.cost_trace st)
          fit_time
          gen_time).

Definition benchmark_replication
    (seed : nat) (strip_runner_before_saving : bool)
    (scheduler_logging_level : Z) (clock : Clock.t)
    : Prog BenchmarkResult.t :=
  record_call PollAndProcessResults;;
  st ← run_loop (Clock.monotonic clock)
         (replication_steps seed scheduler_logging_level clock)
         (initial_loop_state scheduler_logging_level clock);
  finalize_replication seed strip_runner_before_saving st.

End Replication.

(** ** Baseline value from Sobol replications *)

(** [xs[-1]] *)
Definition last_item {A} (xs : list A) : Outcome A :=
  match last xs with
  | Some x => Returned x
  | None => Raised (IndexError "index -1 is out of bounds")
  end.

Section Baseline.
Context `{Externals}.

(** The dummy problem that [compute_baseline_value_from_sobol] builds. *)
Definition dummy_problem
    (optimization_config : OptimizationConfig.t) (search_space : SearchSpace)
    (test_function : BenchmarkTestFunction.t)
    (target_fidelity_and_task : option TParameterization)
    : BenchmarkProblem.t :=
  let target_fidelity_and_task : TParameterization :=
    match target_fidelity_and_task with
    | None => ∅
    | Some _ => ∅
    end in
  let higher_is_better :=
    match OptimizationConfig.objective optimization_config with
    | MultiObjective => true
    | SingleObjective minimize => negb minimize
    end in
  let dummy_optimal_value := if higher_is_better then PosInf else NegInf in
  BenchmarkProblem.mk
    "dummy"
    optimization_config
    5
    test_function
    (BenchmarkProblem.noise_std BenchmarkProblem_defaults)
    dummy_optimal_value
    (- dummy_optimal_value)%float
    search_space
    (BenchmarkProblem.report_inference_value_as_trace BenchmarkProblem_defaults)
    (BenchmarkProblem.n_best_points BenchmarkProblem_defaults)
    (BenchmarkProblem.step_runtime_function BenchmarkProblem_defaults)
    target_fidelity_and_task
    (BenchmarkProblem.status_quo_params BenchmarkProblem_defaults)
    (BenchmarkProblem.auxiliary_experiments_by_purpose
       BenchmarkProblem_defaults).

(** [np.array(values).mean()]: NaN for an empty array (numpy warns, it
    does not raise); for the other arrays the result of numpy's summation
    and division, [ndarray_mean]. *)
Definition mean (values : list float) : float :=
  match values with
  | [] => NaN
  | _ => ndarray_mean values
  end.

(** [clocks i] are the clock readings of the replication with seed [i]. *)
Definition compute_baseline_value_from_sobol
    (optimization_config : OptimizationConfig.t) (search_space : SearchSpace)
    (test_function : BenchmarkTestFunction.t)
    (target_fidelity_and_task : option TParameterization)
    (n_repeats : nat) (clocks : nat → Clock.t) : Prog float :=
  let gs := get_sobol_generation_strategy in
  let method := BenchmarkMethod_init gs in
  let dummy_problem :=
    dummy_problem optimization_config search_space test_function
      target_fidelity_and_task in
  values ←
    mapM (λ i,
            result ← benchmark_replication dummy_problem method i true
                       WARNING (clocks i);
            lift (last_item (BenchmarkResult.optimization_trace result)))
         (seq 0 n_repeats);
  mret (mean values).

End Baseline.

(** ** Vocabulary of the statements *)

(** A float that is a number other than an infinity: a zero or a finite
    non-zero double. *)
Definition finite (x : float) : Prop :=
  match Prim2SF x with
  | S754_zero _ | S754_finite _ _ _ => True
  | _ => False
  end.

(** A float that is a number other than zero: an infinity or a finite
    non-zero double. *)
Definition nonzero_number (x : float) : Prop :=
  match Prim2SF x with
  | S754_infinity _ | S754_finite _ _ _ => True
  | _ => False
  end.

(** One of the two zeros, [0.0] and [-0.0]. *)
Definition is_a_zero (x : float) : Prop := x = 0%float ∨ x = (-0)%float.

(** The score of a trace value, as [compute_score_trace] computes it. *)
Definition score_of (baseline optimal v : float) : float :=
  (100 * (v - baseline) / (optimal - baseline))%float.

(** The integers from [-n] to [n], each with its double. *)
Definition integer_doubles (n : Z) : list (Z * float) :=
  (λ z, (z, of_Z z)) <$> seqZ (- n) (2 * n + 1).

(** Whether the score of the integer [v], for the integer baseline [b]
    and the integer optimum [o], is where the contract of the score puts
    it: zero at the baseline, 100 at the optimum, above 100 beyond the
    optimum and negative on the other side of the baseline. [below] tells
    whether the baseline is below the optimum. *)
Definition score_in_order (below : bool) (b o v : Z * float) : bool :=
  let s := score_of b.2 o.2 v.2 in
  match (v.1 ?= b.1)%Z with
  | Eq => (s =? 0)%float
  | Lt => if below then (s <? 0)%float else true
  | Gt => if below then true else (s <? 0)%float
  end
  && match (v.1 ?= o.1)%Z with
     | Eq => (s =? 100)%float
     | Gt => if below then (100 <? s)%float else true
     | Lt => if below then true else (100 <? s)%float
     end.

(** [score_in_order] for all integers from [-n] to [n] as baseline,
    optimum and value, the baseline and the optimum being different. *)
Definition scores_in_order_up_to (n : Z) : bool :=
  let doubles := integer_doubles n in
  forallb
    (λ b,
       forallb
         (λ o,
            match (b.1 ?= o.1)%Z with
            | Eq => true
            | Lt => forallb (score_in_order true b o) doubles
            | Gt => forallb (score_in_order false b o) doubles
            end)
         doubles)
    doubles.

Definition batch_size_greater_than_1 (method : BenchmarkMethod.t) : Prop :=
  ∃ batch_size,
    BenchmarkMethod.batch_size method = Some batch_size ∧ (1 < batch_size)%Z.

(** The total runtime [_get_cumulative_cost] computes for trial [i]. *)
Definition trial_total_runtime `{Externals}
    (experiment : Experiment.t) (runner : BenchmarkRunner.t) (i : nat) : Qc :=
  from_option
    (λ trial,
       get_total_runtime trial
         (BenchmarkRunner.step_runtime_function runner)
         (BenchmarkTestFunction.n_steps (BenchmarkRunner.test_function runner)))
    0 (Experiment.trials experiment !! i).

(** The runner [get_oracle_experiment_from_params] builds. *)
Definition zero_noise_runner (problem : BenchmarkProblem.t)
    : BenchmarkRunner.t :=
  BenchmarkRunner_init (BenchmarkProblem.test_function problem) 0 None 1.

(** The parameterizations attached for one requested trial. *)
Definition merged_parameterizations
    (problem : BenchmarkProblem.t) (dict_of_params : dict string TParameterization)
    : list TParameterization :=
  (λ parameters,
     dict_merge parameters (BenchmarkProblem.target_fidelity_and_task problem))
    <$> dict_of_params.*2.

(** The trial as attached, and as it is once run and marked completed. *)
Definition attached_trial
    (problem : BenchmarkProblem.t) (dict_of_params : dict string TParameterization)
    : Trial.t :=
  Trial.mk
    (zip_with Arm.mk (dict_of_params.*1)
       (merged_parameterizations problem dict_of_params))
    RUNNING ∅.

Definition oracle_trial `{Externals}
    (problem : BenchmarkProblem.t) (dict_of_params : dict string TParameterization)
    : Trial.t :=
  let trial := attached_trial problem dict_of_params in
  Trial.mark_completed
    (Trial.update_run_metadata trial
       (runner_run (zero_noise_runner problem) trial)).

(** The calls made for a sequence of requested trials. *)
Definition oracle_calls
    (problem : BenchmarkProblem.t)
    (items : dict nat (dict string TParameterization)) : list Call :=
  flat_map
    (λ it,
       [AttachTrial (merged_parameterizations problem it.2) (it.2.*1);
        RunnerRun (zero_noise_runner problem) it.1])
    items.

Definition oracle_trials `{Externals}
    (problem : BenchmarkProblem.t)
    (items : dict nat (dict string TParameterization))
    (trials : gmap nat Trial.t) : gmap nat Trial.t :=
  foldl (λ trials it, <[it.1 := oracle_trial problem it.2]> trials) trials items.

(** The experiment [get_oracle_experiment_from_params] returns. *)
Definition oracle_experiment `{Externals}
    (problem : BenchmarkProblem.t)
    (items : dict nat (dict string TParameterization)) : Experiment.t :=
  Experiment.mk None
    (BenchmarkProblem.search_space problem)
    (BenchmarkProblem.optimization_config problem)
    None None None (oracle_trials problem items ∅).

(** Whether the inference trace is supported for the problem. *)
Definition inference_supported (problem : BenchmarkProblem.t) : bool :=
  negb (BenchmarkProblem.is_moo problem || is_mf_or_mt problem).

(** Whether the budget is used up once [step] has been processed. *)
Definition timed_out
    (method : BenchmarkMethod.t) (start : Qc) (step : Step.t) : bool :=
  match BenchmarkMethod.timeout_hours method with
  | Some timeout_hours => Qcleb (remaining_after timeout_hours start step) 0
  | None => false
  end.

Definition timeout_warning : Call :=
  LoggerWarning benchmark_logger "The optimization loop timed out.".

Definition is_best_point_call (c : Call) : Prop :=
  match c with
  | GetBestParameters _ _ _ => True
  | _ => False
  end.

Global Instance is_best_point_call_dec c : Decision (is_best_point_call c).
Proof. destruct c; apply _. Defined.

Definition not_best_point_call (c : Call) : Prop := ¬ is_best_point_call c.

(** A program that only adds calls satisfying [P] to the world's record. *)
Definition only_calls {A} (P : Call → Prop) (m : Prog A) : Prop :=
  ∀ w, ∃ new, World.calls (m w).2 = World.calls w ++ new ∧ Forall P new.

(** The statuses COMPLETED and EARLY_STOPPED are absorbing along the
    steps: a trial seen in one of them is in one of them at every later
    step. *)
Definition absorbing (steps : list Step.t) : Prop :=
  ∀ i j step_i step_j,
    (i ≤ j)%nat → steps !! i = Some step_i → steps !! j = Some step_j →
    currently_completed_trials (Step.experiment step_i)
    ⊆ currently_completed_trials (Step.experiment step_j).

(** The set of newly completed trials of an iteration of the loop. *)
Definition newly_completed (iteration : Loop.t * Step.t) : gset nat :=
  newly_completed_trials iteration.1 iteration.2.

(** An iteration that finds newly completed trials. *)
Definition productive (iteration : Loop.t * Step.t) : Prop :=
  (0 < size (newly_completed iteration))%nat.

Global Instance productive_dec iteration : Decision (productive iteration) :=
  decide (0 < size (newly_completed iteration))%nat.

(** The request for the current best point made in an iteration. *)
Definition best_point_call
    (problem : BenchmarkProblem.t) (iteration : Loop.t * Step.t) : Call :=
  GetBestParameters (Step.experiment iteration.2)
    (BenchmarkProblem.optimization_config problem)
    (BenchmarkProblem.n_best_points problem).

(** How the entries that the loop appends relate to the iteration that
    appends them. *)
Definition cost_of_iteration `{Externals}
    (iteration : Loop.t * Step.t) (cost : Qc) : Prop :=
  _get_cumulative_cost (Loop.cost iteration.1) (newly_completed iteration)
    (Step.experiment iteration.2)
  = Returned cost.

Definition arms_of_iteration
    (iteration : Loop.t * Step.t) (arms : list Arm.t) : Prop :=
  newly_evaluated_arms (Step.experiment iteration.2)
    (newly_completed iteration)
  = Returned arms.

Definition best_of_iteration `{Externals}
    (problem : BenchmarkProblem.t) (method : BenchmarkMethod.t)
    (iteration : Loop.t * Step.t) (best_params : TParameterization) : Prop :=
  get_best_parameters method (Step.experiment iteration.2)
    (BenchmarkProblem.optimization_config problem)
    (BenchmarkProblem.n_best_points problem)
  = Returned [best_params].

(** The requests made to the oracle evaluator for the oracle trace. *)
Definition oracle_requests (evaluated_arms_list : list (list Arm.t))
    : dict nat (dict string TParameterization) :=
  imap (λ i arms, (i, dict_of_arms arms)) evaluated_arms_list.

(** The world in which the loop of a replication started in [w] runs. *)
Definition polled (w : World.t) : World.t :=
  (record_call PollAndProcessResults w).2.

(** The iterations of the loop of a replication. *)
Definition replication_iterations `{Externals}
    (problem : BenchmarkProblem.t) (method : BenchmarkMethod.t)
    (seed : nat) (scheduler_logging_level : Z) (clock : Clock.t)
    (w : World.t) : list (Loop.t * Step.t) :=
  iterations problem method (Clock.monotonic clock)
    (replication_steps problem method seed scheduler_logging_level clock)
    (initial_loop_state problem method scheduler_logging_level clock)
    (polled w).

(** The collaborators honour their contracts at a step that shows newly
    completed trials, [previous] being the trials seen completed before
    it: the experiment carries its benchmark runner, the newly completed
    trials hold one or more arms each, and the method returns exactly one
    best parameterization if it is asked for one. Nothing is asked of a
    step without newly completed trials, at which the loop calls no
    collaborator. *)
Definition contracts_honoured_after `{Externals}
    (problem : BenchmarkProblem.t) (method : BenchmarkMethod.t)
    (previous : gset nat) (step : Step.t) : Prop :=
  let newly := currently_completed_trials (Step.experiment step) ∖ previous in
  newly ≠ ∅ →
  is_Some (Experiment.runner (Step.experiment step))
  ∧ (∀ i trial,
       i ∈ newly →
       Experiment.trials (Step.experiment step) !! i = Some trial →
       Trial.arms trial ≠ [])
  ∧ (inference_supported problem = true →
     ∃ best_params,
       get_best_parameters method (Step.experiment step)
         (BenchmarkProblem.optimization_config problem)
         (BenchmarkProblem.n_best_points problem)
       = Returned [best_params]).

(** The contracts are honoured along a sequence of steps, each step
    being compared with the step before it. *)
Fixpoint contracts_honoured_along `{Externals}
    (problem : BenchmarkProblem.t) (method : BenchmarkMethod.t)
    (previous : gset nat) (steps : list Step.t) : Prop :=
  match steps with
  | [] => True
  | step :: steps' =>
      contracts_honoured_after problem method previous step
      ∧ contracts_honoured_along problem method
          (currently_completed_trials (Step.experiment step)) steps'
  end.

(** [arms] are the arms of the trials newly completed in an iteration,
    each arm once. *)
Definition arms_of_newly_completed
    (iteration : Loop.t * Step.t) (arms : list Arm.t) : Prop :=
  NoDup arms
  ∧ ∀ arm,
      arm ∈ arms
      ↔ ∃ i trial,
          i ∈ newly_completed iteration
          ∧ Experiment.trials (Step.experiment iteration.2) !! i = Some trial
          ∧ arm ∈ Trial.arms trial.

(** The best-point extractor yields one value per trial. *)
Definition one_value_per_trial `{Externals} : Prop :=
  ∀ experiment optimization_config,
    length (_get_trace experiment optimization_config)
    = size (Experiment.trials experiment).

(** The runtime that an iteration adds to the cumulative cost when the
    runner has no simulated backend: the total runtime of its newly
    completed trials. *)
Definition runtime_of_iteration `{Externals}
    (iteration : Loop.t * Step.t) : Qc :=
  match Experiment.runner (Step.experiment iteration.2) with
  | Some runner =>
      sum (trial_total_runtime (Step.experiment iteration.2) runner
           <$> elements (newly_completed iteration))
  | None => 0
  end.

(** The experiment of a step is run without simulated backend. *)
Definition not_simulated (step : Step.t) : Prop :=
  ∃ runner,
    Experiment.runner (Step.experiment step) = Some runner
    ∧ BenchmarkRunner.simulated_backend_runner runner = None.

(** ** Doubles at which the scores show their rounding *)
Module Doubles.

(** The doubles nearest to 0.1, 0.3 and 0.7, and the double next above
    the latter. *)
Definition d0_1 : float := 0x1.999999999999ap-4.
Definition d0_3 : float := 0x1.3333333333333p-2.
Definition d0_7 : float := 0x1.6666666666666p-1.
Definition above_0_7 : float := 0x1.6666666666667p-1.

(** The smallest positive double, and 2^1000. *)
Definition tiny : float := 0x1p-1074.
Definition huge : float := 0x1p+1000.

End Doubles.

(** ** A concrete problem, method and set of collaborators

    Used to instantiate the statements below. The test function reads the
    parameter [x]; the scheduler completes one trial per step, one hour
    apart; a trial's runtime is its number of steps. *)
Module Example.

Definition x_of (parameters : TParameterization) : float :=
  match parameters !! "x" with
  | Some (PInt z) => of_Z z
  | _ => NaN
  end.

Definition test_function : BenchmarkTestFunction.t :=
  BenchmarkTestFunction.mk 1 (λ parameters, [x_of parameters]).

Definition run (runner : BenchmarkRunner.t) (trial : Trial.t) : RunMetadata :=
  {["Ys" :=
      concat ((λ arm,
                 BenchmarkTestFunction.evaluate_true
                   (BenchmarkRunner.test_function runner)
                   (Arm.parameters arm))
              <$> Trial.arms trial)]}.

Definition trace (experiment : Experiment.t) (_ : OptimizationConfig.t)
    : list float :=
  (λ i,
     match Experiment.trials experiment !! i with
     | Some trial =>
         default NaN (head (default [] (Trial.run_metadata trial !! "Ys")))
     | None => NaN
     end)
  <$> seq 0 (size (Experiment.trials experiment)).

Definition completed_trial (i : nat) : Trial.t :=
  Trial.mk [Arm.mk (pretty i +:+ "_0") {["x" := PInt (Z.of_nat i)]}]
    COMPLETED ∅.

Definition completed_trials (n : nat) : gmap nat Trial.t :=
  list_to_map ((λ i, (i, completed_trial i)) <$> seq 0 n).

(** The [k]-th step: trials 0 to [k] are completed, [k + 1] hours after
    the clock started. *)
Definition step_of (scheduler : Scheduler.t) (k : nat) : Step.t :=
  Step.mk
    (Experiment.with_trials (Scheduler.experiment scheduler)
       (completed_trials (S k)))
    (Qc_of_Z (3600 * (Z.of_nat k + 1))).

Definition steps (scheduler : Scheduler.t) (_ max_trials : nat)
    (_ : option Qc) : list Step.t :=
  step_of scheduler <$> seq 0 max_trials.

Definition problem : BenchmarkProblem.t :=
  BenchmarkProblem.mk "example"
    (OptimizationConfig.mk (SingleObjective true)) 3 test_function 0
    (of_Z 0) (of_Z 10) (SearchSpaceRef 0) false 1 None ∅ None None.

(** As [problem], with a fidelity parameter to evaluate at. *)
Definition multi_fidelity_problem : BenchmarkProblem.t :=
  BenchmarkProblem.mk "example_mf"
    (OptimizationConfig.mk (SingleObjective true)) 3 test_function 0
    (of_Z 0) (of_Z 10) (SearchSpaceRef 0) false 1 None
    {["fidelity" := PInt 1]} None None.

(** A method with a timeout of two hours, and one without timeout. *)
Definition method : BenchmarkMethod.t :=
  BenchmarkMethod.mk "method" (GenerationStrategyRef 0) (Some (Qc_of_Z 2))
    false (Some 1%Z) false 1 None.

Definition method_without_timeout : BenchmarkMethod.t :=
  BenchmarkMethod.mk "method" (GenerationStrategyRef 0) None
    false (Some 1%Z) false 1 None.

Definition externals : Externals := {|
  run_trials_and_yield_results := steps;
  get_best_parameters := λ _ _ _ n_points,
    Returned (replicate n_points {["x" := PInt 0]});
  runner_run := run;
  _get_trace := trace;
  get_total_runtime := λ _ _ n_steps, Qc_of_Z (Z.of_nat n_steps);
  get_model_times := λ _, (0, 0);
  clone_reset := id;
  get_sobol_generation_strategy := GenerationStrategyRef 1;
  BenchmarkMethod_init := λ gs,
    BenchmarkMethod.mk "Sobol" gs (Some (Qc_of_Z 4)) false (Some 1%Z) false 1
      None;
  BenchmarkProblem_defaults := problem;
  ndarray_mean := λ values,
    (foldl PrimFloat.add 0 values / of_Z (Z.of_nat (length values)))%float;
|}.

(** The single step of a scheduler that has run no trial three hours
    after the clock started, and collaborators like [externals] with such
    a scheduler and a method that cannot recommend a best point. *)
Definition stalled_step (scheduler : Scheduler.t) : Step.t :=
  Step.mk (Scheduler.experiment scheduler) (Qc_of_Z (3 * 3600)).

Definition stalled_externals : Externals := {|
  run_trials_and_yield_results := λ scheduler _ _ _, [stalled_step scheduler];
  get_best_parameters := λ _ _ _ _,
    Raised (ValueError "no data to recommend from");
  runner_run := run;
  _get_trace := trace;
  get_total_runtime := λ _ _ n_steps, Qc_of_Z (Z.of_nat n_steps);
  get_model_times := λ _, (0, 0);
  clone_reset := id;
  get_sobol_generation_strategy := GenerationStrategyRef 1;
  BenchmarkMethod_init := λ gs,
    BenchmarkMethod.mk "Sobol" gs (Some (Qc_of_Z 4)) false (Some 1%Z) false 1
      None;
  BenchmarkProblem_defaults := problem;
  ndarray_mean := λ values,
    (foldl PrimFloat.add 0 values / of_Z (Z.of_nat (length values)))%float;
|}.

Definition clock : Clock.t := Clock.mk 1700000000 0.

Definition world : World.t := World.mk {["ax.core.experiment" := 20%Z]} [].

Definition scheduler : Scheduler.t :=
  @replication_scheduler externals problem method 20 clock.

(** The experiment of the second step, with trials 0 and 1 completed. *)
Definition experiment : Experiment.t := Step.experiment (step_of scheduler 1).

Definition new_trials : gset nat := {[0%nat; 1%nat]}.

(** A request whose only key is not the index the new trial gets. *)
Definition request_with_other_key : dict nat (dict string TParameterization) :=
  [(1%nat, [("1_0", {["x" := PInt 1]})])].

Definition request : dict nat (dict string TParameterization) :=
  [(0%nat, [("0_0", {["x" := PInt 1]})])].

Definition method_with_batch_size_None : BenchmarkMethod.t :=
  BenchmarkMethod.mk "method" (GenerationStrategyRef 0) None false None
    false 1 None.

End Example.

(** * The rest of the benchmark code *)

From stdpp Require sorting.

(** ** Aggregation drivers *)

Section Drivers.
Context `{Externals}.
(** [AggregatedBenchmarkResult.from_benchmark_results], which may raise. *)
Context {AggregatedBenchmarkResult : Type}.
Context (from_benchmark_results :
           list BenchmarkResult.t → Outcome AggregatedBenchmarkResult).

(** [seeds] is a sequence, which can be iterated over more than once;
    [clocks i] are the clock readings of the [i]-th replication that is
    run. *)
Definition benchmark_one_method_problem
    (problem : BenchmarkProblem.t) (method : BenchmarkMethod.t)
    (seeds : list nat) (scheduler_logging_level : Z)
    (clocks : nat → Clock.t) : Prog AggregatedBenchmarkResult :=
  results ←
    mapM (λ it : nat * nat,
            benchmark_replication problem method it.2 true
              scheduler_logging_level (clocks it.1))
         (imap pair seeds);
  lift (from_benchmark_results results).

(** [itertools.product(problems, methods)] varies the method fastest. *)
Definition benchmark_multiple_problems_methods
    (problems : list BenchmarkProblem.t) (methods : list BenchmarkMethod.t)
    (seeds : list nat) (scheduler_logging_level : Z)
    (clocks : nat → Clock.t) : Prog (list AggregatedBenchmarkResult) :=
  mapM (λ it : nat * (BenchmarkProblem.t * BenchmarkMethod.t),
          benchmark_one_method_problem it.2.1 it.2.2 seeds
            scheduler_logging_level
            (λ i, clocks (it.1 * length seeds + i)%nat))
       (imap pair (list_prod problems methods)).

End Drivers.

(** ** [ax/benchmark/benchmark_method.py]

    The dataclass [BenchmarkMethod] as this file declares it, and its
    [__post_init__]. The values of [model_kwargs] are of the kinds None,
    str, bool, float and int; the warnings logged are returned with the
    initialized object. *)

Module benchmark_method.

(** Python's truth value of an object. *)
Definition truthy (v : TParamValue) : bool :=
  match v with
  | PNone => false
  | PStr s => negb (bool_decide (s = EmptyString))
  | PBool b => b
  | PFloat q => negb (Qceqb q 0)
  | PInt z => negb (bool_decide (z = 0%Z))
  end.

(** A generation step: [model_kwargs], and a handle for the attributes
    that [__post_init__] does not touch. *)
Module GenerationStep.
Record t : Type := mk {
  spec : nat;
  model_kwargs : option (gmap string TParamValue);
}.
End GenerationStep.

(** A generation strategy with its flag [is_node_based] and its
    [_steps]. *)
Module Strategy.
Record t : Type := mk {
  is_node_based : bool;
  _steps : list GenerationStep.t;
}.
End Strategy.

Record t : Type := mk {
  name : string;
  generation_strategy : Strategy.t;
  scheduler_options : SchedulerOptions.t;
  distribute_replications : bool;
}.

(** The outcome of [__post_init__]: the object with the warnings logged,
    or the exception raised. *)
Inductive PostInit : Type :=
  | Initialized (self : t) (warnings : list string)
  | NotImplementedError (msg : string).

Definition node_based_message : string :=
  "Node-based generation strategies are not yet supported in benchmarks.".

Definition fit_tracking_metrics_warning : string :=
  "Setting `fit_tracking_metrics` in a GenerationStep to False.".

(** [model_kwargs.get(key, True)] is true. *)
Definition get_or_True (model_kwargs : gmap string TParamValue)
    (key : string) : bool :=
  truthy (default (PBool true) (model_kwargs !! key)).

(** The body of the loop over the steps of the cloned strategy: the step
    as it leaves it, and the warnings it logs. *)
Definition set_fit_tracking_metrics (step : GenerationStep.t)
    : GenerationStep.t * list string :=
  let model_kwargs :=
    match GenerationStep.model_kwargs step with
    | None => ∅
    | Some model_kwargs => model_kwargs
    end in
  if get_or_True model_kwargs "fit_tracking_metrics"
  then
    (GenerationStep.mk (GenerationStep.spec step)
       (Some (<["fit_tracking_metrics" := PBool false]> model_kwargs)),
     [fit_tracking_metrics_warning])
  else
    (GenerationStep.mk (GenerationStep.spec step) (Some model_kwargs), []).

(** [_assign_frozen_attr(obj, name="generation_strategy", value=value)] *)
Definition _assign_frozen_attr (obj : t) (value : Strategy.t) : t :=
  mk (name obj) value (scheduler_options obj) (distribute_replications obj).

Section PostInit.
(** [GenerationStrategy.clone_reset] *)
Context (clone_reset : Strategy.t → Strategy.t).

Definition __post_init__ (self : t) : PostInit :=
  if Strategy.is_node_based (generation_strategy self)
  then NotImplementedError node_based_message
  else
    let gs_cloned := clone_reset (generation_strategy self) in
    let updated := set_fit_tracking_metrics <$> Strategy._steps gs_cloned in
    Initialized
      (_assign_frozen_attr self
         (Strategy.mk (Strategy.is_node_based gs_cloned) (updated.*1)))
      (concat (updated.*2)).

End PostInit.

(** The value under [fit_tracking_metrics] once a step has been
    processed. *)
Definition fit_tracking_metrics_after
    (model_kwargs : option (gmap string TParamValue)) : TParamValue :=
  match default ∅ model_kwargs !! "fit_tracking_metrics" with
  | Some v => if truthy v then PBool false else v
  | None => PBool false
  end.

(** The steps for which the warning is logged. *)
Definition warned (step : GenerationStep.t) : Prop :=
  get_or_True (default ∅ (GenerationStep.model_kwargs step))
    "fit_tracking_metrics" = true.

Global Instance warned_dec step : Decision (warned step).
Proof. unfold warned. apply _. Defined.

(** A strategy with a step without [model_kwargs], a step that fits
    tracking metrics and a step that has the flag at zero. *)
Definition example_strategy : Strategy.t :=
  Strategy.mk false
    [GenerationStep.mk 0 None;
     GenerationStep.mk 1
       (Some {["fit_tracking_metrics" := PBool true; "seed" := PInt 3]});
     GenerationStep.mk 2 (Some {["fit_tracking_metrics" := PInt 0]})].

Definition example_method : t :=
  mk "method" example_strategy
    (SchedulerOptions.mk 1 0 0 TRIAL None false None 0 20) false.

End benchmark_method.

(** ** Vocabulary of the further statements *)

(** The trials that the iterations of a loop found newly completed. *)
Definition all_newly_completed (its : list (Loop.t * Step.t)) : gset nat :=
  ⋃ (newly_completed <$> its).

(** The experiment as of the last iteration, the one of [st] when there
    was none. *)
Definition experiment_after
    (st : Loop.t) (its : list (Loop.t * Step.t)) : Experiment.t :=
  from_option (λ it, Step.experiment it.2) (Loop.experiment st) (last its).

(** A program that leaves the level of every logger as it found it,
    whatever its outcome. *)
Definition keeps_log_levels {A} (m : Prog A) : Prop :=
  ∀ w, World.log_levels (m w).2 = World.log_levels w.

(** The experiment of a step is run on a simulated backend. *)
Definition simulated (step : Step.t) : Prop :=
  ∃ runner simulated_backend_runner,
    Experiment.runner (Step.experiment step) = Some runner
    ∧ BenchmarkRunner.simulated_backend_runner runner
      = Some simulated_backend_runner.

(** The time of the backend simulator as of a step. *)
Definition simulator_time (step : Step.t) : Qc :=
  match Experiment.runner (Step.experiment step) with
  | Some runner =>
      match BenchmarkRunner.simulated_backend_runner runner with
      | Some simulated_backend_runner =>
          BackendSimulator.time
            (SimulatedBackendRunner.simulator simulated_backend_runner)
      | None => 0%Qc
      end
  | None => 0%Qc
  end.

(** No trial has a negative total runtime. *)
Definition nonnegative_runtimes `{Externals} : Prop :=
  ∀ trial step_runtime_function n_steps,
    (0 ≤ get_total_runtime trial step_runtime_function n_steps)%Qc.

(** No trial is completed or stopped early at the step. *)
Definition none_completed (step : Step.t) : Prop :=
  currently_completed_trials (Step.experiment step) = ∅.

(** The calls of the three phases of a replication: the loop asks for the
    best parameters and may log the timeout warning; the oracle evaluator
    attaches and runs trials and fetches their data. *)
Definition is_loop_call (c : Call) : Prop :=
  is_best_point_call c ∨ c = timeout_warning.

Definition is_attach_or_run (c : Call) : Prop :=
  match c with
  | AttachTrial _ _ | RunnerRun _ _ => True
  | _ => False
  end.

Definition is_oracle_call (c : Call) : Prop :=
  is_attach_or_run c ∨ c = FetchData.

Global Instance Call_eq_dec_PollAndProcessResults (c : Call) :
  Decision (c = PollAndProcessResults).
Proof. destruct c; (by left) || (by right). Defined.

(** The number of times the scheduler was polled for results. *)
Definition polls (calls : list Call) : nat :=
  length (filter (λ c, c = PollAndProcessResults) calls).

(** A program that, when it returns, has polled the scheduler [n]
    times. *)
Definition polls_on_return {A} (n : nat) (m : Prog A) : Prop :=
  ∀ w a w',
    m w = (Returned a, w') →
    ∃ new, World.calls w' = World.calls w ++ new ∧ polls new = n.

(** The oracle value of a parameterization: the single value of the trace
    of the oracle experiment with the one arm [0_0]. *)
Definition oracle_value_of `{Externals}
    (problem : BenchmarkProblem.t) (params : TParameterization)
    (value : float) : Prop :=
  _get_trace (oracle_experiment problem [(0%nat, [("0_0", params)])])
    (BenchmarkProblem.optimization_config problem)
  = [value].

(** ** Further concrete inputs *)

Module Cases.

(** As [Example.method], with two trials pending at once: the runner of
    the replication gets a simulated backend. *)
Definition concurrent_method : BenchmarkMethod.t :=
  BenchmarkMethod.mk "method" (GenerationStrategyRef 0) (Some (Qc_of_Z 2))
    false (Some 1%Z) false 2 None.

(** Collaborators as in [Example], with a scheduler that yields a single
    step at which no trial has been run. *)
Definition idle_externals : Externals := {|
  run_trials_and_yield_results := λ scheduler _ _ _,
    [Step.mk (Scheduler.experiment scheduler) (Qc_of_Z 60)];
  get_best_parameters := @get_best_parameters Example.externals;
  runner_run := Example.run;
  _get_trace := Example.trace;
  get_total_runtime := @get_total_runtime Example.externals;
  get_model_times := λ _, (0%Qc, 0%Qc);
  clone_reset := id;
  get_sobol_generation_strategy := GenerationStrategyRef 1;
  BenchmarkMethod_init := @BenchmarkMethod_init Example.externals;
  BenchmarkProblem_defaults := Example.problem;
  ndarray_mean := @ndarray_mean Example.externals;
|}.

(** As [Example.problem], asking for two best points. *)
Definition two_best_points_problem : BenchmarkProblem.t :=
  BenchmarkProblem.mk "example"
    (OptimizationConfig.mk (SingleObjective true)) 3 Example.test_function 0
    (of_Z 0) (of_Z 10) (SearchSpaceRef 0) false 2 None ∅ None None.

(** A world in which the experiment logger is at ERROR. *)
Definition quiet_world : World.t :=
  World.mk {["ax.core.experiment" := 40%Z]} [].

(** The arms requested for one trial. *)
Definition one_arm : dict string TParameterization :=
  [("1_0", {["x" := PInt 2]})].

(** An aggregation that counts the results. *)
Definition count_results (results : list BenchmarkResult.t) : Outcome nat :=
  Returned (length results).

End Cases.

(** * Properties *)

(** ** Rationals *)

Lemma Qcleb_le x y : Qcleb x y = true ↔ x ≤ y.
Proof. unfold Qcleb, Qcle. apply Qle_bool_iff. Qed.

Lemma Qcleb_gt x y : Qcleb x y = false ↔ y < x.
Proof.
  rewrite <-not_true_iff_false, Qcleb_le. split.
  - apply Qcnot_le_lt.
  - apply Qclt_not_le.
Qed.

(** ** Doubles *)

Lemma Prim2SF_zero x s : Prim2SF x = S754_zero s → is_a_zero x.
Proof.
  intros Hx. destruct s; [right|left]; apply Prim2SF_inj; by rewrite Hx.
Qed.

Lemma Prim2SF_nan x : Prim2SF x = S754_nan → x = NaN.
Proof. intros Hx. apply Prim2SF_inj. by rewrite Hx. Qed.

Lemma sub_diag_finite x : finite x → Prim2SF (x - x) = S754_zero false.
Proof.
  unfold finite. rewrite sub_spec.
  destruct (Prim2SF x) as [[]| | |s m e]; try done.
  intros _. unfold SF64sub, SFsub. by rewrite Z.sub_diag.
Qed.

(** ** Score trace *)

Lemma compute_score_trace_lookup optimization_trace baseline_value optimal_value i :
  compute_score_trace optimization_trace baseline_value optimal_value !! i
  = (λ v, (100 * (v - baseline_value) / (optimal_value - baseline_value))%float)
      <$> optimization_trace !! i.
Proof. unfold compute_score_trace. by rewrite list_lookup_fmap. Qed.

Lemma score_at_baseline baseline optimal :
  finite baseline → nonzero_number (optimal - baseline) →
  is_a_zero (100 * (baseline - baseline) / (optimal - baseline))%float.
Proof.
  intros Hb Hd. unfold nonzero_number in Hd.
  assert (∃ s, Prim2SF (100 * (baseline - baseline) / (optimal - baseline))
               = S754_zero s) as [s Hs].
  { rewrite div_spec, mul_spec, (sub_diag_finite baseline Hb).
    destruct (Prim2SF (optimal - baseline)) as [| | |s m e]; try done;
      by eexists. }
  by apply Prim2SF_zero in Hs.
Qed.

(** With an infinite optimum and the opposite infinity as baseline every
    score is NaN. *)
Lemma score_infinite_baseline v (positive : bool) :
  let optimal := if positive then PosInf else NegInf in
  (100 * (v - (- optimal)) / (optimal - (- optimal)))%float = NaN.
Proof.
  intros optimal. apply Prim2SF_nan.
  rewrite div_spec, mul_spec, !sub_spec, opp_spec.
  destruct positive; cbn; destruct (Prim2SF v) as [[]|[]| |[] m e];
    reflexivity.
Qed.

(** The scores of the integers from -100 to 100, checked by
    evaluation. *)
Lemma scores_in_order_up_to_100 : scores_in_order_up_to 100 = true.
Proof. vm_cast_no_check (eq_refl true). Qed.

Lemma elem_of_integer_doubles n z :
  (- n ≤ z ≤ n)%Z → In (z, of_Z z) (integer_doubles n).
Proof.
  intros Hz. apply list_elem_of_In, list_elem_of_fmap.
  exists z. split; [done|]. apply elem_of_seqZ. lia.
Qed.

Lemma scores_in_order n b o v :
  scores_in_order_up_to n = true →
  (- n ≤ b ≤ n)%Z → (- n ≤ o ≤ n)%Z → (- n ≤ v ≤ n)%Z → o ≠ b →
  let s := score_of (of_Z b) (of_Z o) (of_Z v) in
  (v = b → (s =? 0)%float = true)
  ∧ (v = o → (s =? 100)%float = true)
  ∧ ((b < o < v)%Z ∨ (v < o < b)%Z → (100 <? s)%float = true)
  ∧ ((v < b < o)%Z ∨ (o < b < v)%Z → (s <? 0)%float = true).
Proof.
  intros Hall Hb Ho Hv Hne s. unfold scores_in_order_up_to in Hall.
  cbv zeta in Hall. rewrite forallb_forall in Hall.
  specialize (Hall _ (elem_of_integer_doubles n b Hb)).
  rewrite forallb_forall in Hall.
  specialize (Hall _ (elem_of_integer_doubles n o Ho)).
  cbn [fst snd] in Hall.
  assert (∃ below,
            score_in_order below (b, of_Z b) (o, of_Z o) (v, of_Z v) = true
            ∧ if below : bool then (b < o)%Z else (o < b)%Z)
    as (below & Hcheck & Hbelow).
  { destruct (Z.compare_spec b o) as [->|Hlt|Hgt]; [done| |].
    - exists true. split; [|done]. rewrite forallb_forall in Hall.
      apply Hall. by apply elem_of_integer_doubles.
    - exists false. split; [|done]. rewrite forallb_forall in Hall.
      apply Hall. by apply elem_of_integer_doubles. }
  unfold score_in_order in Hcheck. cbn [fst snd] in Hcheck. fold s in Hcheck.
  apply andb_prop in Hcheck as [Hbaseline Hoptimal].
  destruct (Z.compare_spec v b) as [Hvb|Hvb|Hvb],
    (Z.compare_spec v o) as [Hvo|Hvo|Hvo], below;
    split_and!; intros; first [done | lia].
Qed.

(** C5, amended. In binary64 arithmetic, for every trace, baseline and
    optimal value, [compute_score_trace] returns a sequence as long as the
    trace, whose element [i] is
    [100 * (trace[i] - baseline) / (optimal - baseline)] with each
    operation rounded. With baseline 0 and optimum 100 the trace
    0, 50, 100, 150 is mapped to itself; with baseline 100 and optimum 0
    the trace 100, 50, 0 is mapped to -0.0, 50, 100, where -0.0 equals 0.
    A value equal to a finite baseline scores zero, of either sign,
    whenever [optimal - baseline] is a number other than zero. For
    integers from -100 to 100 as baseline, optimum and value, the baseline
    and the optimum being different, a value equal to the baseline scores
    0, a value equal to the optimum scores 100, a value beyond the optimum
    scores above 100 and a value worse than the baseline scores below
    0. *)
Theorem compute_score_trace_spec
    (optimization_trace : list float) (baseline_value optimal_value : float) :
  let score_trace :=
    compute_score_trace optimization_trace baseline_value optimal_value in
  length score_trace = length optimization_trace
  ∧ (∀ i v, optimization_trace !! i = Some v →
       score_trace !! i
       = Some (100 * (v - baseline_value)
               / (optimal_value - baseline_value))%float
       ∧ (v = baseline_value →
          finite baseline_value →
          nonzero_number (optimal_value - baseline_value) →
          ∃ zero, score_trace !! i = Some zero ∧ is_a_zero zero))
  ∧ (compute_score_trace [0; 50; 100; 150] 0 100 = [0; 50; 100; 150])%float
  ∧ (compute_score_trace [100; 50; 0] 100 0 = [-0; 50; 100]
     ∧ (-0 =? 0) = true)%float
  ∧ ∀ b o v : Z,
      (-100 ≤ b ≤ 100)%Z → (-100 ≤ o ≤ 100)%Z → (-100 ≤ v ≤ 100)%Z →
      o ≠ b →
      ∃ s,
        compute_score_trace [of_Z v] (of_Z b) (of_Z o) = [s]
        ∧ (v = b → (s =? 0)%float = true)
        ∧ (v = o → (s =? 100)%float = true)
        ∧ ((b < o < v)%Z ∨ (v < o < b)%Z → (100 <? s)%float = true)
        ∧ ((v < b < o)%Z ∨ (o < b < v)%Z → (s <? 0)%float = true).
Proof.
  intros score_trace.
  assert (∀ i v, optimization_trace !! i = Some v →
            score_trace !! i
            = Some (100 * (v - baseline_value)
                    / (optimal_value - baseline_value))%float) as Hlookup.
  { intros i v Hi. unfold score_trace.
    by rewrite compute_score_trace_lookup, Hi. }
  split; [|split; [|split; [|split]]].
  - unfold score_trace, compute_score_trace. by rewrite length_fmap.
  - intros i v Hi. split; [by apply Hlookup|].
    intros -> Hfinite Hnonzero. eexists. split; [by apply Hlookup|].
    by apply score_at_baseline.
  - reflexivity.
  - split; reflexivity.
  - intros b o v Hb Ho Hv Hne.
    exists (score_of (of_Z b) (of_Z o) (of_Z v)). split; [done|].
    by apply (scores_in_order 100 b o v scores_in_order_up_to_100).
Qed.

(** C5, as stated, fails in binary64 arithmetic, for baselines and optima
    that differ. With baseline 0.1 and optimum 0.3 the optimum scores
    100.00000000000001. With baseline 0 and optimum 0.7 the double next
    above 0.7 scores 100, not more. With baseline 0 and optimum 2^1000
    the value -2^-1074, worse than the baseline, scores -0.0, which is not
    negative. With baseline -inf and optimum +inf, the values of the dummy
    problem of [compute_baseline_value_from_sobol], the optimum scores
    NaN. *)
Lemma compute_score_trace_not_exact :
  ((Doubles.d0_3 =? Doubles.d0_1) = false
   ∧ compute_score_trace [Doubles.d0_3] Doubles.d0_1 Doubles.d0_3
     = [0x1.9000000000001p+6]
   ∧ (0x1.9000000000001p+6 =? 100) = false)%float
  ∧ ((Doubles.d0_7 =? 0) = false
     ∧ (Doubles.d0_7 <? Doubles.above_0_7) = true
     ∧ compute_score_trace [Doubles.above_0_7] 0 Doubles.d0_7 = [100]
     ∧ (100 <? 100) = false)%float
  ∧ ((Doubles.huge =? 0) = false
     ∧ (- Doubles.tiny <? 0) = true
     ∧ compute_score_trace [- Doubles.tiny] 0 Doubles.huge = [-0]
     ∧ (-0 <? 0) = false)%float
  ∧ ((PosInf =? NegInf) = false
     ∧ compute_score_trace [PosInf] NegInf PosInf = [NaN]
     ∧ (NaN =? 100) = false)%float.
Proof. vm_compute. done. Qed.

Local Close Scope Qc_scope.

(** ** Outcomes *)

Lemma mapM_Returned {A B} (f : A → Outcome B) (g : A → B) (l : list A) :
  (∀ x, x ∈ l → f x = Returned (g x)) → mapM f l = Returned (g <$> l).
Proof.
  induction l as [|x l IH]; intros Hf; [done|]. cbn.
  rewrite Hf by left. cbn. rewrite IH; [done|].
  intros y Hy. apply Hf. by right.
Qed.

(** ** Scheduler options *)

(** C8, as the code has it. The scheduler options use the batched trial
    type if and only if the method's batch size is unset ([None]) or
    greater than 1, or the status quo is included; they use the sequential
    trial type otherwise. *)
Theorem scheduler_options_trial_type
    (method : BenchmarkMethod.t) (include_sq : bool) (logging_level : Z) :
  let batched :=
    BenchmarkMethod.batch_size method = None
    ∨ batch_size_greater_than_1 method
    ∨ include_sq = true in
  let options :=
    get_benchmark_scheduler_options method include_sq logging_level in
  (SchedulerOptions.trial_type options = BATCH_TRIAL ↔ batched)
  ∧ (SchedulerOptions.trial_type options = TRIAL ↔ ¬ batched).
Proof.
  intros batched options.
  assert (batched ↔ SchedulerOptions.trial_type options = BATCH_TRIAL)
    as Hbatched.
  { unfold batched, options, batch_size_greater_than_1. cbn.
    destruct (BenchmarkMethod.batch_size method) as [b|]; cbn.
    - case_bool_decide as Hb; cbn.
      + split; [done|]. intros _. right; left. by exists b.
      + destruct include_sq; cbn; split; try done.
        * intros _. by right; right.
        * intros [?|[(b' & [= <-] & ?)|?]]; done.
    - split; [done|]. intros _. by left. }
  split; [done|]. rewrite Hbatched.
  destruct (SchedulerOptions.trial_type options); split; try done.
Qed.

(** C8, as stated, fails for a method whose batch size is [None]: the
    options are batched although the batch size is not greater than 1 and
    no status quo is included. *)
Lemma scheduler_options_batch_size_None_batched :
  ¬ (SchedulerOptions.trial_type
       (get_benchmark_scheduler_options Example.method_with_batch_size_None
          false 20)
     = BATCH_TRIAL
     ↔ batch_size_greater_than_1 Example.method_with_batch_size_None
       ∨ false = true).
Proof.
  intros [Hbatched _].
  destruct (Hbatched eq_refl) as [(b & Hb & _)|?]; discriminate.
Qed.

(** ** Cost accumulator *)

Section Cost.
Context `{Externals}.

Lemma _get_cumulative_cost_simulated
    previous_cost new_trials experiment runner simulated_backend_runner :
  Experiment.runner experiment = Some runner →
  BenchmarkRunner.simulated_backend_runner runner
  = Some simulated_backend_runner →
  _get_cumulative_cost previous_cost new_trials experiment
  = Returned (BackendSimulator.time
                (SimulatedBackendRunner.simulator simulated_backend_runner)).
Proof.
  unfold _get_cumulative_cost. intros -> Hsim. cbn. by rewrite Hsim.
Qed.

Lemma _get_cumulative_cost_computed
    previous_cost new_trials experiment runner :
  Experiment.runner experiment = Some runner →
  BenchmarkRunner.simulated_backend_runner runner = None →
  new_trials ⊆ dom (Experiment.trials experiment) →
  _get_cumulative_cost previous_cost new_trials experiment
  = Returned
      (previous_cost
       + sum (trial_total_runtime experiment runner <$> elements new_trials))%Qc.
Proof.
  unfold _get_cumulative_cost. intros -> Hsim Hdom. cbn. rewrite Hsim.
  rewrite (mapM_Returned _ (trial_total_runtime experiment runner)); [done|].
  intros i Hi%elem_of_elements%Hdom%elem_of_dom. destruct Hi as [trial Hi].
  unfold lookup_trial, trial_total_runtime. by rewrite Hi.
Qed.

(** C6. When the experiment's runner has a simulated backend runner,
    [_get_cumulative_cost] returns the simulator's time, whatever the
    previous cost and the trial indices passed; otherwise it returns the
    previous cost plus the sum, over the newly completed trials, of the
    total runtime computed from the runner's step-runtime function and
    the test function's number of steps. *)
Theorem _get_cumulative_cost_spec
    (previous_cost : Qc) (new_trials : gset nat) (experiment : Experiment.t)
    (runner : BenchmarkRunner.t) :
  Experiment.runner experiment = Some runner →
  match BenchmarkRunner.simulated_backend_runner runner with
  | Some simulated_backend_runner =>
      ∀ previous_cost' new_trials',
        _get_cumulative_cost previous_cost' new_trials' experiment
        = Returned
            (BackendSimulator.time
               (SimulatedBackendRunner.simulator simulated_backend_runner))
  | None =>
      new_trials ⊆ dom (Experiment.trials experiment) →
      _get_cumulative_cost previous_cost new_trials experiment
      = Returned
          (previous_cost
           + sum ((λ i,
                     from_option
                       (λ trial,
                          get_total_runtime trial
                            (BenchmarkRunner.step_runtime_function runner)
                            (BenchmarkTestFunction.n_steps
                               (BenchmarkRunner.test_function runner)))
                       0%Qc (Experiment.trials experiment !! i))
                  <$> elements new_trials))%Qc
  end.
Proof.
  intros Hrunner.
  destruct (BenchmarkRunner.simulated_backend_runner runner) eqn:Hsim.
  - intros ??. by eapply _get_cumulative_cost_simulated.
  - intros Hdom. by apply _get_cumulative_cost_computed.
Qed.

End Cost.

(** ** Baseline value from Sobol replications *)

(** C10. [compute_baseline_value_from_sobol] discards its
    [target_fidelity_and_task] argument: the dummy problem of the Sobol
    replications always has an empty target-fidelity-and-task mapping, so
    the value returned is the one returned when [None] is passed. *)
Theorem compute_baseline_value_from_sobol_discards_target `{Externals}
    (optimization_config : OptimizationConfig.t) (search_space : SearchSpace)
    (test_function : BenchmarkTestFunction.t)
    (target_fidelity_and_task : option TParameterization)
    (n_repeats : nat) (clocks : nat → Clock.t) :
  BenchmarkProblem.target_fidelity_and_task
    (dummy_problem optimization_config search_space test_function
       target_fidelity_and_task) = ∅
  ∧ dummy_problem optimization_config search_space test_function
      target_fidelity_and_task
    = dummy_problem optimization_config search_space test_function None
  ∧ compute_baseline_value_from_sobol optimization_config search_space
      test_function target_fidelity_and_task n_repeats clocks
    = compute_baseline_value_from_sobol optimization_config search_space
        test_function None n_repeats clocks.
Proof.
  assert (dummy_problem optimization_config search_space test_function
            target_fidelity_and_task
          = dummy_problem optimization_config search_space test_function None)
    as Hdummy by (by destruct target_fidelity_and_task).
  split_and!; [by destruct target_fidelity_and_task|done|].
  unfold compute_baseline_value_from_sobol. by rewrite Hdummy.
Qed.

(** ** Programs *)

(** Unfolds the monadic plumbing of [Prog] and [Outcome] in the goal. *)
Ltac prog_unfold :=
  cbv beta delta
    [mbind mret Prog_bind Prog_ret Outcome_bind Outcome_ret
     lift raise record_call warning level get_logger setLevel].
Ltac prog_simpl := prog_unfold; cbn beta iota zeta.

Lemma Prog_bind_Returned {A B} (m : Prog A) (f : A → Prog B) w a w1 :
  m w = (Returned a, w1) → (m ≫= f) w = f a w1.
Proof. intros Hm. prog_simpl. by rewrite Hm. Qed.

Lemma Prog_bind_inv {A B} (m : Prog A) (f : A → Prog B) w b w' :
  (m ≫= f) w = (Returned b, w') →
  ∃ a w1, m w = (Returned a, w1) ∧ f a w1 = (Returned b, w').
Proof.
  prog_simpl. destruct (m w) as [[a|e] w1]; [|done].
  intros Hf. by exists a, w1.
Qed.

(** ** Oracle evaluator *)

Lemma app_eq_seq {A} (f : A → nat) (l1 l2 : list A) k :
  f <$> (l1 ++ l2) = seq k (length (l1 ++ l2)) →
  f <$> l1 = seq k (length l1) ∧ f <$> l2 = seq (k + length l1) (length l2).
Proof.
  revert k. induction l1 as [|x l1 IH]; intros k; cbn.
  - intros ->. split; [done|]. f_equal. lia.
  - intros [= -> Hl]. destruct (IH _ Hl) as [-> ->].
    split; [done|]. f_equal. lia.
Qed.

Lemma Exists_first_split {A} (P : A → Prop) `{∀ x, Decision (P x)} (l : list A) :
  Exists P l →
  ∃ l1 x l2, l = l1 ++ x :: l2 ∧ Forall (λ y, ¬ P y) l1 ∧ P x.
Proof.
  induction l as [|y l IH]; intros HE; [by apply Exists_nil in HE|].
  destruct (decide (P y)) as [Hy|Hy].
  - by exists [], y, l.
  - apply Exists_cons in HE as [?|HE]; [done|].
    destruct (IH HE) as (l1 & x & l2 & -> & ? & ?).
    exists (y :: l1), x, l2. split_and!; [done|by constructor|done].
Qed.

Lemma trials_with_trials experiment trials :
  Experiment.trials (Experiment.with_trials experiment trials) = trials.
Proof. done. Qed.

Section Oracle.
Context `{Externals}.
Implicit Types items : dict nat (dict string TParameterization).

Lemma oracle_trials_cons problem it items trials :
  oracle_trials problem (it :: items) trials
  = oracle_trials problem items (<[it.1 := oracle_trial problem it.2]> trials).
Proof. done. Qed.

Lemma dom_oracle_trials problem items trials k :
  dom trials = set_seq 0 k →
  items.*1 = seq k (length items) →
  dom (oracle_trials problem items trials) = set_seq 0 (k + length items).
Proof.
  revert trials k. induction items as [|[i d] items IH]; intros trials k.
  - cbn. intros -> _. by rewrite Nat.add_0_r.
  - intros Hdom [= -> Hkeys]. rewrite oracle_trials_cons.
    rewrite (IH _ (S k)); [|cbn [fst snd]|done].
    + cbn [length]. by rewrite Nat.add_succ_r.
    + rewrite dom_insert_L, Hdom. by rewrite set_seq_S_end_union_L.
Qed.

Lemma lookup_oracle_trials_lt problem items trials k i :
  items.*1 = seq k (length items) → i < k →
  oracle_trials problem items trials !! i = trials !! i.
Proof.
  revert trials k. induction items as [|[j d] items IH]; intros trials k.
  - done.
  - intros [= -> Hkeys] Hi. rewrite oracle_trials_cons.
    rewrite (IH _ (S k)) by (done || lia).
    apply lookup_insert_ne. cbn. lia.
Qed.

Lemma lookup_oracle_trials problem items trials k j i d :
  items.*1 = seq k (length items) →
  items !! j = Some (i, d) →
  i = k + j ∧ oracle_trials problem items trials !! i
              = Some (oracle_trial problem d).
Proof.
  revert trials k j. induction items as [|[i' d'] items IH];
    intros trials k j; [done|].
  intros [= ? Hkeys]. subst i'. rewrite oracle_trials_cons.
  destruct j as [|j]; cbn.
  - intros [= <- <-]. split; [lia|].
    rewrite (lookup_oracle_trials_lt _ _ _ (S k)) by (done || lia).
    apply lookup_insert_eq.
  - intros Hj. destruct (IH (<[k:=oracle_trial problem d']> trials) _ _ Hkeys Hj)
      as [-> ->]. split; [lia|done].
Qed.

(** The loop over well-keyed, non-empty requests never raises. *)
Lemma attach_and_run_trials_ok problem items experiment w :
  dom (Experiment.trials experiment)
  = set_seq 0 (size (Experiment.trials experiment)) →
  items.*1 = seq (size (Experiment.trials experiment)) (length items) →
  Forall (λ it, it.2 ≠ []) items →
  attach_and_run_trials problem (zero_noise_runner problem) items experiment w
  = (Returned
       (Experiment.with_trials experiment
          (oracle_trials problem items (Experiment.trials experiment))),
     World.mk (World.log_levels w)
       (World.calls w ++ oracle_calls problem items)).
Proof.
  revert experiment w.
  induction items as [|[i d] items IH]; intros experiment w Hdom; cbn.
  - intros _ _. destruct experiment, w. cbn. by rewrite app_nil_r.
  - intros [= -> Hkeys] [Hd Hitems]%Forall_cons. cbn in Hd.
    rewrite bool_decide_eq_false_2 by (by destruct d).
    assert (Experiment.trials experiment
              !! size (Experiment.trials experiment) = None) as Hfresh.
    { apply not_elem_of_dom. rewrite Hdom, elem_of_set_seq. lia. }
    unfold attach_trial, lookup_trial. prog_simpl. cbn.
    rewrite lookup_insert_eq. cbn. rewrite insert_insert_eq.
    set (trial := Trial.mark_completed _).
    set (experiment' := Experiment.with_trials _ _).
    assert (size (Experiment.trials experiment')
            = S (size (Experiment.trials experiment))) as Hsize.
    { unfold experiment'. rewrite trials_with_trials.
      by rewrite map_size_insert_None. }
    rewrite (IH experiment').
    + unfold experiment', trial. destruct experiment. simpl.
      rewrite <-!app_assoc. reflexivity.
    + rewrite Hsize. unfold experiment'. rewrite trials_with_trials.
      by rewrite dom_insert_L, Hdom, set_seq_S_end_union_L.
    + by rewrite Hsize.
    + done.
Qed.

(** On a request without arms the loop raises, after the calls made for
    the requests that precede it. *)
Lemma attach_and_run_trials_no_arms problem pre i post experiment w :
  dom (Experiment.trials experiment)
  = set_seq 0 (size (Experiment.trials experiment)) →
  pre.*1 = seq (size (Experiment.trials experiment)) (length pre) →
  Forall (λ it, it.2 ≠ []) pre →
  attach_and_run_trials problem (zero_noise_runner problem)
    (pre ++ (i, []) :: post) experiment w
  = (Raised (ValueError no_arms_message),
     World.mk (World.log_levels w)
       (World.calls w ++ oracle_calls problem pre)).
Proof.
  revert experiment w.
  induction pre as [|[j d] pre IH]; intros experiment w Hdom; cbn.
  - intros _ _. destruct w. cbn. by rewrite app_nil_r.
  - intros [= -> Hkeys] [Hd Hpre]%Forall_cons. cbn in Hd.
    rewrite bool_decide_eq_false_2 by (by destruct d).
    assert (Experiment.trials experiment
              !! size (Experiment.trials experiment) = None) as Hfresh.
    { apply not_elem_of_dom. rewrite Hdom, elem_of_set_seq. lia. }
    unfold attach_trial, lookup_trial. prog_simpl. cbn.
    rewrite lookup_insert_eq. cbn. rewrite insert_insert_eq.
    set (trial := Trial.mark_completed _).
    set (experiment' := Experiment.with_trials _ _).
    assert (size (Experiment.trials experiment')
            = S (size (Experiment.trials experiment))) as Hsize.
    { unfold experiment'. rewrite trials_with_trials.
      by rewrite map_size_insert_None. }
    rewrite (IH experiment').
    + simpl. rewrite <-!app_assoc. reflexivity.
    + rewrite Hsize. unfold experiment'. rewrite trials_with_trials.
      by rewrite dom_insert_L, Hdom, set_seq_S_end_union_L.
    + by rewrite Hsize.
    + done.
Qed.

End Oracle.

Section OracleEvaluator.
Context `{Externals}.
Implicit Types items : dict nat (dict string TParameterization).

Lemma get_oracle_experiment_from_params_ok problem items w :
  items.*1 = seq 0 (length items) →
  Forall (λ it, it.2 ≠ []) items →
  get_oracle_experiment_from_params problem items w
  = (Returned (oracle_experiment problem items),
     World.mk (<["ax.core.experiment" := INFO]> (World.log_levels w))
       (World.calls w ++ oracle_calls problem items ++ [FetchData])).
Proof.
  intros Hkeys Hitems. unfold get_oracle_experiment_from_params.
  prog_simpl. fold (zero_noise_runner problem).
  rewrite attach_and_run_trials_ok; [|done..].
  unfold logger_level. simpl. rewrite lookup_insert_eq, !insert_insert_eq.
  simpl. by rewrite <-app_assoc.
Qed.

Lemma get_oracle_experiment_from_params_no_arms problem pre i post w :
  pre.*1 = seq 0 (length pre) →
  Forall (λ it, it.2 ≠ []) pre →
  get_oracle_experiment_from_params problem (pre ++ (i, []) :: post) w
  = (Raised (ValueError no_arms_message),
     World.mk (<["ax.core.experiment" := WARNING]> (World.log_levels w))
       (World.calls w ++ oracle_calls problem pre)).
Proof.
  intros Hkeys Hpre. unfold get_oracle_experiment_from_params.
  prog_simpl. fold (zero_noise_runner problem).
  rewrite attach_and_run_trials_no_arms by done.
  simpl. by rewrite insert_insert_eq.
Qed.

Lemma size_oracle_experiment problem items :
  items.*1 = seq 0 (length items) →
  size (Experiment.trials (oracle_experiment problem items)) = length items.
Proof.
  intros Hkeys. rewrite <-size_dom. cbn [oracle_experiment Experiment.trials].
  rewrite (dom_oracle_trials _ _ _ 0) by (done || by rewrite dom_empty_L).
  rewrite size_set_seq. done.
Qed.

(** A successful call leaves the logger at the level [get_logger] gave
    it, whatever its level was before the call. *)
Lemma get_oracle_experiment_from_params_level_on_return problem items w :
  items.*1 = seq 0 (length items) →
  Forall (λ it, it.2 ≠ []) items →
  logger_level (get_oracle_experiment_from_params problem items w).2
    "ax.core.experiment"
  = INFO.
Proof.
  intros Hkeys Hitems. rewrite get_oracle_experiment_from_params_ok by done.
  unfold logger_level. simpl. by rewrite lookup_insert_eq.
Qed.

(** C7, as the code has it. For a call whose keys are the trial indices
    0, 1, 2, ... in iteration order: if a requested trial has no arms the
    call fails with the invalid-input error, and only the trials requested
    before it have been attached; if every requested trial has arms, each
    attached parameterization is the arm's parameters merged with, and
    overridden by, the problem's target fidelity and task parameters, and
    each trial is run with a zero-noise runner and marked completed. *)
Theorem get_oracle_experiment_from_params_spec
    (problem : BenchmarkProblem.t)
    (dict_of_dict_of_params : dict nat (dict string TParameterization))
    (w : World.t) :
  dict_of_dict_of_params.*1 = seq 0 (length dict_of_dict_of_params) →
  let result :=
    get_oracle_experiment_from_params problem dict_of_dict_of_params w in
  let target := BenchmarkProblem.target_fidelity_and_task problem in
  (Exists (λ it, it.2 = []) dict_of_dict_of_params →
     ∃ pre i post,
       dict_of_dict_of_params = pre ++ (i, []) :: post
       ∧ Forall (λ it, it.2 ≠ []) pre
       ∧ result.1 = Raised (ValueError no_arms_message)
       ∧ World.calls result.2 = World.calls w ++ oracle_calls problem pre)
  ∧ (Forall (λ it, it.2 ≠ []) dict_of_dict_of_params →
     ∃ experiment,
       result.1 = Returned experiment
       ∧ World.calls result.2
         = World.calls w ++ oracle_calls problem dict_of_dict_of_params
           ++ [FetchData]
       ∧ BenchmarkRunner.noise_std (zero_noise_runner problem) = 0%Qc
       ∧ size (Experiment.trials experiment) = length dict_of_dict_of_params
       ∧ ∀ trial_index dict_of_params,
           (trial_index, dict_of_params) ∈ dict_of_dict_of_params →
           ∃ trial,
             Experiment.trials experiment !! trial_index = Some trial
             ∧ Trial.arms trial
               = zip_with Arm.mk (dict_of_params.*1)
                   ((λ parameters, target ∪ parameters) <$> dict_of_params.*2)
             ∧ Trial.run_metadata trial
               = runner_run (zero_noise_runner problem)
                   (attached_trial problem dict_of_params) ∪ ∅
             ∧ Trial.status trial = COMPLETED)
  ∧ (∀ parameters key,
       dict_merge parameters target !! key
       = match target !! key with
         | Some value => Some value
         | None => parameters !! key
         end).
Proof.
  intros Hkeys result target. split_and!.
  - intros (pre & [i d] & post & Hsplit & Hpre & Hd)%Exists_first_split;
      [|intros it; apply _].
    cbn in Hd. subst d. exists pre, i, post.
    assert (pre.*1 = seq 0 (length pre)) as Hprekeys.
    { rewrite Hsplit in Hkeys. by apply app_eq_seq in Hkeys as [? _]. }
    assert (Forall (λ it, it.2 ≠ []) pre) as Hpre'.
    { eapply Forall_impl; [exact Hpre|]. done. }
    unfold result. rewrite Hsplit.
    rewrite get_oracle_experiment_from_params_no_arms by done. done.
  - intros Hitems. exists (oracle_experiment problem dict_of_dict_of_params).
    unfold result. rewrite get_oracle_experiment_from_params_ok by done.
    split_and!; [done|done|done|by apply size_oracle_experiment|].
    intros trial_index dict_of_params [j Hj]%list_elem_of_lookup.
    destruct (lookup_oracle_trials problem _ ∅ 0 _ _ _ Hkeys Hj) as [_ Hlookup].
    exists (oracle_trial problem dict_of_params). done.
  - intros parameters key. unfold dict_merge. rewrite lookup_union.
    destruct (target !! key), (parameters !! key); done.
Qed.

(** C9 fails on the error exit. With the logger at level INFO (20), a
    request whose first trial has no arms makes the call raise after the
    level was raised to WARNING and before it is restored. *)
Theorem oracle_error_exit_leaves_logger_at_WARNING
    (problem : BenchmarkProblem.t) :
  let w := World.mk {["ax.core.experiment" := 20%Z]} [] in
  let result := get_oracle_experiment_from_params problem [(0, [])] w in
  result.1 = Raised (ValueError no_arms_message)
  ∧ logger_level w "ax.core.experiment" = 20%Z
  ∧ logger_level result.2 "ax.core.experiment" = WARNING.
Proof. done. Qed.

End OracleEvaluator.

(** C7, as stated, fails when a key is not the index the new trial gets:
    the arms are there and the trial is attached, but looking it up under
    the key raises before it is run or marked completed. *)
Lemma get_oracle_experiment_from_params_key_not_trial_index :
  Forall (λ it, it.2 ≠ []) Example.request_with_other_key
  ∧ (@get_oracle_experiment_from_params Example.externals Example.problem
       Example.request_with_other_key Example.world).1
    = Raised (KeyError 1)
  ∧ World.calls
      (@get_oracle_experiment_from_params Example.externals Example.problem
         Example.request_with_other_key Example.world).2
    = [AttachTrial [{["x" := PInt 1]}] ["1_0"]]
  ∧ ¬ (∃ experiment,
         (@get_oracle_experiment_from_params Example.externals Example.problem
            Example.request_with_other_key Example.world).1
         = Returned experiment).
Proof.
  split_and!.
  - by repeat constructor.
  - by vm_compute.
  - by vm_compute.
  - intros [experiment Hexperiment]. vm_compute in Hexperiment. discriminate.
Qed.

(** ** Calls made by the programs *)

Section OnlyCalls.
Context (P : Call → Prop).

Lemma only_calls_ret {A} (a : A) : only_calls P (mret a).
Proof. intros w. exists []. by rewrite app_nil_r. Qed.

Lemma only_calls_raise {A} e : only_calls P (raise e : Prog A).
Proof. intros w. exists []. by rewrite app_nil_r. Qed.

Lemma only_calls_lift {A} (o : Outcome A) : only_calls P (lift o).
Proof. intros w. exists []. by rewrite app_nil_r. Qed.

Lemma only_calls_level name : only_calls P (level name).
Proof. intros w. exists []. by rewrite app_nil_r. Qed.

Lemma only_calls_setLevel name lvl : only_calls P (setLevel name lvl).
Proof. intros w. exists []. simpl. by rewrite app_nil_r. Qed.

Lemma only_calls_get_logger name : only_calls P (get_logger name).
Proof. apply only_calls_setLevel. Qed.

Lemma only_calls_record_call c : P c → only_calls P (record_call c).
Proof. intros Hc w. exists [c]. split; [done|]. by constructor. Qed.

Lemma only_calls_bind {A B} (m : Prog A) (f : A → Prog B) :
  only_calls P m → (∀ a, only_calls P (f a)) → only_calls P (m ≫= f).
Proof.
  intros Hm Hf w. destruct (Hm w) as (new1 & Hnew1 & HP1).
  prog_simpl. destruct (m w) as [[a|e] w1]; simpl in *.
  - destruct (Hf a w1) as (new2 & Hnew2 & HP2).
    exists (new1 ++ new2). rewrite Hnew2, Hnew1, <-app_assoc.
    split; [done|]. by apply Forall_app.
  - by exists new1.
Qed.

Lemma only_calls_mapM {A B} (f : A → Prog B) (l : list A) :
  (∀ a, only_calls P (f a)) → only_calls P (mapM f l).
Proof.
  intros Hf. induction l as [|a l IH]; simpl.
  - apply only_calls_ret.
  - apply only_calls_bind; [done|]. intros b.
    apply only_calls_bind; [done|]. intros k. apply only_calls_ret.
Qed.

End OnlyCalls.

Create HintDb only_calls discriminated.
#[local] Hint Resolve only_calls_ret only_calls_raise only_calls_lift
  only_calls_level only_calls_setLevel only_calls_get_logger only_calls_mapM
  : only_calls.

#[local] Hint Extern 1 (not_best_point_call _) =>
  (by intros []) : only_calls.

Ltac only_calls_step :=
  lazymatch goal with
  | |- only_calls _ (_ ≫= _) => apply only_calls_bind; [|intros ?]
  | |- only_calls _ (record_call _) =>
      apply only_calls_record_call; solve [auto with only_calls]
  | |- only_calls _ (warning _ _) =>
      apply only_calls_record_call; solve [auto with only_calls]
  | |- only_calls _ (if ?b then _ else _) => destruct b
  | |- only_calls _ (let '(_, _) := ?p in _) => destruct p
  | |- only_calls _ (match ?x with _ => _ end) => destruct x
  | |- only_calls _ _ => solve [auto with only_calls]
  end.

Section NoBestPointCall.
Context `{Externals}.
Local Abbreviation P := not_best_point_call.

Lemma attach_and_run_trials_calls problem runner items experiment :
  only_calls P (attach_and_run_trials problem runner items experiment).
Proof.
  revert experiment. induction items as [|[i d] items IH]; intros experiment.
  - apply only_calls_ret.
  - simpl. unfold attach_trial. repeat only_calls_step.
Qed.

Lemma get_oracle_experiment_from_params_calls problem items :
  only_calls P (get_oracle_experiment_from_params problem items).
Proof.
  unfold get_oracle_experiment_from_params. repeat only_calls_step.
  apply attach_and_run_trials_calls.
Qed.

Lemma finalize_replication_calls problem seed strip st :
  only_calls P (finalize_replication problem seed strip st).
Proof.
  unfold finalize_replication, _get_oracle_trace_from_arms.
  repeat only_calls_step.
  - apply only_calls_mapM. intros params. unfold _get_oracle_value_of_params.
    repeat only_calls_step. apply get_oracle_experiment_from_params_calls.
  - apply get_oracle_experiment_from_params_calls.
Qed.

Lemma loop_body_calls problem method start st step :
  inference_supported problem = false →
  only_calls P (loop_body problem method start st step).
Proof.
  unfold inference_supported. intros Hinf.
  unfold loop_body, record_newly_completed. rewrite Hinf.
  repeat only_calls_step.
Qed.

Lemma run_loop_calls problem method start steps st :
  inference_supported problem = false →
  only_calls P (run_loop problem method start steps st).
Proof.
  intros Hinf. revert st. induction steps as [|step steps IH]; intros st.
  - apply only_calls_ret.
  - simpl. apply only_calls_bind; [by apply loop_body_calls|].
    intros [st' [|]]; [apply only_calls_ret|apply IH].
Qed.

Lemma benchmark_replication_calls problem method seed strip lvl clock :
  inference_supported problem = false →
  only_calls P (benchmark_replication problem method seed strip lvl clock).
Proof.
  intros Hinf. unfold benchmark_replication. repeat only_calls_step.
  - by apply run_loop_calls.
  - apply finalize_replication_calls.
Qed.

End NoBestPointCall.

(** ** One iteration of the loop *)

Section Iteration.
Context `{Externals}.
Context (problem : BenchmarkProblem.t) (method : BenchmarkMethod.t).
Context (start : Qc).

Lemma loop_body_Returned st step w st' stop w' :
  loop_body problem method start st step w = (Returned (st', stop), w') →
  let experiment := Step.experiment step in
  let newly := newly_completed (st, step) in
  stop = timed_out method start step
  ∧ Loop.previously_completed_trial_idcs st'
    = currently_completed_trials experiment
  ∧ Loop.experiment st' = experiment
  ∧ Loop.remaining_hours st'
    = match BenchmarkMethod.timeout_hours method with
      | Some timeout_hours =>
          Some (remaining_after timeout_hours start step)
      | None => Loop.remaining_hours st
      end
  ∧ World.log_levels w' = World.log_levels w
  ∧ ∃ new,
      World.calls w'
      = World.calls w ++ new ++ (if stop then [timeout_warning] else [])
      ∧ if decide (productive (st, step))
        then
          ∃ cost arms,
            _get_cumulative_cost (Loop.cost st) newly experiment
            = Returned cost
            ∧ newly_evaluated_arms experiment newly = Returned arms
            ∧ Loop.cost st' = cost
            ∧ Loop.cost_trace st' = Loop.cost_trace st ++ [cost]
            ∧ Loop.evaluated_arms_list st'
              = Loop.evaluated_arms_list st ++ [arms]
            ∧ if inference_supported problem
              then
                ∃ best_params,
                  get_best_parameters method experiment
                    (BenchmarkProblem.optimization_config problem)
                    (BenchmarkProblem.n_best_points problem)
                  = Returned [best_params]
                  ∧ Loop.best_params_list st'
                    = Loop.best_params_list st ++ [best_params]
                  ∧ new = [best_point_call problem (st, step)]
              else
                Loop.best_params_list st' = Loop.best_params_list st
                ∧ new = []
        else
          Loop.cost st' = Loop.cost st
          ∧ Loop.cost_trace st' = Loop.cost_trace st
          ∧ Loop.evaluated_arms_list st' = Loop.evaluated_arms_list st
          ∧ Loop.best_params_list st' = Loop.best_params_list st
          ∧ new = [].
Proof.
  unfold loop_body, record_newly_completed, timed_out, inference_supported,
    productive, newly_completed, timeout_warning, best_point_call.
  cbn [fst snd]. prog_simpl.
  destruct (decide (0 < size (newly_completed_trials st step))%nat) as [Hn|Hn].
  - rewrite bool_decide_eq_true_2 by done.
    destruct (_get_cumulative_cost _ _ _) as [cost|?]; [|done].
    destruct (newly_evaluated_arms _ _) as [arms|?]; [|done].
    destruct (negb _).
    + destruct (get_best_parameters _ _ _ _) as [best|?]; [|done].
      destruct best as [|b [|??]]; simpl; [done| |done].
      destruct (BenchmarkMethod.timeout_hours method) as [T|];
        [destruct (Qcleb _ _)|]; intros [= <- <- <-]; simpl;
        (split_and!; [done..|]);
        exists [GetBestParameters (Step.experiment step)
                  (BenchmarkProblem.optimization_config problem)
                  (BenchmarkProblem.n_best_points problem)];
        (split; [by rewrite <-?app_assoc, ?app_nil_r|]);
        exists cost, arms; split_and!; try done; by exists b.
    + destruct (BenchmarkMethod.timeout_hours method) as [T|];
        [destruct (Qcleb _ _)|]; intros [= <- <- <-]; simpl;
        (split_and!; [done..|]); exists [];
        (split; [by rewrite <-?app_assoc, ?app_nil_r|]);
        exists cost, arms; by split_and!.
  - rewrite bool_decide_eq_false_2 by done.
    destruct (BenchmarkMethod.timeout_hours method) as [T|];
      [destruct (Qcleb _ _)|]; intros [= <- <- <-]; simpl;
      (split_and!; [done..|]); exists [];
      (split; [by rewrite <-?app_assoc, ?app_nil_r|]); by split_and!.
Qed.

End Iteration.

(** ** The loop *)

Section LoopRun.
Context `{Externals}.
Context (problem : BenchmarkProblem.t) (method : BenchmarkMethod.t).
Context (start : Qc).

Local Abbreviation loop_body := (loop_body problem method start).
Local Abbreviation run_loop := (run_loop problem method start).
Local Abbreviation iterations := (iterations problem method start).

Lemma run_loop_cons step steps st w :
  run_loop (step :: steps) st w
  = match loop_body st step w with
    | (Returned (st', true), w') => (Returned st', w')
    | (Returned (st', false), w') => run_loop steps st' w'
    | (Raised e, w') => (Raised e, w')
    end.
Proof.
  simpl. prog_simpl.
  by destruct (loop_body st step w) as [[[st' [|]]|e] w'].
Qed.

Lemma iterations_cons step steps st w :
  iterations (step :: steps) st w
  = (st, step) ::
      match loop_body st step w with
      | (Returned (st', false), w') => iterations steps st' w'
      | _ => []
      end.
Proof. done. Qed.

(** The entries one iteration appends, as lists of length at most one. *)
Lemma loop_body_appends st step w st' stop w' :
  loop_body st step w = (Returned (st', stop), w') →
  let productive_its := filter productive [(st, step)] in
  ∃ costs evaluated best new,
    Loop.cost_trace st' = Loop.cost_trace st ++ costs
    ∧ Loop.evaluated_arms_list st' = Loop.evaluated_arms_list st ++ evaluated
    ∧ Loop.best_params_list st' = Loop.best_params_list st ++ best
    ∧ World.calls w' = World.calls w ++ new
    ∧ Forall2 cost_of_iteration productive_its costs
    ∧ Forall2 arms_of_iteration productive_its evaluated
    ∧ if inference_supported problem
      then
        Forall2 (best_of_iteration problem method) productive_its best
        ∧ filter is_best_point_call new
          = best_point_call problem <$> productive_its
      else best = [] ∧ filter is_best_point_call new = [].
Proof.
  intros (-> & _ & _ & _ & _ & new & Hcalls & Hit)%loop_body_Returned.
  assert (filter is_best_point_call
            (if timed_out method start step then [timeout_warning] else [])
          = []) as Hwarning by (by destruct (timed_out _ _ _)).
  set (warning_calls :=
         if timed_out method start step then [timeout_warning] else [])
    in *.
  cbn [filter list_filter]. destruct (decide (productive (st, step))).
  - destruct Hit as (cost & arms & Hcost & Harms & _ & -> & -> & Hbest).
    exists [cost], [arms].
    destruct (inference_supported problem).
    + destruct Hbest as (b & Hb & -> & ->).
      exists [b], ([best_point_call problem (st, step)] ++ warning_calls).
      split_and!; try done; try (by repeat constructor).
      by rewrite filter_app, Hwarning.
    + destruct Hbest as (-> & ->). exists [], warning_calls.
      rewrite app_nil_r.
      split_and!; try done; by repeat constructor.
  - destruct Hit as (_ & -> & -> & -> & ->). exists [], [], [], warning_calls.
    rewrite !app_nil_r.
    destruct (inference_supported problem);
      split_and!; try done; by repeat constructor.
Qed.

(** What a run of the loop that returns has appended. *)
Lemma run_loop_Returned steps st w st' w' :
  run_loop steps st w = (Returned st', w') →
  let productive_its := filter productive (iterations steps st w) in
  ∃ costs evaluated best new,
    Loop.cost_trace st' = Loop.cost_trace st ++ costs
    ∧ Loop.evaluated_arms_list st' = Loop.evaluated_arms_list st ++ evaluated
    ∧ Loop.best_params_list st' = Loop.best_params_list st ++ best
    ∧ World.calls w' = World.calls w ++ new
    ∧ Forall2 cost_of_iteration productive_its costs
    ∧ Forall2 arms_of_iteration productive_its evaluated
    ∧ if inference_supported problem
      then
        Forall2 (best_of_iteration problem method) productive_its best
        ∧ filter is_best_point_call new
          = best_point_call problem <$> productive_its
      else best = [] ∧ filter is_best_point_call new = [].
Proof.
  revert st w. induction steps as [|step steps IH]; intros st w.
  - intros [= <- <-]. exists [], [], [], []. rewrite !app_nil_r.
    split_and!; [done..|constructor|constructor|].
    destruct (inference_supported problem); split; done || constructor.
  - rewrite run_loop_cons, iterations_cons.
    destruct (loop_body st step w) as [[[st1 stop]|e] w1] eqn:Hbody;
      [|done].
    destruct (loop_body_appends _ _ _ _ _ _ Hbody)
      as (costs1 & evaluated1 & best1 & new1
          & Hc1 & He1 & Hb1 & Hw1 & Hcosts1 & Hevaluated1 & Hbest1).
    destruct stop.
    + intros [= <- <-]. by exists costs1, evaluated1, best1, new1.
    + intros Hrun. destruct (IH _ _ Hrun)
        as (costs2 & evaluated2 & best2 & new2
            & Hc2 & He2 & Hb2 & Hw2 & Hcosts2 & Hevaluated2 & Hbest2).
      exists (costs1 ++ costs2), (evaluated1 ++ evaluated2),
        (best1 ++ best2), (new1 ++ new2).
      rewrite Hc2, He2, Hb2, Hw2, Hc1, He1, Hb1, Hw1, <-!app_assoc.
      change ((st, step) :: iterations steps st1 w1)
        with ([(st, step)] ++ iterations steps st1 w1).
      rewrite filter_app.
      split_and!; [done..|by apply Forall2_app|by apply Forall2_app|].
      destruct (inference_supported problem).
      * destruct Hbest1 as [? Hnew1], Hbest2 as [? Hnew2].
        split; [by apply Forall2_app|].
        by rewrite filter_app, fmap_app, Hnew1, Hnew2.
      * destruct Hbest1 as [-> Hnew1], Hbest2 as [-> Hnew2].
        split; [done|]. by rewrite filter_app, Hnew1, Hnew2.
Qed.

End LoopRun.

(** ** Newly completed trials *)

Lemma filter_none {A} (P : A → Prop) `{∀ x, Decision (P x)} (l : list A) :
  (∀ x, x ∈ l → ¬ P x) → filter P l = [].
Proof.
  induction l as [|x l IH]; intros HP; [done|].
  rewrite filter_cons, decide_False by (apply HP; left).
  apply IH. intros y Hy. apply HP. by right.
Qed.

(** A property that no two positions of a list share holds at one
    position at most. *)
Lemma filter_at_most_one {A} (P : A → Prop) `{∀ x, Decision (P x)}
    (l : list A) :
  (∀ i j x y, i < j → l !! i = Some x → l !! j = Some y → ¬ (P x ∧ P y)) →
  length (filter P l) ≤ 1.
Proof.
  induction l as [|x l IH]; intros Hl; [simpl; lia|].
  rewrite filter_cons. destruct (decide (P x)) as [Hx|Hx].
  - rewrite filter_none; [done|].
    intros y [j Hj]%list_elem_of_lookup Hy.
    by apply (Hl 0 (S j) x y); [lia|..].
  - apply IH. intros i j y z Hij Hi Hj.
    apply (Hl (S i) (S j)); [lia|done..].
Qed.

Lemma elem_of_currently_completed_trials experiment i :
  i ∈ currently_completed_trials experiment
  ↔ ∃ trial,
      Experiment.trials experiment !! i = Some trial
      ∧ is_completed_or_early_stopped (Trial.status trial) = true.
Proof.
  unfold currently_completed_trials. rewrite elem_of_dom. split.
  - intros [trial [? ?]%map_lookup_filter_Some]. by exists trial.
  - intros (trial & ? & ?). exists trial. by apply map_lookup_filter_Some.
Qed.

Lemma currently_completed_trials_dom experiment :
  currently_completed_trials experiment ⊆ dom (Experiment.trials experiment).
Proof.
  intros i (trial & ? & _)%elem_of_currently_completed_trials.
  by apply elem_of_dom.
Qed.

Lemma newly_completed_trials_subseteq st step :
  newly_completed_trials st step
  ⊆ currently_completed_trials (Step.experiment step).
Proof. unfold newly_completed_trials. by intros x [? _]%elem_of_difference. Qed.

Section NewlyCompleted.
Context `{Externals}.
Context (problem : BenchmarkProblem.t) (method : BenchmarkMethod.t).
Context (start : Qc).

Local Abbreviation loop_body := (loop_body problem method start).
Local Abbreviation iterations := (iterations problem method start).

Lemma iterations_first steps st w it :
  iterations steps st w !! 0 = Some it →
  it.1 = st ∧ steps !! 0 = Some it.2.
Proof. destruct steps; [done|]. by intros [= <-]. Qed.

Lemma iterations_step steps st w k it :
  iterations steps st w !! k = Some it → steps !! k = Some it.2.
Proof.
  revert st w k. induction steps as [|step steps IH]; intros st w k; [done|].
  rewrite iterations_cons. destruct k as [|k]; [by intros [= <-]|].
  cbn [lookup list_lookup].
  destruct (loop_body st step w) as [[[st1 [|]]|e] w1]; [done| |done].
  apply IH.
Qed.

(** On entry of an iteration other than the first, the indices seen
    before are the completed trials of the step before. *)
Lemma iterations_previous steps st w k it :
  iterations steps st w !! S k = Some it →
  ∃ step,
    steps !! k = Some step
    ∧ Loop.previously_completed_trial_idcs it.1
      = currently_completed_trials (Step.experiment step).
Proof.
  revert st w k. induction steps as [|step steps IH]; intros st w k; [done|].
  rewrite iterations_cons. cbn [lookup list_lookup].
  destruct (loop_body st step w) as [[[st1 [|]]|e] w1] eqn:Hbody;
    [done| |done].
  apply loop_body_Returned in Hbody as (_ & Hprev & _).
  destruct k as [|k].
  - intros [<- _]%iterations_first. by exists step.
  - intros (step' & ? & ?)%IH. by exists step'.
Qed.

Lemma newly_completed_disjoint steps st w i j it_i it_j :
  absorbing steps →
  i < j →
  iterations steps st w !! i = Some it_i →
  iterations steps st w !! j = Some it_j →
  newly_completed it_i ## newly_completed it_j.
Proof.
  intros Habs Hij Hi Hj. destruct j as [|j]; [lia|].
  destruct (iterations_previous _ _ _ _ _ Hj) as (step & Hstep & Hprev).
  apply iterations_step in Hi.
  assert (currently_completed_trials (Step.experiment it_i.2)
          ⊆ currently_completed_trials (Step.experiment step)) as Hsub.
  { apply (Habs i j); [lia|done..]. }
  unfold newly_completed, newly_completed_trials. rewrite Hprev.
  intros x [Hx _]%elem_of_difference [_ Hx']%elem_of_difference.
  by apply Hx', Hsub.
Qed.

End NewlyCompleted.

(** *** Cumulative cost without simulated backend *)

Lemma sum_from (a : Qc) (xs : list Qc) :
  foldl Qcplus a xs = (a + sum xs)%Qc.
Proof.
  unfold sum. revert a. induction xs as [|x xs IH]; intros a; simpl.
  - ring.
  - rewrite (IH (a + x)%Qc), (IH (0 + x)%Qc). ring.
Qed.

Lemma sum_cons (x : Qc) (xs : list Qc) : sum (x :: xs) = (x + sum xs)%Qc.
Proof. unfold sum at 1. simpl. rewrite sum_from. ring. Qed.

Section CumulativeCost.
Context `{Externals}.
Context (problem : BenchmarkProblem.t) (method : BenchmarkMethod.t).
Context (start : Qc).

Lemma loop_body_cost st step w st' stop w' :
  not_simulated step →
  loop_body problem method start st step w = (Returned (st', stop), w') →
  Loop.cost st' = (Loop.cost st + runtime_of_iteration (st, step))%Qc.
Proof.
  intros (runner & Hrunner & Hsim) Hbody.
  apply loop_body_Returned in Hbody as (_ & _ & _ & _ & _ & new & _ & Hit).
  unfold runtime_of_iteration. cbn [fst snd]. rewrite Hrunner.
  destruct (decide (productive (st, step))) as [Hproductive|Hproductive].
  - destruct Hit as (cost & arms & Hcost & _ & -> & _).
    rewrite (_get_cumulative_cost_computed _ _ _ runner) in Hcost;
      [by injection Hcost as <-|done..|].
    etrans; [apply newly_completed_trials_subseteq|].
    apply currently_completed_trials_dom.
  - destruct Hit as (-> & _).
    assert (newly_completed (st, step) = ∅) as ->.
    { apply leibniz_equiv, size_empty_iff.
      unfold productive in Hproductive. lia. }
    rewrite elements_empty. unfold sum. simpl. ring.
Qed.

Lemma run_loop_cost steps st w st' w' :
  Forall not_simulated steps →
  run_loop problem method start steps st w = (Returned st', w') →
  Loop.cost st'
  = (Loop.cost st
     + sum (runtime_of_iteration
            <$> iterations problem method start steps st w))%Qc.
Proof.
  revert st w. induction steps as [|step steps IH]; intros st w.
  - intros _ [= <- <-]. unfold sum. simpl. ring.
  - intros [Hstep Hsteps]%Forall_cons.
    rewrite run_loop_cons, iterations_cons, fmap_cons, sum_cons.
    destruct (loop_body problem method start st step w)
      as [[[st1 stop]|e] w1] eqn:Hbody; [|done].
    pose proof (loop_body_cost _ _ _ _ _ _ Hstep Hbody) as Hcost.
    destruct stop.
    + intros [= <- <-]. rewrite Hcost. unfold sum. simpl. ring.
    + intros Hrun. rewrite (IH _ _ Hsteps Hrun), Hcost. ring.
Qed.

End CumulativeCost.

(** C1. Provided the statuses COMPLETED and EARLY_STOPPED are absorbing
    along the steps of a replication, the sets of newly completed trial
    indices of the iterations of its loop are pairwise disjoint, so a
    trial index is newly completed in one iteration at most; the
    evaluated-arms list and the cost trace get one entry per iteration
    with newly completed trials, computed from the trials of that set
    alone, and without simulated backend the cumulative cost is the sum,
    over the iterations, of the runtimes of their newly completed
    trials. *)
Theorem newly_completed_trials_counted_once `{Externals}
    (problem : BenchmarkProblem.t) (method : BenchmarkMethod.t)
    (seed : nat) (scheduler_logging_level : Z) (clock : Clock.t)
    (w : World.t) :
  absorbing (replication_steps problem method seed scheduler_logging_level
               clock) →
  let its :=
    iterations problem method (Clock.monotonic clock)
      (replication_steps problem method seed scheduler_logging_level clock)
      (initial_loop_state problem method scheduler_logging_level clock) w in
  (∀ i j it_i it_j,
     i < j → its !! i = Some it_i → its !! j = Some it_j →
     newly_completed it_i ## newly_completed it_j)
  ∧ (∀ trial_index,
       length (filter (λ it, trial_index ∈ newly_completed it) its) ≤ 1)
  ∧ (∀ st' w',
       run_loop problem method (Clock.monotonic clock)
         (replication_steps problem method seed scheduler_logging_level
            clock)
         (initial_loop_state problem method scheduler_logging_level clock) w
       = (Returned st', w') →
       Forall2 arms_of_iteration (filter productive its)
         (Loop.evaluated_arms_list st')
       ∧ Forall2 cost_of_iteration (filter productive its)
           (Loop.cost_trace st')
       ∧ (Forall not_simulated
            (replication_steps problem method seed scheduler_logging_level
               clock) →
          Loop.cost st' = sum (runtime_of_iteration <$> its))).
Proof.
  intros Habs its.
  assert (∀ i j it_i it_j,
            i < j → its !! i = Some it_i → its !! j = Some it_j →
            newly_completed it_i ## newly_completed it_j) as Hdisjoint.
  { intros i j it_i it_j. by eapply newly_completed_disjoint. }
  split_and!.
  - done.
  - intros trial_index. apply filter_at_most_one.
    intros i j it_i it_j Hij Hi Hj [? ?].
    by apply (Hdisjoint i j it_i it_j Hij Hi Hj trial_index).
  - intros st' w' Hrun.
    destruct (run_loop_Returned _ _ _ _ _ _ _ _ Hrun)
      as (costs & evaluated & best & new
          & Hcosts & Hevaluated & _ & _ & ? & ? & _).
    simpl in Hcosts, Hevaluated. rewrite Hcosts, Hevaluated.
    split_and!; [done..|]. intros Hsteps.
    rewrite (run_loop_cost _ _ _ _ _ _ _ _ Hsteps Hrun). simpl.
    apply Qcplus_0_l.
Qed.


(** ** Finalization *)

Lemma mapM_Prog_Returned_length {A B} (f : A → Prog B) (l : list A) w k w' :
  mapM f l w = (Returned k, w') → length k = length l.
Proof.
  revert w k. induction l as [|a l IH]; intros w k; simpl.
  - by intros [= <- _].
  - prog_simpl. destruct (f a w) as [[b|?] w1]; [|done].
    destruct (mapM f l w1) as [[k'|?] w2] eqn:Hl; [|done].
    intros [= <- <-]. simpl. f_equal. by eapply IH.
Qed.

Lemma mapM_Prog_total {A B} (f : A → Prog B) (l : list A) w :
  (∀ a w, ∃ b w', f a w = (Returned b, w')) →
  ∃ k w', mapM f l w = (Returned k, w').
Proof.
  intros Hf. revert w. induction l as [|a l IH]; intros w; simpl.
  - by eexists _, _.
  - destruct (Hf a w) as (b & w1 & Hb). destruct (IH w1) as (k & w2 & Hk).
    exists (b :: k), w2.
    rewrite (Prog_bind_Returned _ _ _ _ _ Hb).
    by rewrite (Prog_bind_Returned _ _ _ _ _ Hk).
Qed.

Lemma length_oracle_requests evaluated_arms_list :
  length (oracle_requests evaluated_arms_list) = length evaluated_arms_list.
Proof. apply length_imap. Qed.

Lemma oracle_requests_keys evaluated_arms_list :
  (oracle_requests evaluated_arms_list).*1
  = seq 0 (length (oracle_requests evaluated_arms_list)).
Proof.
  rewrite length_oracle_requests. unfold oracle_requests.
  enough (∀ k, (imap (λ i arms, (k + i, dict_of_arms arms))
                  evaluated_arms_list).*1
               = seq k (length evaluated_arms_list)) as Hk by apply (Hk 0).
  induction evaluated_arms_list as [|arms l IH]; intros k; [done|].
  simpl. rewrite Nat.add_0_r. f_equal. rewrite <-(IH (S k)).
  f_equal. apply imap_ext. intros i x _. simpl. f_equal. lia.
Qed.

Lemma dict_set_not_nil {K V} `{EqDecision K} (k : K) (v : V) d :
  dict_set k v d ≠ [].
Proof. destruct d as [|[k' v'] d]; simpl; [done|]. by case_decide. Qed.

Lemma dict_of_arms_not_nil arms : arms ≠ [] → dict_of_arms arms ≠ [].
Proof.
  unfold dict_of_arms. destruct arms as [|arm arms _] using rev_ind; [done|].
  intros _. rewrite foldl_app. apply dict_set_not_nil.
Qed.

Lemma oracle_requests_not_nil evaluated_arms_list :
  Forall (λ arms, arms ≠ []) evaluated_arms_list →
  Forall (λ it, it.2 ≠ []) (oracle_requests evaluated_arms_list).
Proof.
  intros Harms. apply Forall_forall. intros [i d] Hid.
  apply list_elem_of_lookup in Hid as [j Hj].
  unfold oracle_requests in Hj. rewrite list_lookup_imap in Hj.
  destruct (evaluated_arms_list !! j) as [arms|] eqn:Harm; [|done].
  injection Hj as <- <-. apply dict_of_arms_not_nil.
  eapply Forall_lookup_1 in Harms; done.
Qed.

Section Finalization.
Context `{Externals}.
Implicit Types items : dict nat (dict string TParameterization).

Lemma get_oracle_experiment_from_params_Returned problem items w e w' :
  items.*1 = seq 0 (length items) →
  get_oracle_experiment_from_params problem items w = (Returned e, w') →
  Forall (λ it, it.2 ≠ []) items ∧ e = oracle_experiment problem items.
Proof.
  intros Hkeys Hrun.
  destruct (decide (Forall (λ it, it.2 ≠ []) items)) as [Hitems|Hitems].
  - rewrite get_oracle_experiment_from_params_ok in Hrun by done.
    by injection Hrun as <- _.
  - apply not_Forall_Exists in Hitems; [|intros it; apply _].
    apply Exists_first_split in Hitems
        as (pre & [i d] & post & -> & Hpre & Hd); [|intros it; apply _].
    destruct d; [|by destruct Hd].
    apply app_eq_seq in Hkeys as [Hkeys _].
    rewrite get_oracle_experiment_from_params_no_arms in Hrun; [done|done|].
    eapply Forall_impl; [exact Hpre|]. intros it Hit. simpl in Hit.
    destruct (decide (it.2 = [])) as [Heq|]; [|done].
    destruct Hit. by intros ?.
Qed.

Lemma _get_oracle_trace_from_arms_Returned
    problem evaluated_arms_list w trace w' :
  _get_oracle_trace_from_arms evaluated_arms_list problem w
  = (Returned trace, w') →
  trace = _get_trace
            (oracle_experiment problem (oracle_requests evaluated_arms_list))
            (BenchmarkProblem.optimization_config problem).
Proof.
  unfold _get_oracle_trace_from_arms.
  fold (oracle_requests evaluated_arms_list).
  intros (e & w1 & Hrun & Hret)%Prog_bind_inv.
  apply get_oracle_experiment_from_params_Returned in Hrun as [_ ->];
    [|apply oracle_requests_keys].
  by injection Hret as <- _.
Qed.

Lemma finalize_replication_Returned problem seed strip st w r w' :
  finalize_replication problem seed strip st w = (Returned r, w') →
  BenchmarkResult.cost_trace r = Loop.cost_trace st
  ∧ length (BenchmarkResult.inference_trace r)
    = length (Loop.best_params_list st)
  ∧ BenchmarkResult.oracle_trace r
    = _get_trace
        (oracle_experiment problem
           (oracle_requests (Loop.evaluated_arms_list st)))
        (BenchmarkProblem.optimization_config problem)
  ∧ BenchmarkResult.optimization_trace r
    = (if BenchmarkProblem.report_inference_value_as_trace problem
       then BenchmarkResult.inference_trace r
       else BenchmarkResult.oracle_trace r)
  ∧ BenchmarkResult.score_trace r
    = compute_score_trace (BenchmarkResult.optimization_trace r)
        (BenchmarkProblem.baseline_value problem)
        (BenchmarkProblem.optimal_value problem)
  ∧ BenchmarkResult.experiment r
    = (if strip
       then Experiment.set_runner (Loop.experiment st) None
       else Loop.experiment st).
Proof.
  unfold finalize_replication.
  intros (_ & w0 & _ & Hfinal)%Prog_bind_inv.
  apply Prog_bind_inv in Hfinal as (inference & w1 & Hinference & Hfinal).
  apply Prog_bind_inv in Hfinal as (oracle & w2 & Horacle & Hfinal).
  destruct (get_model_times _) as [fit_time gen_time].
  injection Hfinal as <- _. simpl. split_and!; [done| | |done..].
  - by eapply mapM_Prog_Returned_length.
  - by eapply _get_oracle_trace_from_arms_Returned.
Qed.

Lemma _get_oracle_value_of_params_total problem params w :
  one_value_per_trial →
  ∃ value w',
    _get_oracle_value_of_params params problem w = (Returned value, w').
Proof.
  intros Htrace. unfold _get_oracle_value_of_params.
  pose proof (get_oracle_experiment_from_params_ok problem
                [(0, [("0_0", params)])] w eq_refl) as Hrun.
  rewrite (Prog_bind_Returned _ _ _ _ _ (Hrun ltac:(by repeat constructor))).
  pose proof (Htrace (oracle_experiment problem [(0, [("0_0", params)])])
                (BenchmarkProblem.optimization_config problem)) as Hlength.
  rewrite size_oracle_experiment in Hlength by done.
  destruct (_get_trace _ _) as [|value [|??]]; [done| |done].
  by eexists _, _.
Qed.

(** Finalization returns when every recorded group of arms holds an arm
    and, if best parameters were recorded, their oracle value is well
    defined. *)
Lemma finalize_replication_total_if problem seed strip st w :
  (Loop.best_params_list st ≠ [] → one_value_per_trial) →
  Forall (λ arms, arms ≠ []) (Loop.evaluated_arms_list st) →
  ∃ r w', finalize_replication problem seed strip st w = (Returned r, w').
Proof.
  intros Htrace Harms. unfold finalize_replication.
  destruct (get_model_times (Loop.experiment st)) as [fit_time gen_time].
  assert (∃ inference w1,
            mapM (λ params, _get_oracle_value_of_params params problem)
              (Loop.best_params_list st)
              (record_call SummarizeFinalResult w).2
            = (Returned inference, w1)) as (inference & w1 & Hinference).
  { destruct (Loop.best_params_list st) as [|params best] eqn:Hbest.
    - by eexists _, _.
    - rewrite <-Hbest. apply mapM_Prog_total. intros params' w0.
      by apply _get_oracle_value_of_params_total, Htrace. }
  pose proof (get_oracle_experiment_from_params_ok problem
                (oracle_requests (Loop.evaluated_arms_list st)) w1
                (oracle_requests_keys _)
                (oracle_requests_not_nil _ Harms)) as Hrun.
  eexists _, _.
  rewrite (Prog_bind_Returned (record_call SummarizeFinalResult) _ w ()
             _ eq_refl).
  rewrite (Prog_bind_Returned _ _ _ _ _ Hinference).
  unfold _get_oracle_trace_from_arms.
  fold (oracle_requests (Loop.evaluated_arms_list st)).
  rewrite (Prog_bind_Returned _ _ _ _ _
             (Prog_bind_Returned _ _ _ _ _ Hrun)).
  reflexivity.
Qed.

Lemma finalize_replication_total problem seed strip st w :
  one_value_per_trial →
  Forall (λ arms, arms ≠ []) (Loop.evaluated_arms_list st) →
  ∃ r w', finalize_replication problem seed strip st w = (Returned r, w').
Proof. intros Htrace. by apply finalize_replication_total_if. Qed.

Lemma benchmark_replication_Returned
    problem method seed strip lvl clock w r w' :
  benchmark_replication problem method seed strip lvl clock w
  = (Returned r, w') →
  ∃ st w1,
    run_loop problem method (Clock.monotonic clock)
      (replication_steps problem method seed lvl clock)
      (initial_loop_state problem method lvl clock) (polled w)
    = (Returned st, w1)
    ∧ finalize_replication problem seed strip st w1 = (Returned r, w').
Proof.
  unfold benchmark_replication, polled.
  intros (u & w0 & Hpoll & Hrun)%Prog_bind_inv.
  apply Prog_bind_inv in Hrun as (st & w1 & Hrun & Hfinal).
  apply (f_equal snd) in Hpoll. simpl in Hpoll. subst w0.
  by exists st, w1.
Qed.

End Finalization.

(** ** Traces of a replication *)

Lemma inference_supported_false problem :
  inference_supported problem = false
  ↔ BenchmarkProblem.is_moo problem = true
    ∨ BenchmarkProblem.target_fidelity_and_task problem ≠ ∅.
Proof.
  unfold inference_supported, is_mf_or_mt.
  rewrite negb_false_iff, orb_true_iff, bool_decide_eq_true.
  rewrite <-Nat.neq_0_lt_0. by rewrite map_size_non_empty_iff.
Qed.

Section Traces.
Context `{Externals}.
Context (problem : BenchmarkProblem.t) (method : BenchmarkMethod.t).
Context (seed : nat) (strip_runner_before_saving : bool).
Context (scheduler_logging_level : Z) (clock : Clock.t).

Local Abbreviation replication :=
  (benchmark_replication problem method seed strip_runner_before_saving
     scheduler_logging_level clock).
Local Abbreviation its :=
  (replication_iterations problem method seed scheduler_logging_level clock).

(** What a replication that returns has recorded. *)
Lemma benchmark_replication_traces w r w' :
  replication w = (Returned r, w') →
  ∃ st w1 evaluated_arms_list,
    run_loop problem method (Clock.monotonic clock)
      (replication_steps problem method seed scheduler_logging_level clock)
      (initial_loop_state problem method scheduler_logging_level clock)
      (polled w)
    = (Returned st, w1)
    ∧ Loop.evaluated_arms_list st = evaluated_arms_list
    ∧ Forall2 arms_of_iteration (filter productive (its w))
        evaluated_arms_list
    ∧ Forall2 cost_of_iteration (filter productive (its w))
        (BenchmarkResult.cost_trace r)
    ∧ BenchmarkResult.oracle_trace r
      = _get_trace
          (oracle_experiment problem (oracle_requests evaluated_arms_list))
          (BenchmarkProblem.optimization_config problem)
    ∧ length (BenchmarkResult.inference_trace r)
      = (if inference_supported problem
         then length (filter productive (its w))
         else 0).
Proof.
  intros (st & w1 & Hrun & Hfinal)%benchmark_replication_Returned.
  apply finalize_replication_Returned in Hfinal
    as (Hcost & Hinf & Horacle & _).
  destruct (run_loop_Returned _ _ _ _ _ _ _ _ Hrun)
    as (costs & evaluated & best & new
        & Hcosts & Hevaluated & Hbest & _ & ? & ? & Hsupported).
  simpl in Hcosts, Hevaluated, Hbest. rewrite Hevaluated in Horacle.
  exists st, w1, evaluated. rewrite Hcost, Hcosts, Hinf, Hbest.
  unfold replication_iterations.
  split_and!; [done..|].
  destruct (inference_supported problem).
  - destruct Hsupported as [Hb _]. symmetry. by eapply Forall2_length.
  - by destruct Hsupported as [-> _].
Qed.

End Traces.

(** C4. In the result of a replication, the cost trace has one entry per
    iteration with newly completed trials, which is also the number of
    trial groups the oracle trace is computed from; so the cost trace is
    as long as the oracle trace when the best-point extractor yields one
    value per trial, and when the inference trace is supported it is as
    long as these. *)
Theorem trace_lengths_agree `{Externals}
    (problem : BenchmarkProblem.t) (method : BenchmarkMethod.t)
    (seed : nat) (strip_runner_before_saving : bool)
    (scheduler_logging_level : Z) (clock : Clock.t) (w : World.t)
    (r : BenchmarkResult.t) (w' : World.t) :
  benchmark_replication problem method seed strip_runner_before_saving
    scheduler_logging_level clock w
  = (Returned r, w') →
  let productive_iterations :=
    filter productive
      (replication_iterations problem method seed scheduler_logging_level
         clock w) in
  let one_value_per_trial :=
    ∀ experiment optimization_config,
      length (_get_trace experiment optimization_config)
      = size (Experiment.trials experiment) in
  length (BenchmarkResult.cost_trace r) = length productive_iterations
  ∧ (∃ evaluated_arms_list,
       Forall2 arms_of_iteration productive_iterations evaluated_arms_list
       ∧ BenchmarkResult.oracle_trace r
         = _get_trace
             (oracle_experiment problem
                (oracle_requests evaluated_arms_list))
             (BenchmarkProblem.optimization_config problem)
       ∧ size (Experiment.trials
                 (oracle_experiment problem
                    (oracle_requests evaluated_arms_list)))
         = length productive_iterations)
  ∧ (one_value_per_trial →
     length (BenchmarkResult.cost_trace r)
     = length (BenchmarkResult.oracle_trace r))
  ∧ (inference_supported problem = true →
     length (BenchmarkResult.inference_trace r)
     = length productive_iterations
     ∧ (one_value_per_trial →
        length (BenchmarkResult.inference_trace r)
        = length (BenchmarkResult.oracle_trace r))).
Proof.
  intros Hrun productive_iterations one_value_per_trial.
  apply benchmark_replication_traces in Hrun
    as (st & w1 & evaluated & _ & _ & Hevaluated & Hcosts & Horacle & Hinf).
  fold productive_iterations in Hevaluated, Hcosts, Hinf.
  assert (size (Experiment.trials
                  (oracle_experiment problem (oracle_requests evaluated)))
          = length productive_iterations) as Hsize.
  { rewrite size_oracle_experiment by apply oracle_requests_keys.
    rewrite length_oracle_requests. symmetry. by eapply Forall2_length. }
  assert (length (BenchmarkResult.cost_trace r)
          = length productive_iterations) as Hcost.
  { symmetry. by eapply Forall2_length. }
  split_and!.
  - done.
  - by exists evaluated.
  - intros Htrace. by rewrite Hcost, Horacle, Htrace.
  - intros Hsupported. rewrite Hsupported in Hinf. split; [done|].
    intros Htrace. by rewrite Hinf, Horacle, Htrace.
Qed.

(** ** Replications that return *)

Lemma elem_of_concat {A} (x : A) (ls : list (list A)) :
  x ∈ concat ls ↔ ∃ l, x ∈ l ∧ l ∈ ls.
Proof.
  rewrite list_elem_of_In, in_concat. split.
  - intros (l & ? & ?). exists l. by rewrite !list_elem_of_In.
  - intros (l & ? & ?). exists l. by rewrite <-!list_elem_of_In.
Qed.

Section Totality.
Context `{Externals}.
Context (problem : BenchmarkProblem.t) (method : BenchmarkMethod.t).
Context (start : Qc).

Local Abbreviation loop_body := (loop_body problem method start).
Local Abbreviation run_loop := (run_loop problem method start).
Local Abbreviation iterations := (iterations problem method start).

Lemma _get_cumulative_cost_total previous_cost new_trials experiment :
  is_Some (Experiment.runner experiment) →
  new_trials ⊆ dom (Experiment.trials experiment) →
  ∃ cost,
    _get_cumulative_cost previous_cost new_trials experiment = Returned cost.
Proof.
  intros [runner Hrunner] Hdom.
  destruct (BenchmarkRunner.simulated_backend_runner runner) eqn:Hsim.
  - eexists. by eapply _get_cumulative_cost_simulated.
  - eexists. by eapply _get_cumulative_cost_computed.
Qed.

Lemma newly_evaluated_arms_total experiment new_trials :
  new_trials ⊆ dom (Experiment.trials experiment) →
  newly_evaluated_arms experiment new_trials
  = Returned
      (remove_dups
         (concat ((λ i, from_option Trial.arms []
                          (Experiment.trials experiment !! i))
                  <$> elements new_trials))).
Proof.
  intros Hdom. unfold newly_evaluated_arms.
  rewrite (mapM_Returned _
             (λ i, from_option Trial.arms []
                     (Experiment.trials experiment !! i))); [done|].
  intros i Hi%elem_of_elements%Hdom%elem_of_dom. destruct Hi as [trial Hi].
  unfold lookup_trial. by rewrite Hi.
Qed.

(** The arms recorded for a set of trials of the experiment are the arms
    of these trials, each once. *)
Lemma newly_evaluated_arms_Returned experiment new_trials arms :
  new_trials ⊆ dom (Experiment.trials experiment) →
  newly_evaluated_arms experiment new_trials = Returned arms →
  NoDup arms
  ∧ ∀ arm,
      arm ∈ arms
      ↔ ∃ i trial,
          i ∈ new_trials
          ∧ Experiment.trials experiment !! i = Some trial
          ∧ arm ∈ Trial.arms trial.
Proof.
  intros Hdom. rewrite newly_evaluated_arms_total by done. intros [= <-].
  split; [apply NoDup_remove_dups|].
  intros arm. rewrite elem_of_remove_dups, elem_of_concat. split.
  - intros (l & Harm & Hl).
    apply list_elem_of_fmap in Hl as (i & -> & Hi%elem_of_elements).
    destruct (Experiment.trials experiment !! i) as [trial|] eqn:Htrial;
      [|by apply not_elem_of_nil in Harm].
    by exists i, trial.
  - intros (i & trial & Hi & Htrial & Harm).
    exists (Trial.arms trial). split; [done|].
    apply list_elem_of_fmap. exists i.
    rewrite Htrial. split; [done|]. by apply elem_of_elements.
Qed.

Lemma arms_of_iteration_newly_completed iteration arms :
  arms_of_iteration iteration arms → arms_of_newly_completed iteration arms.
Proof.
  apply newly_evaluated_arms_Returned.
  etrans; [apply newly_completed_trials_subseteq|].
  apply currently_completed_trials_dom.
Qed.

Lemma newly_evaluated_arms_not_nil experiment new_trials arms :
  new_trials ≠ ∅ →
  new_trials ⊆ dom (Experiment.trials experiment) →
  (∀ i trial,
     i ∈ new_trials →
     Experiment.trials experiment !! i = Some trial →
     Trial.arms trial ≠ []) →
  newly_evaluated_arms experiment new_trials = Returned arms →
  arms ≠ [].
Proof.
  intros Hne Hdom Harms Hret.
  apply newly_evaluated_arms_Returned in Hret as [_ Hin]; [|done].
  apply set_choose_L in Hne as [i Hi].
  pose proof (Hdom _ Hi) as [trial Htrial]%elem_of_dom.
  specialize (Harms _ _ Hi Htrial).
  destruct (Trial.arms trial) as [|arm arms'] eqn:Harm; [done|].
  intros ->. apply (not_elem_of_nil arm), Hin.
  exists i, trial. rewrite Harm. split_and!; [done..|left].
Qed.

(** An iteration at a step at which the contracts are honoured returns,
    and records a group of arms that is not empty if it records one. *)
Lemma loop_body_total st step w :
  contracts_honoured_after problem method
    (Loop.previously_completed_trial_idcs st) step →
  Forall (λ arms, arms ≠ []) (Loop.evaluated_arms_list st) →
  ∃ st' w',
    loop_body st step w = (Returned (st', timed_out method start step), w')
    ∧ Forall (λ arms, arms ≠ []) (Loop.evaluated_arms_list st').
Proof.
  intros Hcontracts Hevaluated.
  unfold contracts_honoured_after in Hcontracts. cbv zeta in Hcontracts.
  fold (newly_completed_trials st step) in Hcontracts.
  assert (newly_completed_trials st step
          ⊆ dom (Experiment.trials (Step.experiment step))) as Hdom.
  { etrans; [apply newly_completed_trials_subseteq|].
    apply currently_completed_trials_dom. }
  assert (∃ st' w',
            loop_body st step w
            = (Returned (st', timed_out method start step), w'))
    as (st' & w' & Hbody).
  { unfold loop_body, record_newly_completed, timed_out. prog_simpl.
    fold (inference_supported problem).
    case_bool_decide as Hsize.
    - destruct Hcontracts as (Hrunner & _ & Hbest).
      { intros Hnil. rewrite Hnil, size_empty in Hsize. lia. }
      destruct (_get_cumulative_cost_total (Loop.cost st) _ _ Hrunner Hdom)
        as [cost ->].
      rewrite (newly_evaluated_arms_total _ _ Hdom).
      destruct (inference_supported problem).
      + destruct (Hbest eq_refl) as [b ->]. simpl.
        destruct (BenchmarkMethod.timeout_hours method);
          [destruct (Qcleb _ _)|]; by eexists _, _.
      + destruct (BenchmarkMethod.timeout_hours method);
          [destruct (Qcleb _ _)|]; by eexists _, _.
    - destruct (BenchmarkMethod.timeout_hours method);
        [destruct (Qcleb _ _)|]; by eexists _, _. }
  exists st', w'. split; [done|].
  apply loop_body_Returned in Hbody as (_ & _ & _ & _ & _ & new & _ & Hit).
  destruct (decide (productive (st, step))) as [Hproductive|].
  - destruct Hit as (cost & arms & _ & Harms & _ & _ & -> & _).
    apply Forall_app. split; [done|]. apply Forall_singleton.
    assert (newly_completed (st, step) ≠ ∅) as Hne.
    { intros Hnil. unfold productive in Hproductive.
      rewrite Hnil, size_empty in Hproductive. lia. }
    destruct (Hcontracts Hne) as (_ & Harm & _).
    by eapply newly_evaluated_arms_not_nil.
  - by destruct Hit as (_ & _ & -> & _).
Qed.

(** The steps consumed are among the steps yielded, in their order. *)
Lemma iterations_steps_prefix steps st w :
  (iterations steps st w).*2 `prefix_of` steps.
Proof.
  revert st w. induction steps as [|step steps IH]; intros st w; [done|].
  rewrite iterations_cons, fmap_cons. simpl. apply prefix_cons.
  destruct (loop_body st step w) as [[[st' [|]]|e] w'];
    [apply prefix_nil|apply IH|apply prefix_nil].
Qed.

Lemma contracts_honoured_along_prefix previous steps steps' :
  steps' `prefix_of` steps →
  contracts_honoured_along problem method previous steps →
  contracts_honoured_along problem method previous steps'.
Proof.
  intros [rest ->]. revert previous.
  induction steps' as [|step steps' IH]; intros previous; [done|].
  simpl. intros [Hstep Hsteps]. split; [done|]. by apply IH.
Qed.

(** The loop returns when the contracts are honoured along the steps it
    consumes, and every group of arms it has recorded holds an arm. *)
Lemma run_loop_total_consumed steps st w :
  contracts_honoured_along problem method
    (Loop.previously_completed_trial_idcs st) (iterations steps st w).*2 →
  Forall (λ arms, arms ≠ []) (Loop.evaluated_arms_list st) →
  ∃ st' w',
    run_loop steps st w = (Returned st', w')
    ∧ Forall (λ arms, arms ≠ []) (Loop.evaluated_arms_list st').
Proof.
  revert st w. induction steps as [|step steps IH]; intros st w.
  - intros _ Hevaluated. by exists st, w.
  - rewrite iterations_cons, fmap_cons, run_loop_cons.
    cbn [snd contracts_honoured_along]. intros [Hstep Hsteps] Hevaluated.
    destruct (loop_body_total st step w Hstep Hevaluated)
      as (st1 & w1 & Hbody & Hevaluated1).
    rewrite Hbody in Hsteps |- *.
    destruct (timed_out method start step); [by exists st1, w1|].
    apply IH; [|done].
    apply loop_body_Returned in Hbody as (_ & -> & _). done.
Qed.

Lemma run_loop_total steps st w :
  contracts_honoured_along problem method
    (Loop.previously_completed_trial_idcs st) steps →
  Forall (λ arms, arms ≠ []) (Loop.evaluated_arms_list st) →
  ∃ st' w',
    run_loop steps st w = (Returned st', w')
    ∧ Forall (λ arms, arms ≠ []) (Loop.evaluated_arms_list st').
Proof.
  intros Hsteps. apply run_loop_total_consumed.
  eapply contracts_honoured_along_prefix; [|exact Hsteps].
  apply iterations_steps_prefix.
Qed.

(** Once the budget is used up, the steps that follow are not consumed. *)
Lemma run_loop_timeout_prefix pre step post st w :
  Forall (λ s, timed_out method start s = false) pre →
  timed_out method start step = true →
  run_loop (pre ++ step :: post) st w = run_loop (pre ++ [step]) st w.
Proof.
  intros Hpre Hstep. revert st w.
  induction Hpre as [|s pre Hs Hpre IH]; intros st w; simpl app.
  - rewrite !run_loop_cons.
    destruct (loop_body st step w) as [[[st1 stop]|e] w1] eqn:Hbody; [|done].
    apply loop_body_Returned in Hbody as (-> & _). by rewrite Hstep.
  - rewrite !run_loop_cons.
    destruct (loop_body st s w) as [[[st1 stop]|e] w1] eqn:Hbody; [|done].
    apply loop_body_Returned in Hbody as (-> & _). rewrite Hs. apply IH.
Qed.

Lemma run_loop_timeout pre step st w st' w' :
  Forall (λ s, timed_out method start s = false) pre →
  timed_out method start step = true →
  run_loop (pre ++ [step]) st w = (Returned st', w') →
  last (World.calls w') = Some timeout_warning
  ∧ Loop.experiment st' = Step.experiment step
  ∧ Loop.remaining_hours st'
    = match BenchmarkMethod.timeout_hours method with
      | Some timeout_hours => Some (remaining_after timeout_hours start step)
      | None => Loop.remaining_hours st
      end.
Proof.
  intros Hpre Hstep. revert st w.
  induction Hpre as [|s pre Hs Hpre IH]; intros st w; simpl app.
  - rewrite run_loop_cons.
    destruct (loop_body st step w) as [[[st1 stop]|e] w1] eqn:Hbody; [|done].
    apply loop_body_Returned in Hbody
      as (-> & _ & ? & ? & _ & new & Hcalls & _).
    rewrite Hstep in *. intros [= <- <-]. split_and!; [|done..].
    by rewrite Hcalls, !app_assoc, last_snoc.
  - rewrite run_loop_cons.
    destruct (loop_body st s w) as [[[st1 stop]|e] w1] eqn:Hbody; [|done].
    apply loop_body_Returned in Hbody as (-> & _ & _ & Hremaining & _).
    rewrite Hs. intros Hrun. destruct (IH _ _ Hrun) as (? & ? & Hrem).
    split_and!; [done..|]. rewrite Hrem.
    by destruct (BenchmarkMethod.timeout_hours method).
Qed.

End Totality.

Section ReplicationReturns.
Context `{Externals}.
Context (problem : BenchmarkProblem.t) (method : BenchmarkMethod.t).
Context (seed : nat) (strip_runner_before_saving : bool).
Context (scheduler_logging_level : Z) (clock : Clock.t).

(** A replication returns when the contracts are honoured along the
    steps its loop consumes and, if best parameters are recorded, their
    oracle value is well defined. *)
Lemma benchmark_replication_total w :
  contracts_honoured_along problem method ∅
    (replication_iterations problem method seed scheduler_logging_level
       clock w).*2 →
  (inference_supported problem = true → one_value_per_trial) →
  ∃ r w',
    benchmark_replication problem method seed strip_runner_before_saving
      scheduler_logging_level clock w
    = (Returned r, w').
Proof.
  intros Hcontracts Htrace.
  destruct (run_loop_total_consumed problem method (Clock.monotonic clock)
              (replication_steps problem method seed scheduler_logging_level
                 clock)
              (initial_loop_state problem method scheduler_logging_level
                 clock)
              (polled w) Hcontracts)
    as (st & w1 & Hrun & Harms); [constructor|].
  assert (Loop.best_params_list st ≠ [] → one_value_per_trial) as Htrace'.
  { intros Hbest. apply Htrace.
    destruct (inference_supported problem) eqn:Hsupported; [done|].
    destruct (run_loop_Returned _ _ _ _ _ _ _ _ Hrun)
      as (costs & evaluated & best & new & _ & _ & Hb & _ & _ & _ & Hbests).
    rewrite Hsupported in Hbests. destruct Hbests as [-> _].
    by destruct Hbest. }
  destruct (finalize_replication_total_if problem seed
              strip_runner_before_saving st w1 Htrace' Harms)
    as (r & w' & Hfinal).
  exists r, w'. unfold benchmark_replication.
  rewrite (Prog_bind_Returned (record_call PollAndProcessResults) _ w ()
             _ eq_refl).
  by rewrite (Prog_bind_Returned _ _ _ _ _ Hrun).
Qed.

End ReplicationReturns.

(** ** Timeout *)

(** C2. With a timeout, every iteration recomputes the remaining budget
    as the timeout minus the time elapsed since the loop started; at the
    first step after which it is zero or negative the loop logs a warning
    and ends without consuming the steps that follow, nothing is raised,
    and the replication returns a result built from the traces recorded
    so far, which are empty when no trial was completed by then. The
    collaborators are to honour their contracts at the consumed steps that
    show newly completed trials; nothing is asked of them at a step
    without newly completed trials. *)
Theorem timeout_ends_loop_with_partial_result `{Externals}
    (problem : BenchmarkProblem.t) (method : BenchmarkMethod.t)
    (seed : nat) (strip_runner_before_saving : bool)
    (scheduler_logging_level : Z) (clock : Clock.t) (w : World.t)
    (timeout_hours : Qc) (pre : list Step.t) (step : Step.t)
    (post : list Step.t) :
  let start := Clock.monotonic clock in
  let remaining (s : Step.t) : Qc :=
    (timeout_hours - (Step.monotonic s - start) / Qc_of_Z 3600)%Qc in
  let initial :=
    initial_loop_state problem method scheduler_logging_level clock in
  BenchmarkMethod.timeout_hours method = Some timeout_hours →
  replication_steps problem method seed scheduler_logging_level clock
  = pre ++ step :: post →
  Forall (λ s, (0 < remaining s)%Qc) pre →
  (remaining step ≤ 0)%Qc →
  contracts_honoured_along problem method ∅ (pre ++ [step]) →
  one_value_per_trial →
  (∀ st0 s w0 st1 stop w1,
     loop_body problem method start st0 s w0 = (Returned (st1, stop), w1) →
     Loop.remaining_hours st1 = Some (remaining s)
     ∧ stop = Qcleb (remaining s) 0)
  ∧ ∃ st w1 r w',
      run_loop problem method start (pre ++ [step]) initial (polled w)
      = (Returned st, w1)
      ∧ run_loop problem method start (pre ++ step :: post) initial
          (polled w)
        = (Returned st, w1)
      ∧ Loop.remaining_hours st = Some (remaining step)
      ∧ last (World.calls w1)
        = Some (LoggerWarning "ax.benchmark.benchmark"
                  "The optimization loop timed out.")
      ∧ benchmark_replication problem method seed
          strip_runner_before_saving scheduler_logging_level clock w
        = (Returned r, w')
      ∧ LoggerWarning "ax.benchmark.benchmark"
          "The optimization loop timed out."
        ∈ World.calls w'
      ∧ BenchmarkResult.cost_trace r = Loop.cost_trace st
      ∧ length (BenchmarkResult.oracle_trace r)
        = length (Loop.evaluated_arms_list st)
      ∧ length (BenchmarkResult.inference_trace r)
        = length (Loop.best_params_list st)
      ∧ BenchmarkResult.optimization_trace r
        = (if BenchmarkProblem.report_inference_value_as_trace problem
           then BenchmarkResult.inference_trace r
           else BenchmarkResult.oracle_trace r)
      ∧ BenchmarkResult.score_trace r
        = compute_score_trace (BenchmarkResult.optimization_trace r)
            (BenchmarkProblem.baseline_value problem)
            (BenchmarkProblem.optimal_value problem)
      ∧ BenchmarkResult.experiment r
        = (if strip_runner_before_saving
           then Experiment.set_runner (Step.experiment step) None
           else Step.experiment step)
      ∧ (Forall (λ s, currently_completed_trials (Step.experiment s) = ∅)
           (pre ++ [step]) →
         BenchmarkResult.cost_trace r = []
         ∧ BenchmarkResult.inference_trace r = []
         ∧ BenchmarkResult.oracle_trace r = []
         ∧ BenchmarkResult.optimization_trace r = []
         ∧ BenchmarkResult.score_trace r = []).
Proof.
  intros start remaining initial Htimeout Hsteps Hpre Hstep Hcontracts Htrace.
  split.
  { intros st0 s w0 st1 stop w1 Hbody.
    apply loop_body_Returned in Hbody as (-> & _ & _ & -> & _).
    unfold timed_out. by rewrite Htimeout. }
  assert (Forall (λ s, timed_out method start s = false) pre) as Hpre'.
  { eapply Forall_impl; [exact Hpre|]. intros s Hs.
    unfold timed_out. rewrite Htimeout. by apply Qcleb_gt. }
  assert (timed_out method start step = true) as Hstep'.
  { unfold timed_out. rewrite Htimeout. by apply Qcleb_le. }
  destruct (run_loop_total problem method start (pre ++ [step]) initial
              (polled w) Hcontracts) as (st & w1 & Hrun & Harms);
    [constructor|].
  destruct (run_loop_timeout _ _ _ _ _ _ _ _ _ Hpre' Hstep' Hrun)
    as (Hlast & Hexperiment & Hremaining).
  rewrite Htimeout in Hremaining.
  destruct (finalize_replication_total problem seed
              strip_runner_before_saving st w1 Htrace Harms)
    as (r & w' & Hfinal).
  destruct (finalize_replication_calls problem seed
              strip_runner_before_saving st w1) as (new & Hnew & _).
  rewrite Hfinal in Hnew. simpl in Hnew.
  pose proof (finalize_replication_Returned _ _ _ _ _ _ _ Hfinal)
    as (Hcost & Hinference & Horacle & Hoptimization & Hscore & Hexp).
  assert (run_loop problem method start (pre ++ step :: post) initial
            (polled w) = (Returned st, w1)) as Hrun'.
  { by rewrite run_loop_timeout_prefix. }
  assert (length (BenchmarkResult.oracle_trace r)
          = length (Loop.evaluated_arms_list st)) as Horacle'.
  { rewrite Horacle, Htrace.
    rewrite size_oracle_experiment by apply oracle_requests_keys.
    apply length_oracle_requests. }
  exists st, w1, r, w'. split_and!; try done.
  - unfold benchmark_replication.
    rewrite (Prog_bind_Returned (record_call PollAndProcessResults) _ w ()
               _ eq_refl).
    rewrite Hsteps. by rewrite (Prog_bind_Returned _ _ _ _ _ Hrun').
  - rewrite Hnew. apply elem_of_app. left.
    apply last_Some in Hlast as [calls ->]. set_solver.
  - by rewrite Hexp, Hexperiment.
  - intros Hnone.
    destruct (run_loop_Returned _ _ _ _ _ _ _ _ Hrun)
      as (costs & evaluated & best & new'
          & Hc & He & Hb & _ & Hcosts & Hevaluated & Hbests).
    assert (filter productive
              (iterations problem method start (pre ++ [step]) initial
                 (polled w)) = []) as Hproductive.
    { apply filter_none. intros it Hit.
      assert (it.2 ∈ pre ++ [step]) as Hin.
      { apply list_elem_of_lookup in Hit as [k Hk].
        apply iterations_step in Hk. by apply list_elem_of_lookup_2 in Hk. }
      eapply Forall_forall in Hnone; [|exact Hin].
      unfold productive, newly_completed, newly_completed_trials.
      rewrite Hnone, difference_disjoint_L, size_empty by set_solver. lia. }
    rewrite Hproductive in Hcosts, Hevaluated, Hbests.
    apply Forall2_nil_inv_l in Hcosts as ->.
    apply Forall2_nil_inv_l in Hevaluated as ->.
    assert (best = []) as ->.
    { destruct (inference_supported problem).
      - destruct Hbests as [Hbest _]. by apply Forall2_nil_inv_l in Hbest.
      - by destruct Hbests. }
    simpl in Hc, He, Hb. rewrite Hb in Hinference. rewrite He in Horacle'.
    assert (BenchmarkResult.inference_trace r = []) as Hinf
      by (by apply nil_length_inv).
    assert (BenchmarkResult.oracle_trace r = []) as Hora
      by (by apply nil_length_inv).
    assert (BenchmarkResult.optimization_trace r = []) as Hopt.
    { rewrite Hoptimization, Hinf, Hora.
      by destruct (BenchmarkProblem.report_inference_value_as_trace _). }
    split_and!; [by rewrite Hcost, Hc|done|done|done|].
    by rewrite Hscore, Hopt.
Qed.

(** ** Inference trace *)

(** C3. In a replication of a multi-objective problem, or of a problem
    with target fidelity or task parameters, the method is never asked for
    its best parameters, whatever the outcome; a result that is returned
    has an empty inference trace and an oracle trace computed from one
    oracle trial per iteration with newly completed trials, holding the
    arms of the trials newly completed in that iteration; and a result is
    returned when the collaborators honour their contracts along the steps
    consumed. For a single-objective problem without such parameters,
    every iteration with newly completed trials asks the method for the
    current best parameterization and appends it; under the contracts the
    replication returns, the method has been asked once per such iteration
    and the inference trace has one entry per such iteration. *)
Theorem inference_trace_only_when_supported `{Externals}
    (problem : BenchmarkProblem.t) (method : BenchmarkMethod.t)
    (seed : nat) (strip_runner_before_saving : bool)
    (scheduler_logging_level : Z) (clock : Clock.t) (w : World.t) :
  let result :=
    benchmark_replication problem method seed strip_runner_before_saving
      scheduler_logging_level clock w in
  let its :=
    replication_iterations problem method seed scheduler_logging_level clock
      w in
  let unsupported :=
    BenchmarkProblem.is_moo problem = true
    ∨ BenchmarkProblem.target_fidelity_and_task problem ≠ ∅ in
  (unsupported →
     (∃ new,
        World.calls result.2 = World.calls w ++ new
        ∧ Forall (λ c, ¬ is_best_point_call c) new)
     ∧ (∀ r,
          result.1 = Returned r →
          BenchmarkResult.inference_trace r = []
          ∧ ∃ evaluated_arms_list,
              Forall2 arms_of_newly_completed (filter productive its)
                evaluated_arms_list
              ∧ BenchmarkResult.oracle_trace r
                = _get_trace
                    (oracle_experiment problem
                       (oracle_requests evaluated_arms_list))
                    (BenchmarkProblem.optimization_config problem)
              ∧ size (Experiment.trials
                        (oracle_experiment problem
                           (oracle_requests evaluated_arms_list)))
                = length (filter productive its))
     ∧ (contracts_honoured_along problem method ∅ its.*2 →
        ∃ r, result.1 = Returned r))
  ∧ (¬ unsupported →
     (∀ st step w0 st' stop w1,
        productive (st, step) →
        loop_body problem method (Clock.monotonic clock) st step w0
        = (Returned (st', stop), w1) →
        ∃ best_params,
          get_best_parameters method (Step.experiment step)
            (BenchmarkProblem.optimization_config problem)
            (BenchmarkProblem.n_best_points problem)
          = Returned [best_params]
          ∧ Loop.best_params_list st'
            = Loop.best_params_list st ++ [best_params]
          ∧ best_point_call problem (st, step) ∈ World.calls w1)
     ∧ (∀ st w1,
          run_loop problem method (Clock.monotonic clock)
            (replication_steps problem method seed scheduler_logging_level
               clock)
            (initial_loop_state problem method scheduler_logging_level clock)
            (polled w)
          = (Returned st, w1) →
          Forall2 (best_of_iteration problem method) (filter productive its)
            (Loop.best_params_list st)
          ∧ filter is_best_point_call (World.calls w1)
            = filter is_best_point_call (World.calls w)
              ++ (best_point_call problem <$> filter productive its))
     ∧ (contracts_honoured_along problem method ∅ its.*2 →
        one_value_per_trial →
        ∃ r,
          result.1 = Returned r
          ∧ filter is_best_point_call (World.calls result.2)
            = filter is_best_point_call (World.calls w)
              ++ (best_point_call problem <$> filter productive its)
          ∧ length (BenchmarkResult.inference_trace r)
            = length (filter productive its))).
Proof.
  intros result its unsupported.
  assert (∀ r, result.1 = Returned r →
            benchmark_replication problem method seed
              strip_runner_before_saving scheduler_logging_level clock w
            = (Returned r, result.2)) as Hresult.
  { intros r Hr. unfold result in *.
    by destruct (benchmark_replication _ _ _ _ _ _ _); simpl in *; subst. }
  split.
  - intros Hinf%inference_supported_false. split; [|split].
    + by apply benchmark_replication_calls.
    + intros r Hrun%Hresult.
      apply benchmark_replication_traces in Hrun
        as (st & w1 & evaluated & _ & _ & Harms & _ & ? & Hlength).
      rewrite Hinf in Hlength. split; [by apply nil_length_inv|].
      exists evaluated. split; [|split; [done|]].
      * eapply Forall2_impl; [exact Harms|].
        apply arms_of_iteration_newly_completed.
      * rewrite size_oracle_experiment by apply oracle_requests_keys.
        rewrite length_oracle_requests. symmetry. by eapply Forall2_length.
    + intros Hcontracts.
      destruct (benchmark_replication_total problem method seed
                  strip_runner_before_saving scheduler_logging_level clock w
                  Hcontracts) as (r & w' & Hrun).
      { by rewrite Hinf. }
      exists r. unfold result. by rewrite Hrun.
  - intros Hinf.
    assert (inference_supported problem = true) as Hsupported.
    { destruct (inference_supported problem) eqn:Hs; [done|].
      by apply inference_supported_false in Hs. }
    assert (∀ st w1,
              run_loop problem method (Clock.monotonic clock)
                (replication_steps problem method seed
                   scheduler_logging_level clock)
                (initial_loop_state problem method scheduler_logging_level
                   clock)
                (polled w)
              = (Returned st, w1) →
              Forall2 (best_of_iteration problem method)
                (filter productive its) (Loop.best_params_list st)
              ∧ filter is_best_point_call (World.calls w1)
                = filter is_best_point_call (World.calls w)
                  ++ (best_point_call problem <$> filter productive its))
      as Hreturned.
    { intros st w1 Hrun.
      destruct (run_loop_Returned _ _ _ _ _ _ _ _ Hrun)
        as (costs & evaluated & best & new
            & _ & _ & Hbest & Hcalls & _ & _ & Hbests).
      rewrite Hsupported in Hbests. destruct Hbests as [? Hnew].
      simpl in Hbest. rewrite Hbest, Hcalls, filter_app, Hnew.
      split; [done|]. f_equal.
      unfold polled. simpl. rewrite filter_app. simpl.
      by rewrite app_nil_r. }
    split; [|split; [exact Hreturned|]].
    + intros st step w0 st' stop w1 Hproductive Hbody.
      apply loop_body_Returned in Hbody
        as (_ & _ & _ & _ & _ & new & Hcalls & Hit).
      rewrite decide_True in Hit by done.
      destruct Hit as (cost & arms & _ & _ & _ & _ & _ & Hbest).
      rewrite Hsupported in Hbest. destruct Hbest as (b & ? & ? & ->).
      exists b. split_and!; [done..|]. rewrite Hcalls.
      apply elem_of_app. right. apply elem_of_app. left.
      by apply list_elem_of_singleton.
    + intros Hcontracts Htrace.
      destruct (benchmark_replication_total problem method seed
                  strip_runner_before_saving scheduler_logging_level clock w
                  Hcontracts) as (r & w' & Hrun); [done|].
      exists r. unfold result. rewrite Hrun. simpl. split; [done|].
      apply benchmark_replication_Returned in Hrun
        as (st & w1 & Hrun & Hfinal).
      destruct (Hreturned _ _ Hrun) as [Hbest Hcalls].
      destruct (finalize_replication_calls problem seed
                  strip_runner_before_saving st w1) as (new & Hnew & Hnone).
      rewrite Hfinal in Hnew. simpl in Hnew.
      apply finalize_replication_Returned in Hfinal as (_ & -> & _).
      split; [|symmetry; by eapply Forall2_length].
      rewrite Hnew, filter_app, Hcalls.
      rewrite (filter_none is_best_point_call new), app_nil_r; [done|].
      intros c Hc. by eapply Forall_forall in Hnone.
Qed.

(** * The statements on a concrete replication *)

Lemma Example_steps :
  @replication_steps Example.externals Example.problem Example.method 0 20
    Example.clock
  = [Example.step_of Example.scheduler 0] ++
    Example.step_of Example.scheduler 1 :: [Example.step_of Example.scheduler 2].
Proof. reflexivity. Qed.

Lemma Example_one_value_per_trial : @one_value_per_trial Example.externals.
Proof.
  intros experiment optimization_config. simpl. unfold Example.trace.
  by rewrite length_fmap, length_seq.
Qed.

Lemma Example_completed_trials_arms n i trial :
  Example.completed_trials n !! i = Some trial → Trial.arms trial ≠ [].
Proof.
  unfold Example.completed_trials.
  intros Hi%elem_of_list_to_map_2.
  apply list_elem_of_fmap in Hi as (j & [= -> ->] & _). done.
Qed.

Lemma Example_contracts_honoured problem method scheduler previous k :
  is_Some (Experiment.runner (Scheduler.experiment scheduler)) →
  BenchmarkProblem.n_best_points problem = 1 →
  @contracts_honoured_after Example.externals problem method previous
    (Example.step_of scheduler k).
Proof.
  intros Hrunner Hn _. split_and!.
  - done.
  - intros i trial _ Htrial.
    change (Example.completed_trials (S k) !! i = Some trial) in Htrial.
    by eapply Example_completed_trials_arms.
  - intros _. eexists. simpl. by rewrite Hn.
Qed.

Lemma Example_contracts_honoured_along problem method scheduler previous n :
  is_Some (Experiment.runner (Scheduler.experiment scheduler)) →
  BenchmarkProblem.n_best_points problem = 1 →
  @contracts_honoured_along Example.externals problem method previous
    (Example.step_of scheduler <$> seq 0 n).
Proof.
  intros Hrunner Hn. generalize 0. revert previous.
  induction n as [|n IH]; intros previous k; [done|].
  split; [by apply Example_contracts_honoured|apply IH].
Qed.

(** The collaborators [Example.stalled_externals]: nothing is asked of
    them at the single step, which shows no completed trial. *)
Lemma stalled_one_value_per_trial :
  @one_value_per_trial Example.stalled_externals.
Proof.
  intros experiment optimization_config. simpl. unfold Example.trace.
  by rewrite length_fmap, length_seq.
Qed.

Lemma stalled_contracts_honoured problem method scheduler :
  Experiment.trials (Scheduler.experiment scheduler) = ∅ →
  @contracts_honoured_along Example.stalled_externals problem method ∅
    [Example.stalled_step scheduler].
Proof.
  intros Htrials. split; [|done]. intros Hnewly. destruct Hnewly.
  unfold currently_completed_trials. simpl. rewrite Htrials.
  by rewrite map_filter_empty, dom_empty_L, difference_diag_L.
Qed.

Lemma _get_cumulative_cost_spec_witness :
  ∃ runner,
    Experiment.runner Example.experiment = Some runner
    ∧ BenchmarkRunner.simulated_backend_runner runner = None
    ∧ Example.new_trials ⊆ dom (Experiment.trials Example.experiment)
    ∧ @_get_cumulative_cost Example.externals 0%Qc Example.new_trials Example.experiment
      = Returned
          (0 + sum ((λ i,
                       from_option
                         (λ trial,
                            @get_total_runtime Example.externals trial
                              (BenchmarkRunner.step_runtime_function runner)
                              (BenchmarkTestFunction.n_steps
                                 (BenchmarkRunner.test_function runner)))
                         0%Qc (Experiment.trials Example.experiment !! i))
                    <$> elements Example.new_trials))%Qc.
Proof.
  eexists. split; [reflexivity|]. split; [reflexivity|].
  assert (Example.new_trials ⊆ dom (Experiment.trials Example.experiment))
    as Hdom by (by vm_compute).
  split; [exact Hdom|].
  exact (@_get_cumulative_cost_spec Example.externals 0%Qc {[0; 1]}
           Example.experiment _ eq_refl Hdom).
Defined.

Lemma get_oracle_experiment_from_params_spec_witness :
  Example.request.*1 = seq 0 (length Example.request)
  ∧ ∃ experiment,
      (@get_oracle_experiment_from_params Example.externals Example.problem
         Example.request Example.world).1
      = Returned experiment
      ∧ size (Experiment.trials experiment) = 1.
Proof.
  split; [reflexivity|].
  destruct (proj1 (proj2 (@get_oracle_experiment_from_params_spec
                            Example.externals Example.problem Example.request
                            Example.world eq_refl)))
    as (experiment & Hreturned & _ & _ & Hsize & _).
  - by repeat constructor.
  - by exists experiment.
Defined.

Lemma Example_absorbing :
  absorbing
    (@replication_steps Example.externals Example.problem Example.method 0 20
       Example.clock).
Proof.
  rewrite Example_steps. intros i j step_i step_j Hij Hi Hj.
  destruct i as [|[|[|i]]]; [| | |done];
    (destruct j as [|[|[|j]]]; [| | |done]); try lia;
    injection Hi as <-; injection Hj as <-;
    apply (bool_decide_unpack _); by vm_compute.
Qed.

Lemma newly_completed_trials_counted_once_witness :
  absorbing
    (@replication_steps Example.externals Example.problem Example.method 0 20
       Example.clock)
  ∧ length
      (filter (λ it, 0 ∈ newly_completed it)
         (@iterations Example.externals Example.problem Example.method
            (Clock.monotonic Example.clock)
            (@replication_steps Example.externals Example.problem
               Example.method 0 20 Example.clock)
            (initial_loop_state Example.problem Example.method 20
               Example.clock)
            Example.world))
    ≤ 1.
Proof.
  split; [exact Example_absorbing|].
  exact (proj1 (proj2 (@newly_completed_trials_counted_once
                         Example.externals Example.problem Example.method
                         0 20 Example.clock Example.world Example_absorbing))
           0).
Defined.

Lemma timeout_ends_loop_with_partial_result_witness :
  (∃ r w',
     @benchmark_replication Example.externals Example.problem Example.method
       0 true 20 Example.clock Example.world
     = (Returned r, w')
     ∧ LoggerWarning "ax.benchmark.benchmark"
         "The optimization loop timed out."
       ∈ World.calls w'
     ∧ length (BenchmarkResult.cost_trace r) = 2)
  ∧ ∃ r w',
      @benchmark_replication Example.stalled_externals Example.problem
        Example.method 0 true 20 Example.clock Example.world
      = (Returned r, w')
      ∧ @get_best_parameters Example.stalled_externals Example.method
          (Step.experiment (Example.stalled_step Example.scheduler))
          (BenchmarkProblem.optimization_config Example.problem) 1
        = Raised (ValueError "no data to recommend from")
      ∧ LoggerWarning "ax.benchmark.benchmark"
          "The optimization loop timed out."
        ∈ World.calls w'
      ∧ BenchmarkResult.cost_trace r = []
      ∧ BenchmarkResult.inference_trace r = []
      ∧ BenchmarkResult.oracle_trace r = []
      ∧ BenchmarkResult.score_trace r = [].
Proof.
  split.
  - destruct (@timeout_ends_loop_with_partial_result Example.externals
                Example.problem Example.method 0 true 20 Example.clock
                Example.world (Qc_of_Z 2)
                [Example.step_of Example.scheduler 0]
                (Example.step_of Example.scheduler 1)
                [Example.step_of Example.scheduler 2])
      as (_ & st & w1 & r & w' & Hloop & _ & _ & _ & Hrun & Hwarning & Hcost
          & _).
    + reflexivity.
    + exact Example_steps.
    + apply Forall_cons. split; [by vm_compute|by constructor].
    + by vm_compute.
    + apply (Example_contracts_honoured_along Example.problem Example.method
               Example.scheduler ∅ 2); [by eexists|reflexivity].
    + exact Example_one_value_per_trial.
    + exists r, w'. split_and!; [done..|].
      rewrite Hcost. vm_compute in Hloop. injection Hloop as <- _.
      reflexivity.
  - destruct (@timeout_ends_loop_with_partial_result
                Example.stalled_externals Example.problem Example.method 0
                true 20 Example.clock Example.world (Qc_of_Z 2) []
                (Example.stalled_step Example.scheduler) [])
      as (_ & st & w1 & r & w' & _ & _ & _ & _ & Hrun & Hwarning & _ & _ & _
          & _ & _ & _ & Hempty).
    + reflexivity.
    + reflexivity.
    + constructor.
    + by vm_compute.
    + by apply stalled_contracts_honoured.
    + exact stalled_one_value_per_trial.
    + destruct Hempty as (Hcost & Hinference & Horacle & _ & Hscore).
      { apply Forall_singleton. unfold currently_completed_trials. simpl.
        by rewrite map_filter_empty, dom_empty_L. }
      exists r, w'. by split_and!.
Defined.

Lemma inference_trace_only_when_supported_witness :
  BenchmarkProblem.target_fidelity_and_task Example.multi_fidelity_problem ≠ ∅
  ∧ (∃ new,
       World.calls
         (@benchmark_replication Example.externals
            Example.multi_fidelity_problem Example.method 0 true 20
            Example.clock Example.world).2
       = World.calls Example.world ++ new
       ∧ Forall (λ c, ¬ is_best_point_call c) new)
  ∧ (∃ r,
       (@benchmark_replication Example.externals
          Example.multi_fidelity_problem Example.method 0 true 20
          Example.clock Example.world).1
       = Returned r
       ∧ BenchmarkResult.inference_trace r = []
       ∧ BenchmarkResult.oracle_trace r = [0; 1]%float)
  ∧ ∃ r,
      (@benchmark_replication Example.externals Example.problem
         Example.method 0 true 20 Example.clock Example.world).1
      = Returned r
      ∧ length (BenchmarkResult.inference_trace r) = 2
      ∧ BenchmarkResult.inference_trace r = [0; 0]%float.
Proof.
  assert (BenchmarkProblem.target_fidelity_and_task
            Example.multi_fidelity_problem ≠ ∅) as Htarget.
  { apply insert_non_empty. }
  split; [exact Htarget|].
  destruct (proj1 (@inference_trace_only_when_supported Example.externals
                     Example.multi_fidelity_problem Example.method 0 true
                     20 Example.clock Example.world)
              (or_intror Htarget))
    as (Hcalls & Hreturned & Htotal).
  split; [exact Hcalls|]. split.
  - destruct Htotal as [r Hr].
    { eapply contracts_honoured_along_prefix;
        [apply iterations_steps_prefix|].
      apply (Example_contracts_honoured_along
               Example.multi_fidelity_problem Example.method _ ∅ 3);
        [by eexists|reflexivity]. }
    destruct (Hreturned r Hr) as (Hinference & _).
    exists r. split; [exact Hr|]. split; [exact Hinference|].
    clear -Hr. vm_compute in Hr. injection Hr as <-. reflexivity.
  - destruct (proj2 (@inference_trace_only_when_supported Example.externals
                       Example.problem Example.method 0 true 20
                       Example.clock Example.world))
      as (_ & _ & Htotal').
    { intros [Hmoo|Hmf]; [discriminate Hmoo|by destruct Hmf]. }
    destruct Htotal' as (r & Hr & _ & Hlength).
    { eapply contracts_honoured_along_prefix;
        [apply iterations_steps_prefix|].
      apply (Example_contracts_honoured_along Example.problem Example.method
               _ ∅ 3); [by eexists|reflexivity]. }
    { exact Example_one_value_per_trial. }
    exists r. split; [exact Hr|].
    clear -Hr. vm_compute in Hr. injection Hr as <-. split; reflexivity.
Defined.

Lemma trace_lengths_agree_witness :
  ∃ r w',
    @benchmark_replication Example.externals Example.problem Example.method
      0 true 20 Example.clock Example.world
    = (Returned r, w')
    ∧ length (BenchmarkResult.cost_trace r)
      = length (BenchmarkResult.oracle_trace r)
    ∧ length (BenchmarkResult.inference_trace r)
      = length (BenchmarkResult.oracle_trace r).
Proof.
  destruct (@benchmark_replication Example.externals Example.problem
              Example.method 0 true 20 Example.clock Example.world)
    as [[r|e] w'] eqn:Hrun.
  - exists r, w'. split; [reflexivity|].
    destruct (@trace_lengths_agree Example.externals Example.problem
                Example.method 0 true 20 Example.clock Example.world r w'
                Hrun)
      as (_ & _ & Hcost & Hinference).
    split; [exact (Hcost Example_one_value_per_trial)|].
    exact (proj2 (Hinference eq_refl) Example_one_value_per_trial).
  - vm_compute in Hrun. discriminate Hrun.
Defined.

(** * Further properties of the benchmark code *)

(** ** Completed trials and trace entries *)

Lemma absorbing_tail step steps : absorbing (step :: steps) → absorbing steps.
Proof.
  intros Habs i j step_i step_j Hij Hi Hj.
  apply (Habs (S i) (S j)); [lia|done..].
Qed.

Lemma absorbing_head step steps step' :
  absorbing (step :: steps) → step' ∈ steps →
  currently_completed_trials (Step.experiment step)
  ⊆ currently_completed_trials (Step.experiment step').
Proof.
  intros Habs [k Hk]%list_elem_of_lookup.
  apply (Habs 0 (S k)); [lia|done..].
Qed.

Section Counted.
Context `{Externals}.
Context (problem : BenchmarkProblem.t) (method : BenchmarkMethod.t).
Context (start : Qc).

Local Abbreviation loop_body := (loop_body problem method start).
Local Abbreviation run_loop := (run_loop problem method start).
Local Abbreviation iterations := (iterations problem method start).

Lemma iterations_elem_of steps st w it :
  it ∈ iterations steps st w → it.2 ∈ steps.
Proof.
  intros [k Hk]%list_elem_of_lookup. apply iterations_step in Hk.
  by eapply list_elem_of_lookup_2.
Qed.

(** The iterations after the first, and the state they start from. *)
Lemma iterations_tail step steps st w :
  iterations (step :: steps) st w = [(st, step)]
  ∨ ∃ st1 w1,
      iterations (step :: steps) st w
      = (st, step) :: iterations steps st1 w1
      ∧ Loop.previously_completed_trial_idcs st1
        = currently_completed_trials (Step.experiment step)
      ∧ loop_body st step w = (Returned (st1, false), w1).
Proof.
  rewrite iterations_cons.
  destruct (loop_body st step w) as [[[st1 [|]]|e] w1] eqn:Hbody;
    [by left| |by left].
  right. exists st1, w1.
  by apply loop_body_Returned in Hbody as Hst1; destruct Hst1 as (_ & ? & _).
Qed.

Lemma all_newly_completed_iterations steps st w it_last :
  absorbing steps →
  (∀ step, step ∈ steps →
     Loop.previously_completed_trial_idcs st
     ⊆ currently_completed_trials (Step.experiment step)) →
  last (iterations steps st w) = Some it_last →
  all_newly_completed (iterations steps st w)
  = currently_completed_trials (Step.experiment it_last.2)
    ∖ Loop.previously_completed_trial_idcs st.
Proof.
  revert st w. induction steps as [|step steps IH]; intros st w; [done|].
  intros Habs Hprev.
  assert (all_newly_completed [(st, step)]
          = currently_completed_trials (Step.experiment step)
            ∖ Loop.previously_completed_trial_idcs st) as Hone.
  { unfold all_newly_completed. simpl. apply union_empty_r_L. }
  destruct (iterations_tail step steps st w)
    as [->|(st1 & w1 & -> & Hst1 & _)].
  { by intros [= <-]. }
  destruct (iterations steps st1 w1) as [|it its] eqn:Hits.
  { by intros [= <-]. }
  rewrite last_cons_cons. intros Hlast.
  assert (it_last.2 ∈ steps) as Hin.
  { apply (iterations_elem_of steps st1 w1). rewrite Hits.
    by apply last_Some_elem_of. }
  pose proof (absorbing_head _ _ _ Habs Hin) as Hsub.
  pose proof (Hprev step ltac:(left)) as Hsub'.
  unfold all_newly_completed in *. rewrite fmap_cons, union_list_cons.
  rewrite <-Hits in Hlast |- *.
  rewrite (IH st1 w1); [|by eapply absorbing_tail| |done].
  - change (newly_completed (st, step))
      with (currently_completed_trials (Step.experiment step)
              ∖ Loop.previously_completed_trial_idcs st).
    rewrite Hst1. apply set_eq. intros x.
    rewrite elem_of_union, !elem_of_difference.
    split.
    + intros [[Hx Hnew]|[Hx Hnew]]; (split; [by auto|]); [done|].
      intros Hold. apply Hnew. by apply Hsub'.
    + intros [Hx Hnew].
      destruct (decide
                  (x ∈ currently_completed_trials (Step.experiment step)));
        [left|right]; done.
  - intros step' Hstep'. rewrite Hst1. by eapply absorbing_head.
Qed.

Lemma productive_count_le steps st w it_last :
  absorbing steps →
  (∀ step, step ∈ steps →
     Loop.previously_completed_trial_idcs st
     ⊆ currently_completed_trials (Step.experiment step)) →
  last (iterations steps st w) = Some it_last →
  length (filter productive (iterations steps st w))
  + size (Loop.previously_completed_trial_idcs st)
  ≤ size (currently_completed_trials (Step.experiment it_last.2)).
Proof.
  revert st w. induction steps as [|step steps IH]; intros st w; [done|].
  intros Habs Hprev.
  pose proof (Hprev step ltac:(left)) as Hsub.
  assert (length (filter productive [(st, step)])
          + size (Loop.previously_completed_trial_idcs st)
          ≤ size (currently_completed_trials (Step.experiment step)))
    as Hone.
  { pose proof (size_difference _ _ Hsub) as Hsize.
    pose proof (subseteq_size _ _ Hsub).
    rewrite filter_cons, filter_nil.
    destruct (decide (productive (st, step))) as [Hp|Hp]; simpl; [|lia].
    unfold productive, newly_completed, newly_completed_trials in Hp.
    cbn [fst snd] in Hp. lia. }
  destruct (iterations_tail step steps st w)
    as [->|(st1 & w1 & -> & Hst1 & _)].
  { by intros [= <-]. }
  destruct (iterations steps st1 w1) as [|it its] eqn:Hits.
  { by intros [= <-]. }
  rewrite last_cons_cons. rewrite <-Hits. intros Hlast.
  change ((st, step) :: iterations steps st1 w1)
    with ([(st, step)] ++ iterations steps st1 w1).
  rewrite filter_app, length_app.
  specialize (IH st1 w1 (absorbing_tail _ _ Habs)). rewrite Hst1 in IH.
  specialize (IH (λ step' Hstep', absorbing_head _ _ _ Habs Hstep') Hlast).
  lia.
Qed.

(** The experiment a loop that returns ends with. *)
Lemma run_loop_experiment steps st w st' w' :
  run_loop steps st w = (Returned st', w') →
  Loop.experiment st' = experiment_after st (iterations steps st w).
Proof.
  unfold experiment_after.
  revert st w. induction steps as [|step steps IH]; intros st w.
  - by intros [= <- _].
  - rewrite run_loop_cons, iterations_cons.
    destruct (loop_body st step w) as [[[st1 stop]|e] w1] eqn:Hbody; [|done].
    apply loop_body_Returned in Hbody as (_ & _ & Hexp & _).
    destruct stop; [by intros [= <- _]|].
    intros Hrun. rewrite (IH _ _ Hrun).
    destruct (iterations steps st1 w1) as [|it its] eqn:Hits; [done|].
    rewrite last_cons_cons.
    destruct (last (it :: its)) eqn:Hlast; [done|].
    by apply last_None in Hlast.
Qed.

End Counted.

Lemma iterations_length_le `{Externals} problem method start steps st w :
  length (iterations problem method start steps st w) ≤ length steps.
Proof.
  revert st w. induction steps as [|step steps IH]; intros st w; [done|].
  rewrite iterations_cons. simpl.
  destruct (loop_body _ _ _ _ _ _) as [[[st1 [|]]|e] w1]; simpl; try lia.
  specialize (IH st1 w1). lia.
Qed.

(** X1. Provided the statuses COMPLETED and EARLY_STOPPED are absorbing
    along the steps of a replication, the trials found newly completed
    over the iterations of its loop are exactly the trials that are
    completed or stopped early at the last step consumed, and each of them
    is newly completed in exactly one iteration. *)
Theorem completed_trials_counted_exactly_once `{Externals}
    (problem : BenchmarkProblem.t) (method : BenchmarkMethod.t)
    (seed : nat) (scheduler_logging_level : Z) (clock : Clock.t)
    (w : World.t) (it_last : Loop.t * Step.t) :
  let its :=
    iterations problem method (Clock.monotonic clock)
      (replication_steps problem method seed scheduler_logging_level clock)
      (initial_loop_state problem method scheduler_logging_level clock) w in
  absorbing (replication_steps problem method seed scheduler_logging_level
               clock) →
  last its = Some it_last →
  all_newly_completed its
  = currently_completed_trials (Step.experiment it_last.2)
  ∧ ∀ trial_index,
      trial_index ∈ currently_completed_trials (Step.experiment it_last.2) →
      length (filter (λ it, trial_index ∈ newly_completed it) its) = 1.
Proof.
  intros its Habs Hlast.
  assert (all_newly_completed its
          = currently_completed_trials (Step.experiment it_last.2)) as Hall.
  { unfold its. erewrite all_newly_completed_iterations; [|done| |done].
    - apply difference_empty_L.
    - intros step _. apply empty_subseteq. }
  split; [done|]. intros trial_index Hin.
  assert (length (filter (λ it, trial_index ∈ newly_completed it) its) ≤ 1)
    as Hle.
  { apply filter_at_most_one. intros i j it_i it_j Hij Hi Hj [Hin_i Hin_j].
    assert (newly_completed it_i ## newly_completed it_j) as Hdisjoint.
    { eapply newly_completed_disjoint; [exact Habs|exact Hij|exact Hi|].
      exact Hj. }
    by apply (proj1 (elem_of_disjoint _ _) Hdisjoint trial_index). }
  rewrite <-Hall in Hin. unfold all_newly_completed in Hin.
  apply elem_of_union_list in Hin as (X & HX & Hin).
  apply list_elem_of_fmap in HX as (it & -> & Hit).
  assert (it ∈ filter (λ it, trial_index ∈ newly_completed it) its) as Hfilter.
  { by apply list_elem_of_filter. }
  destruct (filter _ its) as [|? [|??]]; simpl in *; [|done|lia].
  by apply not_elem_of_nil in Hfilter.
Qed.

(** X2. Provided the statuses COMPLETED and EARLY_STOPPED are absorbing
    along the steps of a replication, the cost trace of the result it
    returns has no more entries than the returned experiment has trials
    that are completed or stopped early, and no more than the scheduler
    yielded steps. *)
Theorem cost_trace_length_bounded `{Externals}
    (problem : BenchmarkProblem.t) (method : BenchmarkMethod.t)
    (seed : nat) (strip_runner_before_saving : bool)
    (scheduler_logging_level : Z) (clock : Clock.t) (w : World.t)
    (r : BenchmarkResult.t) (w' : World.t) :
  absorbing (replication_steps problem method seed scheduler_logging_level
               clock) →
  benchmark_replication problem method seed strip_runner_before_saving
    scheduler_logging_level clock w
  = (Returned r, w') →
  length (BenchmarkResult.cost_trace r)
  ≤ size (currently_completed_trials (BenchmarkResult.experiment r))
  ∧ length (BenchmarkResult.cost_trace r)
    ≤ length (replication_steps problem method seed scheduler_logging_level
                clock).
Proof.
  intros Habs (st & w1 & Hrun & Hfinal)%benchmark_replication_Returned.
  apply finalize_replication_Returned in Hfinal
    as (-> & _ & _ & _ & _ & Hexp).
  destruct (run_loop_Returned _ _ _ _ _ _ _ _ Hrun)
    as (costs & evaluated & best & new & Hcosts & _ & _ & _ & Hforall & _).
  simpl in Hcosts. rewrite Hcosts. apply Forall2_length in Hforall.
  rewrite <-Hforall.
  set (its := iterations problem method (Clock.monotonic clock) _ _ _) in *.
  split.
  - assert (currently_completed_trials (BenchmarkResult.experiment r)
            = currently_completed_trials (Loop.experiment st)) as ->.
    { rewrite Hexp. by destruct strip_runner_before_saving. }
    rewrite (run_loop_experiment _ _ _ _ _ _ _ _ Hrun).
    fold its. unfold experiment_after.
    destruct (last its) as [it_last|] eqn:Hlast; simpl.
    + pose proof (productive_count_le problem method _ _ _ _ it_last Habs
                    (λ step _, empty_subseteq _) Hlast) as Hle.
      fold its in Hle. simpl in Hle. lia.
    + apply last_None in Hlast. rewrite Hlast. simpl. lia.
  - etrans; [apply length_filter|]. apply iterations_length_le.
Qed.

Lemma completed_trials_counted_exactly_once_witness :
  ∃ it_last,
    last
      (@iterations Example.externals Example.problem Example.method
         (Clock.monotonic Example.clock)
         (@replication_steps Example.externals Example.problem
            Example.method 0 20 Example.clock)
         (initial_loop_state Example.problem Example.method 20
            Example.clock)
         Example.world)
    = Some it_last
    ∧ all_newly_completed
        (@iterations Example.externals Example.problem Example.method
           (Clock.monotonic Example.clock)
           (@replication_steps Example.externals Example.problem
              Example.method 0 20 Example.clock)
           (initial_loop_state Example.problem Example.method 20
              Example.clock)
           Example.world)
      = currently_completed_trials (Step.experiment it_last.2).
Proof.
  destruct (last
              (@iterations Example.externals Example.problem Example.method
                 (Clock.monotonic Example.clock)
                 (@replication_steps Example.externals Example.problem
                    Example.method 0 20 Example.clock)
                 (initial_loop_state Example.problem Example.method 20
                    Example.clock)
                 Example.world))
    as [it_last|] eqn:Hlast.
  - exists it_last. split; [reflexivity|].
    exact (proj1 (@completed_trials_counted_exactly_once Example.externals
                    Example.problem Example.method 0 20 Example.clock
                    Example.world it_last Example_absorbing Hlast)).
  - vm_compute in Hlast. discriminate Hlast.
Defined.

Lemma cost_trace_length_bounded_witness :
  ∃ r w',
    @benchmark_replication Example.externals Example.problem Example.method
      0 true 20 Example.clock Example.world
    = (Returned r, w')
    ∧ length (BenchmarkResult.cost_trace r)
      ≤ size (currently_completed_trials (BenchmarkResult.experiment r)).
Proof.
  destruct (@benchmark_replication Example.externals Example.problem
              Example.method 0 true 20 Example.clock Example.world)
    as [[r|e] w'] eqn:Hrun.
  - exists r, w'. split; [reflexivity|].
    exact (proj1 (@cost_trace_length_bounded Example.externals
                    Example.problem Example.method 0 true 20 Example.clock
                    Example.world r w' Example_absorbing Hrun)).
  - vm_compute in Hrun. discriminate Hrun.
Defined.

(** ** The loop without timeout *)

Section LoopFrame.
Context `{Externals}.
Context (problem : BenchmarkProblem.t) (method : BenchmarkMethod.t).
Context (start : Qc).

Lemma loop_body_keeps_log_levels st step :
  keeps_log_levels (loop_body problem method start st step).
Proof.
  intros w. unfold loop_body, record_newly_completed. prog_simpl.
  repeat case_match; simplify_eq; done.
Qed.

Lemma run_loop_keeps_log_levels steps st :
  keeps_log_levels (run_loop problem method start steps st).
Proof.
  revert st. induction steps as [|step steps IH]; intros st w; [done|].
  rewrite run_loop_cons.
  pose proof (loop_body_keeps_log_levels st step w) as Hbody.
  destruct (loop_body problem method start st step w)
    as [[[st1 [|]]|e] w1]; simpl in *; [done| |done].
  by rewrite IH.
Qed.

End LoopFrame.

Section LoopWithoutTimeout.
Context `{Externals}.
Context (problem : BenchmarkProblem.t) (method : BenchmarkMethod.t).
Context (start : Qc).
Hypothesis no_timeout : BenchmarkMethod.timeout_hours method = None.

Lemma loop_body_without_timeout_calls st step :
  only_calls is_best_point_call (loop_body problem method start st step).
Proof.
  intros w. unfold loop_body, record_newly_completed. rewrite no_timeout.
  prog_simpl.
  repeat case_match; simplify_eq; simpl;
    first [ by exists []; rewrite app_nil_r
          | eexists [_]; split; [reflexivity|]; by repeat constructor ].
Qed.

Lemma run_loop_without_timeout_calls steps st :
  only_calls is_best_point_call (run_loop problem method start steps st).
Proof.
  revert st. induction steps as [|step steps IH]; intros st.
  - apply only_calls_ret.
  - simpl. apply only_calls_bind; [apply loop_body_without_timeout_calls|].
    intros [st' [|]]; [apply only_calls_ret|apply IH].
Qed.

Lemma run_loop_without_timeout_Returned steps st w st' w' :
  run_loop problem method start steps st w = (Returned st', w') →
  (iterations problem method start steps st w).*2 = steps
  ∧ Loop.remaining_hours st' = Loop.remaining_hours st.
Proof.
  revert st w. induction steps as [|step steps IH]; intros st w.
  - by intros [= <- <-].
  - rewrite run_loop_cons, iterations_cons.
    destruct (loop_body problem method start st step w)
      as [[[st1 stop]|e] w1] eqn:Hbody; [|done].
    apply loop_body_Returned in Hbody as (-> & _ & _ & Hremaining & _).
    unfold timed_out. rewrite no_timeout in Hremaining |- *.
    intros [Hsteps Hst']%IH. rewrite fmap_cons, Hsteps. cbn [snd].
    split; [done|]. by rewrite Hst'.
Qed.

End LoopWithoutTimeout.

(** X3. For a method without timeout, the loop of a replication makes no
    call other than requests for the best parameters, so the timeout
    warning is never logged, and it leaves all logger levels alone,
    whatever its outcome; when it returns, it has consumed every step the
    scheduler yielded and the remaining budget is as it was on entry. *)
Theorem loop_without_timeout `{Externals}
    (problem : BenchmarkProblem.t) (method : BenchmarkMethod.t)
    (start : Qc) (steps : list Step.t) (st : Loop.t) (w : World.t) :
  BenchmarkMethod.timeout_hours method = None →
  let result := run_loop problem method start steps st w in
  (∃ new,
     World.calls result.2 = World.calls w ++ new
     ∧ Forall is_best_point_call new
     ∧ timeout_warning ∉ new)
  ∧ World.log_levels result.2 = World.log_levels w
  ∧ ∀ st',
      result.1 = Returned st' →
      (iterations problem method start steps st w).*2 = steps
      ∧ Loop.remaining_hours st' = Loop.remaining_hours st.
Proof.
  intros Hno result. split_and!.
  - destruct (run_loop_without_timeout_calls problem method start Hno steps
                st w) as (new & Hnew & Hbest).
    exists new. split_and!; [done..|].
    intros Hin. by eapply Forall_forall in Hbest; [|exact Hin].
  - apply run_loop_keeps_log_levels.
  - intros st' Hst'.
    apply (run_loop_without_timeout_Returned problem method start Hno steps
             st w st' result.2).
    unfold result in *. by destruct (run_loop _ _ _ _ _ _); simpl in *; subst.
Qed.

(** ** Monotonicity of the cost trace *)

Lemma sum_nonneg (xs : list Qc) : Forall (Qcle 0) xs → (0 ≤ sum xs)%Qc.
Proof.
  induction 1 as [|x xs Hx _ IH]; [done|].
  rewrite sum_cons. replace 0%Qc with (0 + 0)%Qc by ring.
  by apply Qcplus_le_compat.
Qed.

Lemma Qcle_plus_nonneg (a b : Qc) : (0 ≤ b)%Qc → (a ≤ a + b)%Qc.
Proof.
  intros Hb. replace a with (a + 0)%Qc at 1 by ring.
  apply Qcplus_le_compat; [apply Qcle_refl|done].
Qed.

Section CostTrace.
Context `{Externals}.
Context (problem : BenchmarkProblem.t) (method : BenchmarkMethod.t).
Context (start : Qc).

Lemma runtime_of_iteration_nonneg it :
  nonnegative_runtimes → (0 ≤ runtime_of_iteration it)%Qc.
Proof.
  intros Hnonneg. unfold runtime_of_iteration.
  destruct (Experiment.runner _) as [runner|]; [|done].
  apply sum_nonneg, Forall_fmap, Forall_forall. intros i _.
  unfold trial_total_runtime. simpl.
  destruct (Experiment.trials _ !! i); simpl; [apply Hnonneg|done].
Qed.

Lemma run_loop_cost_trace_sorted steps st w st' w' :
  nonnegative_runtimes →
  Forall not_simulated steps →
  run_loop problem method start steps st w = (Returned st', w') →
  ∃ costs,
    Loop.cost_trace st' = Loop.cost_trace st ++ costs
    ∧ Forall (Qcle (Loop.cost st)) costs
    ∧ Sorted.StronglySorted Qcle costs.
Proof.
  intros Hnonneg Hsteps. revert st w.
  induction Hsteps as [|step steps Hstep Hsteps IH]; intros st w.
  - intros [= <- <-]. exists []. rewrite app_nil_r. by repeat constructor.
  - rewrite run_loop_cons.
    destruct (loop_body problem method start st step w)
      as [[[st1 stop]|e] w1] eqn:Hbody; [|done].
    pose proof (loop_body_cost _ _ _ _ _ _ _ _ _ Hstep Hbody) as Hcost.
    pose proof (runtime_of_iteration_nonneg (st, step) Hnonneg) as Hruntime.
    assert (Loop.cost st ≤ Loop.cost st1)%Qc as Hle.
    { rewrite Hcost. by apply Qcle_plus_nonneg. }
    apply loop_body_Returned in Hbody as (_ & _ & _ & _ & _ & new & _ & Hit).
    assert (∃ costs1,
              Loop.cost_trace st1 = Loop.cost_trace st ++ costs1
              ∧ Forall (Qcle (Loop.cost st)) costs1
              ∧ Forall (λ c, c ≤ Loop.cost st1)%Qc costs1
              ∧ Sorted.StronglySorted Qcle costs1)
      as (costs1 & Htrace1 & ? & ? & ?).
    { destruct (decide (productive (st, step))).
      - destruct Hit as (cost & arms & _ & _ & Hcost1 & -> & _).
        exists [cost]. rewrite Hcost1 in Hle |- *.
        split_and!; [done|by repeat constructor|..].
        + repeat constructor. apply Qcle_refl.
        + by repeat constructor.
      - destruct Hit as (_ & -> & _). exists []. rewrite app_nil_r.
        by repeat constructor. }
    destruct stop.
    + intros [= <- <-]. by exists costs1.
    + intros (costs & -> & Hfrom & Hsorted)%IH.
      exists (costs1 ++ costs). rewrite Htrace1, <-app_assoc.
      split_and!; [done| |].
      * apply Forall_app. split; [done|].
        eapply Forall_impl; [exact Hfrom|]. intros c Hc. simpl in Hc.
        by eapply Qcle_trans.
      * apply sorting.StronglySorted_app. split_and!; [|done..].
        intros c1 c2 Hc1 Hc2.
        eapply Forall_forall in Hc1; [|done]. simpl in Hc1.
        eapply Forall_forall in Hc2; [|done]. simpl in Hc2.
        by eapply Qcle_trans.
Qed.

End CostTrace.

(** X4. When the replication runs without simulated backend and no trial
    has a negative runtime, the cost trace of the result is non-negative
    and non-decreasing. *)
Theorem cost_trace_nondecreasing `{Externals}
    (problem : BenchmarkProblem.t) (method : BenchmarkMethod.t)
    (seed : nat) (strip_runner_before_saving : bool)
    (scheduler_logging_level : Z) (clock : Clock.t) (w : World.t)
    (r : BenchmarkResult.t) (w' : World.t) :
  nonnegative_runtimes →
  Forall not_simulated
    (replication_steps problem method seed scheduler_logging_level clock) →
  benchmark_replication problem method seed strip_runner_before_saving
    scheduler_logging_level clock w
  = (Returned r, w') →
  Forall (Qcle 0) (BenchmarkResult.cost_trace r)
  ∧ ∀ i j cost_i cost_j,
      i ≤ j →
      BenchmarkResult.cost_trace r !! i = Some cost_i →
      BenchmarkResult.cost_trace r !! j = Some cost_j →
      (cost_i ≤ cost_j)%Qc.
Proof.
  intros Hnonneg Hsteps
    (st & w1 & Hrun & Hfinal)%benchmark_replication_Returned.
  apply finalize_replication_Returned in Hfinal as (-> & _).
  apply run_loop_cost_trace_sorted in Hrun
    as (costs & Htrace & Hfrom & Hsorted); [|done..].
  simpl in Htrace, Hfrom. rewrite Htrace. split; [done|].
  intros i j cost_i cost_j Hij Hi Hj.
  destruct (decide (i = j)) as [->|Hne].
  - rewrite Hi in Hj. injection Hj as <-. apply Qcle_refl.
  - pose proof (lookup_lt_Some _ _ _ Hj) as Hlt.
    assert (take j costs !! i = Some cost_i) as Htake.
    { rewrite lookup_take_lt by lia. done. }
    apply (take_drop_middle _ _ _) in Hj. rewrite <-Hj in Hsorted.
    apply sorting.StronglySorted_app in Hsorted as (Hsorted & _).
    apply (Hsorted cost_i cost_j); [|by left].
    by eapply list_elem_of_lookup_2.
Qed.

(** X5. When the replication runs on a simulated backend, the cost trace
    of the result holds, for each iteration with newly completed trials,
    the time of the simulator as of that step: runtimes of trials are not
    added up. *)
Theorem cost_trace_simulated `{Externals}
    (problem : BenchmarkProblem.t) (method : BenchmarkMethod.t)
    (seed : nat) (strip_runner_before_saving : bool)
    (scheduler_logging_level : Z) (clock : Clock.t) (w : World.t)
    (r : BenchmarkResult.t) (w' : World.t) :
  Forall simulated
    (replication_steps problem method seed scheduler_logging_level clock) →
  benchmark_replication problem method seed strip_runner_before_saving
    scheduler_logging_level clock w
  = (Returned r, w') →
  BenchmarkResult.cost_trace r
  = (λ it, simulator_time it.2)
    <$> filter productive
          (replication_iterations problem method seed scheduler_logging_level
             clock w).
Proof.
  intros Hsteps Hrun.
  apply benchmark_replication_traces in Hrun
    as (st & w1 & evaluated & _ & _ & _ & Hcosts & _).
  assert (Forall (λ it, simulated it.2)
            (filter productive
               (replication_iterations problem method seed
                  scheduler_logging_level clock w))) as Hsimulated.
  { apply Forall_forall. intros it [_ Hit]%list_elem_of_filter.
    apply iterations_elem_of in Hit.
    by eapply Forall_forall in Hsteps. }
  induction Hcosts as [|it cost its costs Hcost _ IH]; [done|].
  apply Forall_cons in Hsimulated as [(runner & sbr & Hrunner & Hsbr) Hits].
  rewrite fmap_cons, <-IH by done. f_equal.
  unfold cost_of_iteration in Hcost.
  rewrite (_get_cumulative_cost_simulated _ _ _ _ _ Hrunner Hsbr) in Hcost.
  injection Hcost as <-. unfold simulator_time. by rewrite Hrunner, Hsbr.
Qed.

Lemma loop_without_timeout_witness :
  BenchmarkMethod.timeout_hours Example.method_without_timeout = None
  ∧ World.log_levels
      (@run_loop Example.externals Example.problem
         Example.method_without_timeout 0%Qc
         [Example.step_of Example.scheduler 0;
          Example.step_of Example.scheduler 1]
         (initial_loop_state Example.problem Example.method_without_timeout
            20 Example.clock)
         Example.world).2
    = World.log_levels Example.world.
Proof.
  split; [reflexivity|].
  exact (proj1 (proj2 (@loop_without_timeout Example.externals
                         Example.problem Example.method_without_timeout 0%Qc
                         [Example.step_of Example.scheduler 0;
                          Example.step_of Example.scheduler 1]
                         (initial_loop_state Example.problem
                            Example.method_without_timeout 20 Example.clock)
                         Example.world eq_refl))).
Defined.

Lemma Example_nonnegative_runtimes : @nonnegative_runtimes Example.externals.
Proof.
  intros trial step_runtime_function n_steps. simpl.
  unfold Qcle, Qle. simpl. lia.
Qed.

Lemma Example_not_simulated :
  Forall not_simulated
    (@replication_steps Example.externals Example.problem Example.method 0 20
       Example.clock).
Proof.
  rewrite Example_steps. repeat constructor; by eexists.
Qed.

Lemma Example_simulated :
  Forall simulated
    (@replication_steps Example.externals Example.problem
       Cases.concurrent_method 0 20 Example.clock).
Proof. repeat constructor; by eexists _, _. Qed.

Lemma cost_trace_nondecreasing_witness :
  ∃ r w',
    @benchmark_replication Example.externals Example.problem Example.method
      0 true 20 Example.clock Example.world
    = (Returned r, w')
    ∧ Forall (Qcle 0) (BenchmarkResult.cost_trace r).
Proof.
  destruct (@benchmark_replication Example.externals Example.problem
              Example.method 0 true 20 Example.clock Example.world)
    as [[r|e] w'] eqn:Hrun.
  - exists r, w'. split; [reflexivity|].
    exact (proj1 (@cost_trace_nondecreasing Example.externals
                    Example.problem Example.method 0 true 20 Example.clock
                    Example.world r w' Example_nonnegative_runtimes
                    Example_not_simulated Hrun)).
  - vm_compute in Hrun. discriminate Hrun.
Defined.

Lemma cost_trace_simulated_witness :
  ∃ r w',
    @benchmark_replication Example.externals Example.problem
      Cases.concurrent_method 0 true 20 Example.clock Example.world
    = (Returned r, w')
    ∧ BenchmarkResult.cost_trace r
      = (λ it, simulator_time it.2)
        <$> filter productive
              (@replication_iterations Example.externals Example.problem
                 Cases.concurrent_method 0 20 Example.clock Example.world).
Proof.
  destruct (@benchmark_replication Example.externals Example.problem
              Cases.concurrent_method 0 true 20 Example.clock Example.world)
    as [[r|e] w'] eqn:Hrun.
  - exists r, w'. split; [reflexivity|].
    exact (@cost_trace_simulated Example.externals Example.problem
             Cases.concurrent_method 0 true 20 Example.clock Example.world
             r w' Example_simulated Hrun).
  - vm_compute in Hrun. discriminate Hrun.
Defined.

(** ** Logger levels *)

Section OracleFrame.
Context `{Externals}.
Implicit Types items : dict nat (dict string TParameterization).

Lemma attach_and_run_trials_keeps_log_levels
    problem runner items experiment :
  keeps_log_levels (attach_and_run_trials problem runner items experiment).
Proof.
  revert experiment.
  induction items as [|[i d] items IH]; intros experiment w; [done|].
  simpl. case_bool_decide; [done|].
  unfold attach_trial, lookup_trial. prog_simpl.
  destruct (_ !! i) as [trial|]; [|done]. simpl. by rewrite IH.
Qed.

Lemma attach_and_run_trials_oracle_calls problem runner items experiment :
  only_calls is_attach_or_run
    (attach_and_run_trials problem runner items experiment).
Proof.
  revert experiment. induction items as [|[i d] items IH]; intros experiment.
  - apply only_calls_ret.
  - simpl. case_bool_decide; [apply only_calls_raise|].
    unfold attach_trial.
    apply only_calls_bind.
    { apply only_calls_bind; [by apply only_calls_record_call|].
      intros []. apply only_calls_ret. }
    intros experiment'. apply only_calls_bind; [apply only_calls_lift|].
    intros trial. apply only_calls_bind; [by apply only_calls_record_call|].
    intros []. apply IH.
Qed.

Lemma get_oracle_experiment_from_params_log_levels problem items w :
  let result := get_oracle_experiment_from_params problem items w in
  (∀ name,
     name ≠ "ax.core.experiment" →
     logger_level result.2 name = logger_level w name)
  ∧ logger_level result.2 "ax.core.experiment"
    = match result.1 with
      | Returned _ => INFO
      | Raised _ => WARNING
      end.
Proof.
  unfold get_oracle_experiment_from_params. prog_simpl.
  set (runner := BenchmarkRunner_init _ _ _ _).
  set (experiment := Experiment.mk _ _ _ _ _ _ _).
  set (w0 := World.mk _ _).
  pose proof (attach_and_run_trials_keeps_log_levels problem runner items
                experiment w0) as Hlevels.
  destruct (attach_and_run_trials problem runner items experiment w0)
    as [[e|err] w1]; simpl in *; unfold logger_level; simpl;
    rewrite ?Hlevels; simpl.
  - split; [|by rewrite !lookup_insert_eq].
    intros name Hname. by rewrite !lookup_insert_ne.
  - split; [|by rewrite lookup_insert_eq].
    intros name Hname. by rewrite !lookup_insert_ne.
Qed.

(** A replication that returns has called the oracle evaluator for the
    oracle trace last, and this call has returned. *)
Lemma benchmark_replication_experiment_logger
    problem method seed strip lvl clock w r w' :
  benchmark_replication problem method seed strip lvl clock w
  = (Returned r, w') →
  logger_level w' "ax.core.experiment" = INFO.
Proof.
  intros (st & w1 & _ & Hfinal)%benchmark_replication_Returned.
  unfold finalize_replication in Hfinal.
  apply Prog_bind_inv in Hfinal as (u & w2 & _ & Hfinal).
  apply Prog_bind_inv in Hfinal as (inference & w3 & _ & Hfinal).
  apply Prog_bind_inv in Hfinal as (oracle & w4 & Horacle & Hfinal).
  destruct (get_model_times _) as [fit_time gen_time].
  injection Hfinal as _ <-.
  unfold _get_oracle_trace_from_arms in Horacle.
  apply Prog_bind_inv in Horacle as (e & w5 & Hrun & [= _ <-]).
  destruct (get_oracle_experiment_from_params_log_levels problem
              (imap (λ i arms, (i, dict_of_arms arms))
                 (Loop.evaluated_arms_list st)) w3) as [_ Hlevel].
  by rewrite Hrun in Hlevel.
Qed.

End OracleFrame.

(** X6. Whatever the request and the outcome, the oracle evaluator leaves
    the level of every logger other than the experiment logger alone; the
    experiment logger is at INFO, the level [get_logger] gives it,
    whatever its level was before, if the call returns, and at WARNING if
    it raises; and data is fetched, as the last call, only if the call
    returns; the other calls attach or run a trial. *)
Theorem oracle_evaluator_log_levels `{Externals}
    (problem : BenchmarkProblem.t)
    (dict_of_dict_of_params : dict nat (dict string TParameterization))
    (w : World.t) :
  let result :=
    get_oracle_experiment_from_params problem dict_of_dict_of_params w in
  (∀ name,
     name ≠ "ax.core.experiment" →
     logger_level result.2 name = logger_level w name)
  ∧ logger_level result.2 "ax.core.experiment"
    = match result.1 with
      | Returned _ => INFO
      | Raised _ => WARNING
      end
  ∧ ∃ new,
      World.calls result.2 = World.calls w ++ new
      ∧ match result.1 with
        | Returned _ =>
            ∃ calls, new = calls ++ [FetchData] ∧ Forall is_attach_or_run calls
        | Raised _ => Forall is_attach_or_run new
        end.
Proof.
  intros result.
  destruct (get_oracle_experiment_from_params_log_levels problem
              dict_of_dict_of_params w) as [Hother Hexperiment].
  split_and!; [done..|].
  unfold result, get_oracle_experiment_from_params. prog_simpl.
  set (runner := BenchmarkRunner_init _ _ _ _).
  set (experiment := Experiment.mk _ _ _ _ _ _ _).
  set (w0 := World.mk _ _).
  destruct (attach_and_run_trials_oracle_calls problem runner
              dict_of_dict_of_params experiment w0) as (new & Hnew & Hfetch).
  destruct (attach_and_run_trials problem runner dict_of_dict_of_params
              experiment w0) as [[e|err] w1]; simpl in *.
  - exists (new ++ [FetchData]). rewrite Hnew, <-app_assoc.
    split; [done|]. by exists new.
  - by exists new.
Qed.

(** X7. A replication that returns leaves the experiment logger at INFO,
    whatever its level was before: the oracle evaluator, called last for
    the oracle trace, gets the logger with [get_logger] and restores the
    level it had after that call. *)
Theorem replication_leaves_experiment_logger_at_INFO `{Externals}
    (problem : BenchmarkProblem.t) (method : BenchmarkMethod.t)
    (seed : nat) (strip_runner_before_saving : bool)
    (scheduler_logging_level : Z) (clock : Clock.t) (w : World.t)
    (r : BenchmarkResult.t) (w' : World.t) :
  benchmark_replication problem method seed strip_runner_before_saving
    scheduler_logging_level clock w
  = (Returned r, w') →
  logger_level w' "ax.core.experiment" = INFO.
Proof. apply benchmark_replication_experiment_logger. Qed.

Lemma replication_leaves_experiment_logger_at_INFO_witness :
  logger_level Cases.quiet_world "ax.core.experiment" = 40%Z
  ∧ ∃ r w',
      @benchmark_replication Example.externals Example.problem Example.method
        0 true 20 Example.clock Cases.quiet_world
      = (Returned r, w')
      ∧ logger_level w' "ax.core.experiment" = 20%Z.
Proof.
  split; [reflexivity|].
  destruct (@benchmark_replication Example.externals Example.problem
              Example.method 0 true 20 Example.clock Cases.quiet_world)
    as [[r|e] w'] eqn:Hrun.
  - exists r, w'. split; [reflexivity|].
    exact (@replication_leaves_experiment_logger_at_INFO Example.externals
             Example.problem Example.method 0 true 20 Example.clock
             Cases.quiet_world r w' Hrun).
  - vm_compute in Hrun. discriminate Hrun.
Defined.

(** ** Oracle trace and oracle value *)

Lemma oracle_requests_app l1 l2 :
  oracle_requests (l1 ++ l2)
  = oracle_requests l1
    ++ imap (λ i arms, (length l1 + i, dict_of_arms arms)) l2.
Proof. unfold oracle_requests. by rewrite imap_app. Qed.

(** X8. [_get_oracle_trace_from_arms] returns the trace of the oracle
    experiment, which has one trial per group of arms, when every group
    holds an arm, and raises the invalid-input error when a group is
    empty; as it numbers the groups itself, it never fails on looking up
    a trial. *)
Theorem oracle_trace_from_arms_outcome `{Externals}
    (evaluated_arms_list : list (list Arm.t)) (problem : BenchmarkProblem.t)
    (w : World.t) :
  let result := _get_oracle_trace_from_arms evaluated_arms_list problem w in
  let experiment :=
    oracle_experiment problem (oracle_requests evaluated_arms_list) in
  (Forall (λ arms, arms ≠ []) evaluated_arms_list →
     result.1
     = Returned (_get_trace experiment
                   (BenchmarkProblem.optimization_config problem))
     ∧ size (Experiment.trials experiment) = length evaluated_arms_list)
  ∧ (Exists (λ arms, arms = []) evaluated_arms_list →
     result.1 = Raised (ValueError no_arms_message))
  ∧ ∀ key, result.1 ≠ Raised (KeyError key).
Proof.
  intros result experiment.
  assert (Forall (λ arms, arms ≠ []) evaluated_arms_list →
          result.1
          = Returned (_get_trace experiment
                        (BenchmarkProblem.optimization_config problem)))
    as Hok.
  { intros Harms. unfold result, _get_oracle_trace_from_arms.
    fold (oracle_requests evaluated_arms_list).
    pose proof (get_oracle_experiment_from_params_ok problem
                  (oracle_requests evaluated_arms_list) w
                  (oracle_requests_keys _)
                  (oracle_requests_not_nil _ Harms)) as Hrun.
    by rewrite (Prog_bind_Returned _ _ _ _ _ Hrun). }
  assert (Exists (λ arms, arms = []) evaluated_arms_list →
          result.1 = Raised (ValueError no_arms_message)) as Hno_arms.
  { intros Hempty.
    apply Exists_first_split in Hempty
        as (pre & arms & post & -> & Hpre & ->); [|intros arms; apply _].
    unfold result, _get_oracle_trace_from_arms.
    fold (oracle_requests (pre ++ [] :: post)).
    rewrite oracle_requests_app. simpl.
    prog_simpl.
    rewrite get_oracle_experiment_from_params_no_arms; [done|..].
    - apply oracle_requests_keys.
    - apply oracle_requests_not_nil.
      eapply Forall_impl; [exact Hpre|]. intros arms Harms. exact Harms. }
  split_and!.
  - intros Harms. split; [by apply Hok|].
    unfold experiment. rewrite size_oracle_experiment.
    + apply length_oracle_requests.
    + apply oracle_requests_keys.
  - done.
  - intros key.
    destruct (decide (Forall (λ arms, arms ≠ []) evaluated_arms_list))
      as [Harms|Harms].
    + by rewrite Hok.
    + apply not_Forall_Exists in Harms; [|intros arms; apply _].
      rewrite Hno_arms; [done|].
      eapply Exists_impl; [exact Harms|]. intros arms Hne. simpl in Hne.
      by destruct arms; [|destruct Hne].
Qed.

(** X9. When [_get_oracle_value_of_params] returns a value, it has asked
    the oracle evaluator for one trial with the single arm [0_0], which
    was attached and run before the data was fetched, the trace of the
    oracle experiment holds exactly this value, and the experiment logger
    is at INFO and the other loggers are at their levels; when the trace
    does not hold exactly one value, the call does not return. *)
Theorem oracle_value_of_params_outcome `{Externals}
    (params : TParameterization) (problem : BenchmarkProblem.t)
    (w : World.t) :
  let result := _get_oracle_value_of_params params problem w in
  let trace :=
    _get_trace (oracle_experiment problem [(0, [("0_0", params)])])
      (BenchmarkProblem.optimization_config problem) in
  (∀ value,
     result.1 = Returned value →
     trace = [value]
     ∧ World.calls result.2
       = World.calls w
         ++ [AttachTrial
               [dict_merge params
                  (BenchmarkProblem.target_fidelity_and_task problem)]
               ["0_0"];
             RunnerRun (zero_noise_runner problem) 0;
             FetchData]
     ∧ logger_level result.2 "ax.core.experiment" = INFO
     ∧ ∀ name,
         name ≠ "ax.core.experiment" →
         logger_level result.2 name = logger_level w name)
  ∧ ((∀ value, trace ≠ [value]) → ∃ e, result.1 = Raised e).
Proof.
  intros result trace.
  pose proof (get_oracle_experiment_from_params_ok problem
                [(0, [("0_0", params)])] w eq_refl
                ltac:(by repeat constructor)) as Hrun.
  destruct (get_oracle_experiment_from_params_log_levels problem
              [(0, [("0_0", params)])] w) as [Hother Hexperiment].
  assert (result
          = (unpack_single trace,
             (get_oracle_experiment_from_params problem
                [(0, [("0_0", params)])] w).2)) as Hresult.
  { unfold result, _get_oracle_value_of_params.
    rewrite (Prog_bind_Returned _ _ _ _ _ Hrun). by rewrite Hrun. }
  rewrite Hresult. cbn [fst snd]. split.
  - intros value Hvalue. split_and!.
    + unfold unpack_single in Hvalue.
      destruct trace as [|v [|??]]; [done| |done]. by injection Hvalue as ->.
    + by rewrite Hrun.
    + rewrite Hexperiment. by rewrite Hrun.
    + done.
  - intros Htrace. unfold unpack_single.
    destruct trace as [|v [|??]]; [by eexists| |by eexists].
    by destruct (Htrace v).
Qed.

Lemma oracle_value_of_params_outcome_witness :
  ∃ w',
    @_get_oracle_value_of_params Example.externals {["x" := PInt 2]}
      Example.problem Cases.quiet_world
    = (Returned 2%float, w')
    ∧ @_get_trace Example.externals
        (@oracle_experiment Example.externals Example.problem
           [(0, [("0_0", {["x" := PInt 2]})])])
        (BenchmarkProblem.optimization_config Example.problem)
      = [2%float]
    ∧ logger_level Cases.quiet_world "ax.core.experiment" = 40%Z
    ∧ logger_level w' "ax.core.experiment" = 20%Z.
Proof.
  assert ((@_get_oracle_value_of_params Example.externals {["x" := PInt 2]}
             Example.problem Cases.quiet_world).1
          = Returned 2%float) as Hvalue by reflexivity.
  eexists. split; [reflexivity|].
  destruct (proj1 (@oracle_value_of_params_outcome Example.externals
                     {["x" := PInt 2]} Example.problem Cases.quiet_world)
              2%float Hvalue)
    as (Htrace & _ & Hlevel & _).
  split; [exact Htrace|]. split; [reflexivity|exact Hlevel].
Defined.

(** ** Replications in which no trial completes *)

Section NoneCompleted.
Context `{Externals}.
Context (problem : BenchmarkProblem.t) (method : BenchmarkMethod.t).

Lemma run_loop_none_completed start steps st w :
  Forall none_completed steps →
  ∃ st' w',
    run_loop problem method start steps st w = (Returned st', w')
    ∧ Loop.cost_trace st' = Loop.cost_trace st
    ∧ Loop.evaluated_arms_list st' = Loop.evaluated_arms_list st
    ∧ Loop.best_params_list st' = Loop.best_params_list st.
Proof.
  intros Hsteps. revert st w.
  induction Hsteps as [|step steps Hstep _ IH]; intros st w.
  - by exists st, w.
  - rewrite run_loop_cons.
    assert (newly_completed_trials st step = ∅) as Hnone.
    { unfold newly_completed_trials. rewrite Hstep.
      apply subseteq_empty_difference_L, empty_subseteq. }
    unfold loop_body at 1. rewrite Hnone, size_empty.
    rewrite bool_decide_eq_false_2 by lia. prog_simpl.
    destruct (BenchmarkMethod.timeout_hours method) as [timeout_hours|];
      [destruct (Qcleb _ _)|]; simpl.
    + by eexists _, _.
    + edestruct IH as (st' & w' & -> & ? & ? & ?). by exists st', w'.
    + edestruct IH as (st' & w' & -> & ? & ? & ?). by exists st', w'.
Qed.

Lemma benchmark_replication_none_completed seed strip lvl clock w :
  Forall none_completed (replication_steps problem method seed lvl clock) →
  ∃ r w',
    benchmark_replication problem method seed strip lvl clock w
    = (Returned r, w')
    ∧ BenchmarkResult.cost_trace r = []
    ∧ BenchmarkResult.inference_trace r = []
    ∧ BenchmarkResult.oracle_trace r
      = _get_trace (oracle_experiment problem [])
          (BenchmarkProblem.optimization_config problem)
    ∧ BenchmarkResult.optimization_trace r
      = (if BenchmarkProblem.report_inference_value_as_trace problem
         then []
         else BenchmarkResult.oracle_trace r).
Proof.
  intros Hsteps.
  destruct (run_loop_none_completed (Clock.monotonic clock) _
              (initial_loop_state problem method lvl clock) (polled w)
              Hsteps) as (st & w1 & Hrun & Hcost & Harms & Hbest).
  simpl in Hcost, Harms, Hbest.
  unfold benchmark_replication.
  rewrite (Prog_bind_Returned (record_call PollAndProcessResults) _ w ()
             (polled w) eq_refl).
  rewrite (Prog_bind_Returned _ _ _ _ _ Hrun).
  unfold finalize_replication, _get_oracle_trace_from_arms.
  rewrite Hcost, Harms, Hbest.
  destruct (get_model_times (Loop.experiment st)) as [fit_time gen_time].
  eexists _, _. split; [reflexivity|]. simpl.
  by destruct (BenchmarkProblem.report_inference_value_as_trace problem).
Qed.

End NoneCompleted.

(** X10. A replication in which no step shows a completed or
    early-stopped trial returns a result whose cost trace and inference
    trace are empty and whose oracle trace is read off an oracle
    experiment without trials; no error is raised. *)
Theorem replication_without_completed_trials `{Externals}
    (problem : BenchmarkProblem.t) (method : BenchmarkMethod.t)
    (seed : nat) (strip_runner_before_saving : bool)
    (scheduler_logging_level : Z) (clock : Clock.t) (w : World.t) :
  Forall none_completed
    (replication_steps problem method seed scheduler_logging_level clock) →
  ∃ r w',
    benchmark_replication problem method seed strip_runner_before_saving
      scheduler_logging_level clock w
    = (Returned r, w')
    ∧ BenchmarkResult.cost_trace r = []
    ∧ BenchmarkResult.inference_trace r = []
    ∧ BenchmarkResult.oracle_trace r
      = _get_trace (oracle_experiment problem [])
          (BenchmarkProblem.optimization_config problem)
    ∧ Experiment.trials (oracle_experiment problem []) = ∅
    ∧ (one_value_per_trial →
       BenchmarkResult.oracle_trace r = []
       ∧ BenchmarkResult.optimization_trace r = []
       ∧ BenchmarkResult.score_trace r = []).
Proof.
  intros Hsteps.
  destruct (benchmark_replication_none_completed problem method seed
              strip_runner_before_saving scheduler_logging_level clock w
              Hsteps) as (r & w' & Hrun & Hcost & Hinf & Horacle & Hopt).
  exists r, w'. split_and!; [done..|].
  intros Htrace.
  assert (BenchmarkResult.oracle_trace r = []) as Hnil.
  { rewrite Horacle. apply nil_length_inv. by rewrite Htrace. }
  assert (BenchmarkResult.optimization_trace r = []) as Hopt_nil.
  { rewrite Hopt, Hnil. by destruct (BenchmarkProblem.report_inference_value_as_trace _). }
  split_and!; [done..|].
  apply benchmark_replication_Returned in Hrun as (st & w1 & _ & Hfinal).
  apply finalize_replication_Returned in Hfinal
    as (_ & _ & _ & _ & -> & _).
  by rewrite Hopt_nil.
Qed.

(** ** Baseline value from Sobol replications *)

(** X11. The dummy problem of [compute_baseline_value_from_sobol] has an
    infinite optimal value, positive exactly when the objective is
    multi-objective or not minimized, and the opposite infinity as
    baseline value; so the score trace computed for it is NaN at every
    position, whatever the optimization trace. *)
Theorem dummy_problem_scores_are_NaN `{Externals}
    (optimization_config : OptimizationConfig.t) (search_space : SearchSpace)
    (test_function : BenchmarkTestFunction.t)
    (target_fidelity_and_task : option TParameterization)
    (optimization_trace : list float) :
  let problem :=
    dummy_problem optimization_config search_space test_function
      target_fidelity_and_task in
  let higher_is_better :=
    match OptimizationConfig.objective optimization_config with
    | MultiObjective => true
    | SingleObjective minimize => negb minimize
    end in
  BenchmarkProblem.optimal_value problem
  = (if higher_is_better then PosInf else NegInf)
  ∧ BenchmarkProblem.baseline_value problem
    = (if higher_is_better then NegInf else PosInf)
  ∧ BenchmarkProblem.num_trials problem = 5
  ∧ compute_score_trace optimization_trace
      (BenchmarkProblem.baseline_value problem)
      (BenchmarkProblem.optimal_value problem)
    = replicate (length optimization_trace) NaN.
Proof.
  intros problem higher_is_better.
  assert (BenchmarkProblem.optimal_value problem
          = (if higher_is_better then PosInf else NegInf)) as Hoptimal.
  { done. }
  assert (BenchmarkProblem.baseline_value problem
          = (if higher_is_better then NegInf else PosInf)) as Hbaseline.
  { unfold problem, dummy_problem. simpl. fold higher_is_better.
    destruct higher_is_better; reflexivity. }
  split_and!; [done..|].
  rewrite Hoptimal, Hbaseline. unfold compute_score_trace.
  induction optimization_trace as [|v trace IH]; [done|].
  rewrite fmap_cons, IH. simpl. f_equal.
  pose proof (score_infinite_baseline v higher_is_better) as Hscore.
  destruct higher_is_better; exact Hscore.
Qed.

(** X12. When the first Sobol replication completes no trial and the
    best-point extractor yields one value per trial,
    [compute_baseline_value_from_sobol] raises an index error on taking
    the last entry of an empty optimization trace. *)
Theorem compute_baseline_value_from_sobol_empty_trace `{Externals}
    (optimization_config : OptimizationConfig.t) (search_space : SearchSpace)
    (test_function : BenchmarkTestFunction.t)
    (target_fidelity_and_task : option TParameterization)
    (n_repeats : nat) (clocks : nat → Clock.t) (w : World.t) :
  0 < n_repeats →
  one_value_per_trial →
  Forall none_completed
    (replication_steps
       (dummy_problem optimization_config search_space test_function
          target_fidelity_and_task)
       (BenchmarkMethod_init get_sobol_generation_strategy) 0 WARNING
       (clocks 0)) →
  (compute_baseline_value_from_sobol optimization_config search_space
     test_function target_fidelity_and_task n_repeats clocks w).1
  = Raised (IndexError "index -1 is out of bounds").
Proof.
  intros Hn Htrace Hsteps.
  destruct n_repeats as [|n]; [lia|].
  destruct (benchmark_replication_none_completed _ _ 0 true WARNING
              (clocks 0) w Hsteps)
    as (r & w' & Hrun & _ & _ & Horacle & Hopt).
  assert (BenchmarkResult.optimization_trace r = []) as Hnil.
  { rewrite Hopt, Horacle.
    destruct (BenchmarkProblem.report_inference_value_as_trace _); [done|].
    apply nil_length_inv. by rewrite Htrace. }
  unfold compute_baseline_value_from_sobol. cbn [seq mapM].
  prog_simpl. rewrite Hrun, Hnil. reflexivity.
Qed.

(** ** The calls of a replication *)

Lemma only_calls_impl {A} (P Q : Call → Prop) (m : Prog A) :
  (∀ c, P c → Q c) → only_calls P m → only_calls Q m.
Proof.
  intros HPQ Hm w. destruct (Hm w) as (new & Hnew & HP).
  exists new. split; [done|]. by eapply Forall_impl.
Qed.

Section CallProtocol.
Context `{Externals}.
Context (problem : BenchmarkProblem.t) (method : BenchmarkMethod.t).

Lemma loop_body_loop_calls start st step :
  only_calls is_loop_call (loop_body problem method start st step).
Proof.
  intros w. unfold loop_body, record_newly_completed. prog_simpl.
  repeat case_match; simplify_eq; simpl;
    first [ by exists []; rewrite app_nil_r
          | eexists [_]; split; [reflexivity|];
            repeat constructor; by (left + right)
          | eexists [_; _]; split; [by rewrite <-app_assoc|];
            repeat constructor; by (left + right) ].
Qed.

Lemma run_loop_loop_calls start steps st :
  only_calls is_loop_call (run_loop problem method start steps st).
Proof.
  revert st. induction steps as [|step steps IH]; intros st.
  - apply only_calls_ret.
  - simpl. apply only_calls_bind; [apply loop_body_loop_calls|].
    intros [st' [|]]; [apply only_calls_ret|apply IH].
Qed.

Lemma get_oracle_experiment_from_params_oracle_calls items :
  only_calls is_oracle_call (get_oracle_experiment_from_params problem items).
Proof.
  unfold get_oracle_experiment_from_params.
  apply only_calls_bind; [apply only_calls_get_logger|]. intros [].
  apply only_calls_bind; [apply only_calls_level|]. intros lvl.
  apply only_calls_bind; [apply only_calls_setLevel|]. intros [].
  apply only_calls_bind.
  { eapply only_calls_impl; [|apply attach_and_run_trials_oracle_calls].
    intros c Hc. by left. }
  intros experiment.
  apply only_calls_bind; [apply only_calls_setLevel|]. intros [].
  apply only_calls_bind; [apply only_calls_record_call; by right|].
  intros []. apply only_calls_ret.
Qed.

Lemma finalize_replication_oracle_calls seed strip st w :
  ∃ new,
    World.calls (finalize_replication problem seed strip st w).2
    = World.calls w ++ SummarizeFinalResult :: new
    ∧ Forall is_oracle_call new.
Proof.
  unfold finalize_replication.
  rewrite (Prog_bind_Returned (record_call SummarizeFinalResult) _ w ()
             _ eq_refl).
  cbv beta.
  set (w0 := World.mk _ _).
  lazymatch goal with
  | |- context [World.calls (?m w0).2] =>
      assert (only_calls is_oracle_call m) as Hrest
  end.
  { unfold _get_oracle_trace_from_arms. apply only_calls_bind.
    { apply only_calls_mapM. intros params.
      unfold _get_oracle_value_of_params. apply only_calls_bind.
      - apply get_oracle_experiment_from_params_oracle_calls.
      - intros e. apply only_calls_lift. }
    intros inference. apply only_calls_bind.
    { apply only_calls_bind.
      - apply get_oracle_experiment_from_params_oracle_calls.
      - intros e. apply only_calls_ret. }
    intros oracle. destruct (get_model_times _). apply only_calls_ret. }
  destruct (Hrest w0) as (new & Hnew & Horacle).
  exists new. split; [|done].
  rewrite Hnew. unfold w0. simpl. by rewrite <-app_assoc.
Qed.

End CallProtocol.

Lemma polls_app (l1 l2 : list Call) : polls (l1 ++ l2) = polls l1 + polls l2.
Proof. unfold polls. by rewrite filter_app, length_app. Qed.

Lemma polls_none (P : Call → Prop) (l : list Call) :
  (∀ c, P c → c ≠ PollAndProcessResults) → Forall P l → polls l = 0.
Proof.
  intros HP Hl. unfold polls.
  rewrite filter_none; [done|].
  intros c Hc. eapply Forall_forall in Hl; [|exact Hc]. by apply HP.
Qed.

Lemma is_loop_call_not_poll c : is_loop_call c → c ≠ PollAndProcessResults.
Proof. by intros [?|?] ->. Qed.

Lemma is_oracle_call_not_poll c :
  is_oracle_call c → c ≠ PollAndProcessResults.
Proof. by intros [?|?] ->. Qed.

Lemma benchmark_replication_call_sequence `{Externals}
    (problem : BenchmarkProblem.t) (method : BenchmarkMethod.t)
    (seed : nat) (strip_runner_before_saving : bool)
    (scheduler_logging_level : Z) (clock : Clock.t) (w : World.t) :
  let result :=
    benchmark_replication problem method seed strip_runner_before_saving
      scheduler_logging_level clock w in
  ∃ loop_calls final_calls,
    World.calls result.2
    = World.calls w ++ PollAndProcessResults :: loop_calls ++ final_calls
    ∧ Forall is_loop_call loop_calls
    ∧ polls (PollAndProcessResults :: loop_calls ++ final_calls) = 1
    ∧ match final_calls with
      | [] => ∃ e, result.1 = Raised e
      | c :: oracle_calls =>
          c = SummarizeFinalResult ∧ Forall is_oracle_call oracle_calls
      end.
Proof.
  intros result. unfold result, benchmark_replication.
  rewrite (Prog_bind_Returned (record_call PollAndProcessResults) _ w ()
             (polled w) eq_refl).
  set (steps := replication_steps _ _ _ _ _).
  set (st0 := initial_loop_state _ _ _ _).
  destruct (run_loop_loop_calls problem method (Clock.monotonic clock) steps
              st0 (polled w)) as (loop_calls & Hloop & Hloop_calls).
  prog_simpl.
  destruct (run_loop problem method (Clock.monotonic clock) steps st0
              (polled w)) as [[st|e] w1]; simpl in Hloop.
  - destruct (finalize_replication_oracle_calls problem seed
                strip_runner_before_saving st w1)
      as (oracle_calls & Hfinal & Horacle).
    exists loop_calls, (SummarizeFinalResult :: oracle_calls).
    split; [|split; [done|split; [|done]]].
    + rewrite Hfinal, Hloop. simpl. by rewrite <-!app_assoc.
    + change (polls ([PollAndProcessResults]
                     ++ loop_calls
                     ++ [SummarizeFinalResult] ++ oracle_calls) = 1).
      rewrite !polls_app.
      rewrite (polls_none _ loop_calls is_loop_call_not_poll) by done.
      by rewrite (polls_none _ oracle_calls is_oracle_call_not_poll).
  - exists loop_calls, []. rewrite app_nil_r.
    split; [|split; [done|split]].
    + cbn [fst snd]. rewrite Hloop. by rewrite <-app_assoc.
    + change (polls ([PollAndProcessResults] ++ loop_calls) = 1).
      rewrite polls_app.
      by rewrite (polls_none _ loop_calls is_loop_call_not_poll).
    + by exists e.
Qed.

(** X13. Whatever its outcome, a replication polls the scheduler once,
    before anything else; the calls of its loop are requests for the best
    parameters and, at most, the timeout warning; and once the loop is
    over it summarizes the final result and then only attaches and runs
    trials of oracle experiments and fetches their data: the method is
    not asked for best parameters any more. *)
Theorem replication_call_protocol `{Externals}
    (problem : BenchmarkProblem.t) (method : BenchmarkMethod.t)
    (seed : nat) (strip_runner_before_saving : bool)
    (scheduler_logging_level : Z) (clock : Clock.t) (w : World.t) :
  let result :=
    benchmark_replication problem method seed strip_runner_before_saving
      scheduler_logging_level clock w in
  ∃ loop_calls final_calls,
    World.calls result.2
    = World.calls w ++ PollAndProcessResults :: loop_calls ++ final_calls
    ∧ Forall is_loop_call loop_calls
    ∧ polls (PollAndProcessResults :: loop_calls ++ final_calls) = 1
    ∧ match final_calls with
      | [] => ∃ e, result.1 = Raised e
      | c :: oracle_calls =>
          c = SummarizeFinalResult ∧ Forall is_oracle_call oracle_calls
      end.
Proof. apply benchmark_replication_call_sequence. Qed.

(** ** Replications run in sequence *)

Lemma polls_on_return_ret {A} (a : A) : polls_on_return 0 (mret a).
Proof. intros w a' w' [= _ <-]. exists []. by rewrite app_nil_r. Qed.

Lemma polls_on_return_lift {A} (o : Outcome A) : polls_on_return 0 (lift o).
Proof. intros w a' w' [= _ <-]. exists []. by rewrite app_nil_r. Qed.

Lemma polls_on_return_bind {A B} n k (m : Prog A) (f : A → Prog B) :
  polls_on_return n m →
  (∀ a, polls_on_return k (f a)) →
  polls_on_return (n + k) (m ≫= f).
Proof.
  intros Hm Hf w b w' (a & w1 & Ha & Hb)%Prog_bind_inv.
  destruct (Hm _ _ _ Ha) as (new1 & Hnew1 & <-).
  destruct (Hf a _ _ _ Hb) as (new2 & Hnew2 & <-).
  exists (new1 ++ new2). by rewrite Hnew2, Hnew1, <-app_assoc, polls_app.
Qed.

Lemma polls_on_return_mapM {A B} n (f : A → Prog B) (l : list A) :
  (∀ a, polls_on_return n (f a)) →
  polls_on_return (length l * n) (mapM f l).
Proof.
  intros Hf. induction l as [|a l IH]; simpl.
  - apply polls_on_return_ret.
  - apply polls_on_return_bind; [done|]. intros b.
    replace (length l * n) with (length l * n + 0) by lia.
    apply polls_on_return_bind; [done|]. intros k.
    apply polls_on_return_ret.
Qed.

Lemma mapM_Prog_Forall2 {A B} (R : A → B → Prop) (f : A → Prog B)
    (l : list A) w k w' :
  (∀ a w b w', f a w = (Returned b, w') → R a b) →
  mapM f l w = (Returned k, w') →
  Forall2 R l k.
Proof.
  intros Hf. revert w k w'. induction l as [|a l IH]; intros w k w'; simpl.
  - intros [= <- _]. constructor.
  - intros (b & w1 & Hb & Hrest)%Prog_bind_inv.
    apply Prog_bind_inv in Hrest as (k' & w2 & Hk' & [= <- _]).
    constructor; [by eapply Hf|by eapply IH].
Qed.

Lemma imap_pair_snd {A} (l : list A) : (imap pair l).*2 = l.
Proof.
  enough (∀ k, (imap (λ i x, (k + i, x)) l).*2 = l) as Hk by apply (Hk 0).
  induction l as [|x l IH]; intros k; [done|]. simpl. f_equal.
  rewrite <-(IH (S k)) at 2. f_equal. apply imap_ext.
  intros i y _. simpl. f_equal. lia.
Qed.

Section Sequences.
Context `{Externals}.
Context {AggregatedBenchmarkResult : Type}.
Context (from_benchmark_results :
           list BenchmarkResult.t → Outcome AggregatedBenchmarkResult).

Lemma benchmark_replication_polls_once problem method seed strip lvl clock :
  polls_on_return 1
    (benchmark_replication problem method seed strip lvl clock).
Proof.
  intros w r w' Hrun.
  destruct (benchmark_replication_call_sequence problem method seed strip lvl
              clock w) as (loop_calls & final_calls & Hcalls & _ & Hpolls & _).
  rewrite Hrun in Hcalls. simpl in Hcalls. by eexists.
Qed.

Lemma benchmark_replication_seed_and_runner
    problem method seed lvl clock w r w' :
  benchmark_replication problem method seed true lvl clock w
  = (Returned r, w') →
  BenchmarkResult.seed r = seed
  ∧ Experiment.runner (BenchmarkResult.experiment r) = None.
Proof.
  intros (st & w1 & _ & Hfinal)%benchmark_replication_Returned.
  unfold finalize_replication in Hfinal.
  apply Prog_bind_inv in Hfinal as ([] & w2 & _ & Hfinal).
  apply Prog_bind_inv in Hfinal as (inference & w3 & _ & Hfinal).
  apply Prog_bind_inv in Hfinal as (oracle & w4 & _ & Hfinal).
  destruct (get_model_times _). by injection Hfinal as <- _.
Qed.

Lemma benchmark_one_method_problem_polls problem method seeds lvl clocks :
  polls_on_return (length seeds)
    (benchmark_one_method_problem from_benchmark_results problem method seeds
       lvl clocks).
Proof.
  unfold benchmark_one_method_problem.
  replace (length seeds) with (length (imap pair seeds) * 1 + 0)
    by (rewrite length_imap; lia).
  apply polls_on_return_bind.
  - apply polls_on_return_mapM. intros it.
    apply benchmark_replication_polls_once.
  - intros results. apply polls_on_return_lift.
Qed.

End Sequences.

(** X14. When [benchmark_one_method_problem] returns, the aggregate is
    built from one result per seed, in the order of the seeds, each
    carrying its seed and an experiment stripped of its runner; the
    scheduler has been polled once per seed. *)
Theorem benchmark_one_method_problem_Returned `{Externals}
    {AggregatedBenchmarkResult : Type}
    (from_benchmark_results :
       list BenchmarkResult.t → Outcome AggregatedBenchmarkResult)
    (problem : BenchmarkProblem.t) (method : BenchmarkMethod.t)
    (seeds : list nat) (scheduler_logging_level : Z) (clocks : nat → Clock.t)
    (w : World.t) (aggregated : AggregatedBenchmarkResult) (w' : World.t) :
  benchmark_one_method_problem from_benchmark_results problem method seeds
    scheduler_logging_level clocks w
  = (Returned aggregated, w') →
  (∃ results,
     from_benchmark_results results = Returned aggregated
     ∧ Forall2
         (λ seed r,
            BenchmarkResult.seed r = seed
            ∧ Experiment.runner (BenchmarkResult.experiment r) = None)
         seeds results)
  ∧ ∃ new,
      World.calls w' = World.calls w ++ new ∧ polls new = length seeds.
Proof.
  intros Hrun. split.
  - unfold benchmark_one_method_problem in Hrun.
    apply Prog_bind_inv in Hrun as (results & w1 & Hresults & Haggregated).
    exists results. split.
    + unfold lift in Haggregated. by injection Haggregated as -> _.
    + rewrite <-(imap_pair_snd seeds). apply Forall2_fmap_l.
      eapply mapM_Prog_Forall2; [|exact Hresults].
      intros it w0 r w2 Hr. cbv beta in Hr.
      by eapply benchmark_replication_seed_and_runner.
  - by eapply benchmark_one_method_problem_polls.
Qed.

(** X15. When [benchmark_multiple_problems_methods] returns, it returns
    one aggregate per pair of a problem and a method; the scheduler has
    been polled once per problem, method and seed. *)
Theorem benchmark_multiple_problems_methods_Returned `{Externals}
    {AggregatedBenchmarkResult : Type}
    (from_benchmark_results :
       list BenchmarkResult.t → Outcome AggregatedBenchmarkResult)
    (problems : list BenchmarkProblem.t) (methods : list BenchmarkMethod.t)
    (seeds : list nat) (scheduler_logging_level : Z) (clocks : nat → Clock.t)
    (w : World.t) (aggregated : list AggregatedBenchmarkResult)
    (w' : World.t) :
  benchmark_multiple_problems_methods from_benchmark_results problems methods
    seeds scheduler_logging_level clocks w
  = (Returned aggregated, w') →
  length aggregated = length problems * length methods
  ∧ ∃ new,
      World.calls w' = World.calls w ++ new
      ∧ polls new = length problems * length methods * length seeds.
Proof.
  intros Hrun. unfold benchmark_multiple_problems_methods in Hrun.
  assert (length (imap pair (list_prod problems methods))
          = length problems * length methods) as Hlength.
  { by rewrite length_imap, length_prod. }
  split.
  - apply mapM_Prog_Returned_length in Hrun. by rewrite Hrun.
  - rewrite <-Hlength. revert Hrun. apply polls_on_return_mapM.
    intros it. apply benchmark_one_method_problem_polls.
Qed.

Lemma compute_baseline_value_from_sobol_polls `{Externals}
    optimization_config search_space test_function target_fidelity_and_task
    n_repeats clocks :
  polls_on_return n_repeats
    (compute_baseline_value_from_sobol optimization_config search_space
       test_function target_fidelity_and_task n_repeats clocks).
Proof.
  unfold compute_baseline_value_from_sobol.
  replace n_repeats with (length (seq 0 n_repeats) * (1 + 0) + 0) at 1
    by (rewrite length_seq; lia).
  apply polls_on_return_bind.
  - apply polls_on_return_mapM. intros i. apply polls_on_return_bind.
    + apply benchmark_replication_polls_once.
    + intros r. apply polls_on_return_lift.
  - intros values. apply polls_on_return_ret.
Qed.

(** X16. When [compute_baseline_value_from_sobol] returns, the scheduler
    has been polled once per repeat; with [n_repeats] at zero the call
    returns NaN, the mean of an empty array, and makes no call. *)
Theorem compute_baseline_value_from_sobol_Returned `{Externals}
    (optimization_config : OptimizationConfig.t) (search_space : SearchSpace)
    (test_function : BenchmarkTestFunction.t)
    (target_fidelity_and_task : option TParameterization)
    (n_repeats : nat) (clocks : nat → Clock.t) (w : World.t)
    (value : float) (w' : World.t) :
  compute_baseline_value_from_sobol optimization_config search_space
    test_function target_fidelity_and_task n_repeats clocks w
  = (Returned value, w') →
  (∃ new, World.calls w' = World.calls w ++ new ∧ polls new = n_repeats)
  ∧ (n_repeats = 0 → value = NaN ∧ w' = w).
Proof.
  intros Hrun. split.
  - by eapply compute_baseline_value_from_sobol_polls.
  - intros ->. by injection Hrun as <- <-.
Qed.

Lemma idle_none_completed problem method seed lvl clock :
  Forall none_completed
    (@replication_steps Cases.idle_externals problem method seed lvl clock).
Proof.
  constructor; [|constructor].
  unfold none_completed, currently_completed_trials. simpl.
  by rewrite map_filter_empty, dom_empty_L.
Qed.

Lemma idle_one_value_per_trial : @one_value_per_trial Cases.idle_externals.
Proof.
  intros experiment optimization_config. simpl. unfold Example.trace.
  by rewrite length_fmap, length_seq.
Qed.

Lemma replication_without_completed_trials_witness :
  ∃ r w',
    @benchmark_replication Cases.idle_externals Example.problem
      Example.method 0 true 20 Example.clock Example.world
    = (Returned r, w')
    ∧ BenchmarkResult.cost_trace r = [].
Proof.
  destruct (@replication_without_completed_trials Cases.idle_externals
              Example.problem Example.method 0 true 20 Example.clock
              Example.world
              (idle_none_completed Example.problem Example.method 0 20
                 Example.clock))
    as (r & w' & Hrun & Hcost & _).
  exists r, w'. split; [exact Hrun|exact Hcost].
Defined.

Lemma compute_baseline_value_from_sobol_Returned_witness :
  ∃ value w',
    @compute_baseline_value_from_sobol Example.externals
      (BenchmarkProblem.optimization_config Example.problem)
      (SearchSpaceRef 0) Example.test_function None 2 (λ _, Example.clock)
      Example.world
    = (Returned value, w')
    ∧ ∃ new,
        World.calls w' = World.calls Example.world ++ new ∧ polls new = 2.
Proof.
  destruct (@compute_baseline_value_from_sobol Example.externals
              (BenchmarkProblem.optimization_config Example.problem)
              (SearchSpaceRef 0) Example.test_function None 2
              (λ _, Example.clock) Example.world)
    as [[value|e] w'] eqn:Hrun.
  - exists value, w'. split; [reflexivity|].
    exact (proj1 (@compute_baseline_value_from_sobol_Returned
                    Example.externals
                    (BenchmarkProblem.optimization_config Example.problem)
                    (SearchSpaceRef 0) Example.test_function None 2
                    (λ _, Example.clock) Example.world value w' Hrun)).
  - vm_compute in Hrun. discriminate Hrun.
Defined.

Lemma compute_baseline_value_from_sobol_empty_trace_witness :
  (@compute_baseline_value_from_sobol Cases.idle_externals
     (BenchmarkProblem.optimization_config Example.problem)
     (SearchSpaceRef 0) Example.test_function None 1 (λ _, Example.clock)
     Example.world).1
  = Raised (IndexError "index -1 is out of bounds").
Proof.
  apply (@compute_baseline_value_from_sobol_empty_trace Cases.idle_externals).
  - lia.
  - exact idle_one_value_per_trial.
  - apply idle_none_completed.
Defined.

Lemma benchmark_one_method_problem_Returned_witness :
  ∃ aggregated w',
    @benchmark_one_method_problem Example.externals nat Cases.count_results
      Example.problem Example.method [0; 1] 20 (λ _, Example.clock)
      Example.world
    = (Returned aggregated, w')
    ∧ ∃ new,
        World.calls w' = World.calls Example.world ++ new ∧ polls new = 2.
Proof.
  destruct (@benchmark_one_method_problem Example.externals nat
              Cases.count_results Example.problem Example.method [0; 1] 20
              (λ _, Example.clock) Example.world)
    as [[aggregated|e] w'] eqn:Hrun.
  - exists aggregated, w'. split; [reflexivity|].
    exact (proj2 (@benchmark_one_method_problem_Returned
                    Example.externals nat Cases.count_results
                    Example.problem Example.method [0; 1] 20
                    (λ _, Example.clock) Example.world aggregated w'
                    Hrun)).
  - vm_compute in Hrun. discriminate Hrun.
Defined.

Lemma benchmark_multiple_problems_methods_Returned_witness :
  ∃ aggregated w',
    @benchmark_multiple_problems_methods Example.externals nat
      Cases.count_results [Example.problem; Example.multi_fidelity_problem]
      [Example.method] [0; 1] 20 (λ _, Example.clock) Example.world
    = (Returned aggregated, w')
    ∧ length aggregated = 2.
Proof.
  destruct (@benchmark_multiple_problems_methods Example.externals nat
              Cases.count_results
              [Example.problem; Example.multi_fidelity_problem]
              [Example.method] [0; 1] 20 (λ _, Example.clock) Example.world)
    as [[aggregated|e] w'] eqn:Hrun.
  - exists aggregated, w'. split; [reflexivity|].
    exact (proj1 (@benchmark_multiple_problems_methods_Returned
                    Example.externals nat Cases.count_results
                    [Example.problem; Example.multi_fidelity_problem]
                    [Example.method] [0; 1] 20 (λ _, Example.clock)
                    Example.world aggregated w' Hrun)).
  - vm_compute in Hrun. discriminate Hrun.
Defined.

(** ** Set-up and result of a replication *)

(** X17. The scheduler of a replication runs on the replication's
    experiment, which starts without trials; the status quo arm is there
    exactly when the problem gives status quo parameters, it is named
    [status_quo], and then the trials are batched and the status quo has
    weight 1, whatever the batch size; the runner allows as many
    concurrent trials as the scheduler allows pending ones. *)
Theorem replication_setup `{Externals}
    (problem : BenchmarkProblem.t) (method : BenchmarkMethod.t)
    (scheduler_logging_level : Z) (clock : Clock.t) :
  let experiment :=
    replication_experiment problem method scheduler_logging_level clock in
  let scheduler :=
    replication_scheduler problem method scheduler_logging_level clock in
  let options := Scheduler.options scheduler in
  Scheduler.experiment scheduler = experiment
  ∧ Experiment.trials experiment = ∅
  ∧ Experiment.status_quo experiment
    = Arm.mk "status_quo" <$> BenchmarkProblem.status_quo_params problem
  ∧ (SchedulerOptions.status_quo_weight options
     = match BenchmarkProblem.status_quo_params problem with
       | Some _ => 1%Qc
       | None => 0%Qc
       end)
  ∧ (SchedulerOptions.trial_type options = TRIAL →
     BenchmarkProblem.status_quo_params problem = None)
  ∧ ∃ runner,
      Experiment.runner experiment = Some runner
      ∧ BenchmarkRunner.max_concurrency runner
        = SchedulerOptions.max_pending_trials options
      ∧ BenchmarkRunner.max_concurrency runner
        = BenchmarkMethod.max_pending_trials method.
Proof.
  intros experiment scheduler options. split_and!.
  - done.
  - done.
  - unfold experiment, replication_experiment. simpl.
    by destruct (BenchmarkProblem.status_quo_params problem).
  - unfold options, scheduler, replication_scheduler, replication_experiment.
    simpl. by destruct (BenchmarkProblem.status_quo_params problem).
  - unfold options, scheduler, replication_scheduler, replication_experiment.
    simpl. destruct (BenchmarkProblem.status_quo_params problem); [|done].
    simpl. by rewrite orb_true_r.
  - by eexists.
Qed.

(** X18. The result of a replication carries the seed, and the experiment
    as of the last step the loop consumed (the experiment set up for the
    replication when the scheduler yielded no step), with its name and
    trials; its runner is removed when stripping is requested. *)
Theorem result_experiment_is_last_step `{Externals}
    (problem : BenchmarkProblem.t) (method : BenchmarkMethod.t)
    (seed : nat) (strip_runner_before_saving : bool)
    (scheduler_logging_level : Z) (clock : Clock.t) (w : World.t)
    (r : BenchmarkResult.t) (w' : World.t) :
  benchmark_replication problem method seed strip_runner_before_saving
    scheduler_logging_level clock w
  = (Returned r, w') →
  let experiment :=
    experiment_after
      (initial_loop_state problem method scheduler_logging_level clock)
      (replication_iterations problem method seed scheduler_logging_level
         clock w) in
  BenchmarkResult.experiment r
  = (if strip_runner_before_saving
     then Experiment.set_runner experiment None
     else experiment)
  ∧ BenchmarkResult.name r = Experiment.name experiment
  ∧ BenchmarkResult.seed r = seed
  ∧ Experiment.trials (BenchmarkResult.experiment r)
    = Experiment.trials experiment
  ∧ (strip_runner_before_saving = true →
     Experiment.runner (BenchmarkResult.experiment r) = None).
Proof.
  intros (st & w1 & Hrun & Hfinal)%benchmark_replication_Returned experiment.
  assert (Loop.experiment st = experiment) as Hexperiment.
  { by apply run_loop_experiment in Hrun. }
  unfold finalize_replication in Hfinal.
  apply Prog_bind_inv in Hfinal as ([] & w2 & _ & Hfinal).
  apply Prog_bind_inv in Hfinal as (inference & w3 & _ & Hfinal).
  apply Prog_bind_inv in Hfinal as (oracle & w4 & _ & Hfinal).
  destruct (get_model_times _). injection Hfinal as <- _.
  rewrite Hexperiment. simpl.
  by destruct strip_runner_before_saving.
Qed.

Lemma result_experiment_is_last_step_witness :
  ∃ r w',
    @benchmark_replication Example.externals Example.problem Example.method
      0 true 20 Example.clock Example.world
    = (Returned r, w')
    ∧ BenchmarkResult.seed r = 0.
Proof.
  destruct (@benchmark_replication Example.externals Example.problem
              Example.method 0 true 20 Example.clock Example.world)
    as [[r|e] w'] eqn:Hrun.
  - exists r, w'. split; [reflexivity|].
    exact (proj1 (proj2 (proj2 (@result_experiment_is_last_step
                                  Example.externals Example.problem
                                  Example.method 0 true 20 Example.clock
                                  Example.world r w' Hrun)))).
  - vm_compute in Hrun. discriminate Hrun.
Defined.

(** ** Initialization of a benchmark method *)

Module benchmark_method_properties.
Import benchmark_method.

Lemma set_fit_tracking_metrics_spec (step : GenerationStep.t) :
  let step' := (set_fit_tracking_metrics step).1 in
  GenerationStep.spec step' = GenerationStep.spec step
  ∧ ∃ model_kwargs',
      GenerationStep.model_kwargs step' = Some model_kwargs'
      ∧ model_kwargs' !! "fit_tracking_metrics"
        = Some (fit_tracking_metrics_after (GenerationStep.model_kwargs step))
      ∧ get_or_True model_kwargs' "fit_tracking_metrics" = false
      ∧ ∀ key,
          key ≠ "fit_tracking_metrics" →
          model_kwargs' !! key
          = default ∅ (GenerationStep.model_kwargs step) !! key.
Proof.
  unfold set_fit_tracking_metrics, fit_tracking_metrics_after, get_or_True.
  destruct step as [spec [model_kwargs|]]; simpl.
  - destruct (model_kwargs !! "fit_tracking_metrics") as [v|] eqn:Hv; simpl.
    + destruct (truthy v) eqn:Htruthy; simpl.
      * split; [done|]. eexists. split; [done|].
        rewrite lookup_insert_eq. split_and!; [done..|].
        intros key Hkey. by rewrite lookup_insert_ne.
      * split; [done|]. eexists. split; [done|].
        rewrite Hv. simpl. by split_and!.
    + split; [done|]. eexists. split; [done|].
      rewrite lookup_insert_eq. split_and!; [done..|].
      intros key Hkey. by rewrite lookup_insert_ne.
  - split; [done|]. eexists. split; [done|].
    rewrite lookup_insert_eq. split_and!; [done..|].
    intros key Hkey. by rewrite lookup_insert_ne.
Qed.

Lemma set_fit_tracking_metrics_warnings (step : GenerationStep.t) :
  (set_fit_tracking_metrics step).2
  = if decide (warned step) then [fit_tracking_metrics_warning] else [].
Proof.
  destruct (decide (warned step)) as [Hwarned|Hwarned];
    unfold warned in Hwarned; unfold set_fit_tracking_metrics;
    destruct step as [spec [model_kwargs|]]; simpl in *.
  - by rewrite Hwarned.
  - done.
  - by apply not_true_is_false in Hwarned as ->.
  - done.
Qed.

Lemma set_fit_tracking_metrics_idempotent (step : GenerationStep.t) :
  set_fit_tracking_metrics (set_fit_tracking_metrics step).1
  = ((set_fit_tracking_metrics step).1, []).
Proof.
  destruct (set_fit_tracking_metrics_spec step)
    as (Hspec & model_kwargs' & Hkwargs & _ & Hget & _).
  destruct (set_fit_tracking_metrics step).1 as [spec' kwargs'].
  simpl in *. subst kwargs'.
  unfold set_fit_tracking_metrics. simpl. by rewrite Hget.
Qed.

Lemma concat_warnings (steps : list GenerationStep.t) :
  concat ((set_fit_tracking_metrics <$> steps).*2)
  = replicate (length (filter warned steps)) fit_tracking_metrics_warning.
Proof.
  induction steps as [|step steps IH]; [done|].
  rewrite !fmap_cons, filter_cons. cbn [concat]. rewrite IH.
  rewrite set_fit_tracking_metrics_warnings.
  by destruct (decide (warned step)).
Qed.

(** X19. [__post_init__] raises [NotImplementedError] exactly when the
    generation strategy is node-based, and then logs nothing; otherwise it
    returns the method with its name, scheduler options and distribution
    flag unchanged, over the cloned strategy with as many steps as the
    clone has. *)
Theorem post_init_node_based
    (clone_reset : Strategy.t → Strategy.t) (self : t) :
  (Strategy.is_node_based (generation_strategy self) = true
   ↔ __post_init__ clone_reset self = NotImplementedError node_based_message)
  ∧ (Strategy.is_node_based (generation_strategy self) = false
     ↔ ∃ self' warnings,
         __post_init__ clone_reset self = Initialized self' warnings
         ∧ name self' = name self
         ∧ scheduler_options self' = scheduler_options self
         ∧ distribute_replications self' = distribute_replications self
         ∧ length (Strategy._steps (generation_strategy self'))
           = length
               (Strategy._steps (clone_reset (generation_strategy self)))).
Proof.
  unfold __post_init__.
  destruct (Strategy.is_node_based (generation_strategy self)); split.
  - done.
  - split; [done|]. by intros (? & ? & ? & _).
  - done.
  - split; [|done]. intros _. eexists _, _. split; [done|]. simpl.
    by rewrite !length_fmap.
Qed.

(** X20. After [__post_init__], every step of the method's generation
    strategy has a [model_kwargs] dictionary in which
    [fit_tracking_metrics] is present and false in the sense of Python's
    truth value: it is [False] when the cloned step had no dictionary, no
    such key or a true value, and the value the clone had when that was
    already false, such as 0 or None; every other key is as in the clone;
    and the warning is logged once per step whose value was absent or
    true. *)
Theorem post_init_fit_tracking_metrics
    (clone_reset : Strategy.t → Strategy.t) (self self' : t)
    (warnings : list string) :
  __post_init__ clone_reset self = Initialized self' warnings →
  let cloned := Strategy._steps (clone_reset (generation_strategy self)) in
  Forall2
    (λ step step',
       GenerationStep.spec step' = GenerationStep.spec step
       ∧ ∃ model_kwargs',
           GenerationStep.model_kwargs step' = Some model_kwargs'
           ∧ model_kwargs' !! "fit_tracking_metrics"
             = Some (fit_tracking_metrics_after
                       (GenerationStep.model_kwargs step))
           ∧ get_or_True model_kwargs' "fit_tracking_metrics" = false
           ∧ ∀ key,
               key ≠ "fit_tracking_metrics" →
               model_kwargs' !! key
               = default ∅ (GenerationStep.model_kwargs step) !! key)
    cloned (Strategy._steps (generation_strategy self'))
  ∧ warnings
    = replicate (length (filter warned cloned)) fit_tracking_metrics_warning.
Proof.
  unfold __post_init__.
  destruct (Strategy.is_node_based (generation_strategy self)); [done|].
  intros [= <- <-]. simpl. split.
  - rewrite <-list_fmap_compose. apply Forall2_fmap_r, Forall_Forall2_diag.
    apply Forall_forall. intros step _.
    apply set_fit_tracking_metrics_spec.
  - apply concat_warnings.
Qed.

(** X21. Initialization is idempotent when cloning keeps the steps and
    the flag of a strategy: initializing the method returned by
    [__post_init__] again returns it as it is and logs no warning. *)
Theorem post_init_idempotent
    (clone_reset : Strategy.t → Strategy.t) (self self' : t)
    (warnings : list string) :
  (∀ gs, clone_reset gs = gs) →
  __post_init__ clone_reset self = Initialized self' warnings →
  __post_init__ clone_reset self' = Initialized self' [].
Proof.
  intros Hclone. unfold __post_init__. rewrite !Hclone.
  destruct (Strategy.is_node_based (generation_strategy self)) eqn:Hnode;
    [done|].
  intros [= <- _]. simpl.
  set (steps := Strategy._steps (generation_strategy self)).
  assert (set_fit_tracking_metrics <$> (set_fit_tracking_metrics <$> steps).*1
          = (λ step, (step, [])) <$> (set_fit_tracking_metrics <$> steps).*1)
    as ->.
  { rewrite <-!list_fmap_compose. apply list_fmap_ext. intros i step _.
    simpl. apply set_fit_tracking_metrics_idempotent. }
  f_equal.
  - unfold _assign_frozen_attr. simpl. f_equal. f_equal.
    rewrite <-!list_fmap_compose. by apply list_fmap_ext.
  - induction steps as [|step steps' IH]; [done|]. exact IH.
Qed.

Lemma post_init_fit_tracking_metrics_witness :
  ∃ self' warnings,
    __post_init__ id example_method = Initialized self' warnings
    ∧ warnings
      = replicate
          (length (filter warned (Strategy._steps example_strategy)))
          fit_tracking_metrics_warning.
Proof.
  eexists _, _. split; [reflexivity|].
  exact (proj2 (post_init_fit_tracking_metrics id example_method _ _
                  eq_refl)).
Defined.

Lemma post_init_idempotent_witness :
  ∃ self' warnings,
    __post_init__ id example_method = Initialized self' warnings
    ∧ __post_init__ id self' = Initialized self' [].
Proof.
  eexists _, _. split; [reflexivity|].
  exact (post_init_idempotent id example_method _ _ (λ gs, eq_refl)
           eq_refl).
Defined.

End benchmark_method_properties.

(** ** Degenerate case of the score *)

(** X23. When the baseline and the optimal value are the same finite
    number, nothing is raised: the score trace is as long as the trace
    and a trace value equal to the two scores NaN. With baseline 0 and
    optimum 0 the value 1 scores +inf and the value -1 scores -inf; with
    baseline 0.0 and optimum -0.0, which are equal as numbers, the value 1
    scores -inf. *)
Theorem compute_score_trace_degenerate
    (optimization_trace : list float) (value : float) (i : nat) :
  finite value →
  let score_trace := compute_score_trace optimization_trace value value in
  length score_trace = length optimization_trace
  ∧ (optimization_trace !! i = Some value → score_trace !! i = Some NaN)
  ∧ (compute_score_trace [1; -1] 0 0 = [PosInf; NegInf]
     ∧ (-0 =? 0) = true
     ∧ compute_score_trace [1] 0 (-0) = [NegInf])%float.
Proof.
  intros Hfinite score_trace. split; [|split].
  - unfold score_trace, compute_score_trace. by rewrite length_fmap.
  - intros Hi. unfold score_trace.
    rewrite compute_score_trace_lookup, Hi. simpl. f_equal.
    apply Prim2SF_nan.
    by rewrite div_spec, mul_spec, (sub_diag_finite value Hfinite).
  - split_and!; reflexivity.
Qed.

Lemma compute_score_trace_degenerate_witness :
  finite 5%float
  ∧ compute_score_trace [5; 7]%float 5%float 5%float !! 0 = Some NaN.
Proof.
  assert (finite 5%float) as Hfinite by exact I.
  split; [exact Hfinite|].
  exact (proj1 (proj2 (compute_score_trace_degenerate [5; 7]%float 5%float
                         0 Hfinite))
           eq_refl).
Defined.

(** ** Failures of the cost accumulator and of the best-point request *)

Lemma mapM_Outcome_Raised {A B} (f : A → Outcome B) (l : list A) :
  Exists (λ a, ∃ e, f a = Raised e) l →
  ∃ a e, a ∈ l ∧ f a = Raised e ∧ mapM f l = Raised e.
Proof.
  induction l as [|a l IH]; intros Hl; [by apply Exists_nil in Hl|].
  cbn [mapM]. destruct (f a) as [b|e] eqn:Ha.
  - apply Exists_cons in Hl as [[e He]|Hl]; [congruence|].
    destruct (IH Hl) as (a' & e & Hin & Ha' & Hmap).
    exists a', e. split_and!; [by right|done|].
    cbn. by rewrite Hmap.
  - exists a, e. split_and!; [by left|done..].
Qed.

(** X24. [_get_cumulative_cost] raises a type error when the experiment
    has no benchmark runner; without simulated backend it raises a key
    error for a trial index that is not a trial of the experiment; so it
    returns exactly when there is a runner and either this runner has a
    simulated backend or every index passed is a trial of the
    experiment. *)
Theorem _get_cumulative_cost_errors `{Externals}
    (previous_cost : Qc) (new_trials : gset nat) (experiment : Experiment.t) :
  let result := _get_cumulative_cost previous_cost new_trials experiment in
  (Experiment.runner experiment = None →
   result = Raised (TypeError "expected BenchmarkRunner"))
  ∧ (∀ runner,
       Experiment.runner experiment = Some runner →
       BenchmarkRunner.simulated_backend_runner runner = None →
       ¬ (new_trials ⊆ dom (Experiment.trials experiment)) →
       ∃ i,
         i ∈ new_trials
         ∧ (i ∉ dom (Experiment.trials experiment))
         ∧ result = Raised (KeyError i))
  ∧ ((∃ cost, result = Returned cost)
     ↔ ∃ runner,
         Experiment.runner experiment = Some runner
         ∧ (is_Some (BenchmarkRunner.simulated_backend_runner runner)
            ∨ new_trials ⊆ dom (Experiment.trials experiment))).
Proof.
  intros result.
  assert (∀ runner,
            Experiment.runner experiment = Some runner →
            BenchmarkRunner.simulated_backend_runner runner = None →
            ¬ (new_trials ⊆ dom (Experiment.trials experiment)) →
            ∃ i,
              i ∈ new_trials
              ∧ (i ∉ dom (Experiment.trials experiment))
              ∧ result = Raised (KeyError i)) as Hkey.
  { intros runner Hrunner Hsim Hdom.
    unfold result, _get_cumulative_cost. rewrite Hrunner. cbn.
    rewrite Hsim.
    edestruct (mapM_Outcome_Raised
                 (λ i,
                    trial ← lookup_trial experiment i;
                    mret (get_total_runtime trial
                            (BenchmarkRunner.step_runtime_function runner)
                            (BenchmarkTestFunction.n_steps
                               (BenchmarkRunner.test_function runner))))
                 (elements new_trials)) as (i & e & Hin & Hi & ->).
    { apply Exists_exists.
      destruct (decide (Forall (λ i, i ∈ dom (Experiment.trials experiment))
                          (elements new_trials))) as [Hall|Hsome].
      - destruct Hdom. intros i Hi%elem_of_elements.
        by eapply Forall_forall in Hall.
      - apply not_Forall_Exists in Hsome; [|intros i; apply _].
        apply Exists_exists in Hsome as (i & Hin & Hi).
        exists i. split; [done|]. unfold lookup_trial.
        apply not_elem_of_dom in Hi. rewrite Hi. by eexists. }
    exists i. unfold lookup_trial in Hi.
    destruct (Experiment.trials experiment !! i) as [trial|] eqn:Htrial;
      [done|].
    injection Hi as <-. split_and!; [by apply elem_of_elements| |done].
    by apply not_elem_of_dom. }
  split_and!; [|exact Hkey|].
  - intros Hrunner. unfold result, _get_cumulative_cost. by rewrite Hrunner.
  - split.
    + intros [cost Hcost].
      destruct (Experiment.runner experiment) as [runner|] eqn:Hrunner.
      * exists runner. split; [done|].
        destruct (BenchmarkRunner.simulated_backend_runner runner) eqn:Hsim;
          [by left|right].
        destruct (decide (new_trials ⊆ dom (Experiment.trials experiment)))
          as [Hdom|Hdom]; [done|].
        destruct (Hkey runner eq_refl Hsim Hdom) as (i & _ & _ & Hi).
        congruence.
      * unfold result, _get_cumulative_cost in Hcost.
        by rewrite Hrunner in Hcost.
    + intros (runner & Hrunner & [[sbr Hsim]|Hdom]).
      * eexists. by eapply _get_cumulative_cost_simulated.
      * by eapply _get_cumulative_cost_total.
Qed.

(** X25. In a replication whose inference trace is supported, an
    iteration with newly completed trials in which the method returns no
    best parameterization, or more than one, ends the loop with the
    unpacking error, right after the request for the best parameters;
    the steps that follow are not consumed. *)
Theorem loop_raises_unless_one_best_point `{Externals}
    (problem : BenchmarkProblem.t) (method : BenchmarkMethod.t)
    (start : Qc) (st : Loop.t) (step : Step.t) (steps : list Step.t)
    (w : World.t) (best : list TParameterization) :
  inference_supported problem = true →
  productive (st, step) →
  is_Some (Experiment.runner (Step.experiment step)) →
  get_best_parameters method (Step.experiment step)
    (BenchmarkProblem.optimization_config problem)
    (BenchmarkProblem.n_best_points problem)
  = Returned best →
  length best ≠ 1 →
  let result := run_loop problem method start (step :: steps) st w in
  (∃ msg,
     unpack_single best = Raised (ValueError msg)
     ∧ result.1 = Raised (ValueError msg))
  ∧ World.calls result.2
    = World.calls w ++ [best_point_call problem (st, step)]
  ∧ iterations problem method start (step :: steps) st w = [(st, step)].
Proof.
  intros Hsupported Hproductive Hrunner Hbest Hlength result.
  assert (newly_completed_trials st step
          ⊆ dom (Experiment.trials (Step.experiment step))) as Hdom.
  { etrans; [apply newly_completed_trials_subseteq|].
    apply currently_completed_trials_dom. }
  destruct (_get_cumulative_cost_total (Loop.cost st) _ _ Hrunner Hdom)
    as [cost Hcost].
  pose proof (newly_evaluated_arms_total _ _ Hdom) as Harms.
  assert (∃ msg, unpack_single best = Raised (ValueError msg))
    as [msg Hunpack].
  { destruct best as [|b [|b' best]]; simpl; [by eexists|done|by eexists]. }
  assert (loop_body problem method start st step w
          = (Raised (ValueError msg),
             World.mk (World.log_levels w)
               (World.calls w ++ [best_point_call problem (st, step)])))
    as Hbody.
  { unfold loop_body, record_newly_completed. prog_simpl.
    rewrite bool_decide_eq_true_2 by done.
    rewrite Hcost, Harms. fold (inference_supported problem).
    rewrite Hsupported, Hbest. simpl. by rewrite Hunpack. }
  unfold result. rewrite run_loop_cons, iterations_cons, Hbody.
  split_and!; [by exists msg|done..].
Qed.

Lemma loop_raises_unless_one_best_point_witness :
  World.calls
    (@run_loop Example.externals Cases.two_best_points_problem Example.method
       0%Qc [Example.step_of Example.scheduler 0]
       (initial_loop_state Cases.two_best_points_problem Example.method 20
          Example.clock)
       Example.world).2
  = World.calls Example.world
    ++ [best_point_call Cases.two_best_points_problem
          (initial_loop_state Cases.two_best_points_problem Example.method
             20 Example.clock,
           Example.step_of Example.scheduler 0)].
Proof.
  apply (@loop_raises_unless_one_best_point Example.externals
           Cases.two_best_points_problem Example.method 0%Qc
           (initial_loop_state Cases.two_best_points_problem Example.method
              20 Example.clock)
           (Example.step_of Example.scheduler 0) [] Example.world
           (replicate 2 {["x" := PInt 0]})).
  - reflexivity.
  - unfold productive. vm_compute. lia.
  - by eexists.
  - reflexivity.
  - simpl. lia.
Defined.

(** ** Values of the traces *)

Lemma Forall2_compose {A B C} (R : A → B → Prop) (S : B → C → Prop)
    (l : list A) (k : list B) (m : list C) :
  Forall2 R l k → Forall2 S k m →
  Forall2 (λ a c, ∃ b, R a b ∧ S b c) l m.
Proof.
  intros Hlk. revert m. induction Hlk as [|a b l k Hab _ IH]; intros m Hkm.
  - apply Forall2_nil_inv_l in Hkm as ->. constructor.
  - apply Forall2_cons_inv_l in Hkm as (c & m' & Hbc & Hkm' & ->).
    constructor; [by exists b|by apply IH].
Qed.

Section TraceValues.
Context `{Externals}.

Lemma _get_oracle_value_of_params_Returned params problem w value w' :
  _get_oracle_value_of_params params problem w = (Returned value, w') →
  oracle_value_of problem params value.
Proof.
  unfold _get_oracle_value_of_params, oracle_value_of.
  intros (e & w1 & Hrun & Hvalue)%Prog_bind_inv.
  apply get_oracle_experiment_from_params_Returned in Hrun as [_ ->];
    [|done].
  unfold lift in Hvalue.
  destruct (_get_trace _ _) as [|v [|??]]; simpl in Hvalue; try done.
  by injection Hvalue as <- _.
Qed.

Lemma finalize_replication_inference_trace problem seed strip st w r w' :
  finalize_replication problem seed strip st w = (Returned r, w') →
  Forall2 (oracle_value_of problem) (Loop.best_params_list st)
    (BenchmarkResult.inference_trace r).
Proof.
  unfold finalize_replication. intros Hfinal.
  apply Prog_bind_inv in Hfinal as ([] & w2 & _ & Hfinal).
  apply Prog_bind_inv in Hfinal as (inference & w3 & Hinference & Hfinal).
  apply Prog_bind_inv in Hfinal as (oracle & w4 & _ & Hfinal).
  destruct (get_model_times _). injection Hfinal as <- _. simpl.
  eapply mapM_Prog_Forall2; [|exact Hinference].
  intros params w0 value w1 Hvalue. cbv beta in Hvalue.
  exact (_get_oracle_value_of_params_Returned _ _ _ _ _ Hvalue).
Qed.

End TraceValues.

(** X26. When the inference trace is supported, the inference trace of
    the result holds, for each iteration with newly completed trials, the
    oracle value of the best parameterization the method returned in that
    iteration: the single value of the trace of an oracle experiment with
    that parameterization as its only arm. *)
Theorem inference_trace_values `{Externals}
    (problem : BenchmarkProblem.t) (method : BenchmarkMethod.t)
    (seed : nat) (strip_runner_before_saving : bool)
    (scheduler_logging_level : Z) (clock : Clock.t) (w : World.t)
    (r : BenchmarkResult.t) (w' : World.t) :
  inference_supported problem = true →
  benchmark_replication problem method seed strip_runner_before_saving
    scheduler_logging_level clock w
  = (Returned r, w') →
  Forall2
    (λ it value,
       ∃ best_params,
         best_of_iteration problem method it best_params
         ∧ oracle_value_of problem best_params value)
    (filter productive
       (replication_iterations problem method seed scheduler_logging_level
          clock w))
    (BenchmarkResult.inference_trace r).
Proof.
  intros Hsupported
    (st & w1 & Hrun & Hfinal)%benchmark_replication_Returned.
  apply finalize_replication_inference_trace in Hfinal.
  destruct (run_loop_Returned _ _ _ _ _ _ _ _ Hrun)
    as (costs & evaluated & best & new & _ & _ & Hbest & _ & _ & _ & Hbests).
  rewrite Hsupported in Hbests. destruct Hbests as [Hbests _].
  simpl in Hbest. rewrite Hbest in Hfinal.
  by eapply Forall2_compose.
Qed.

Lemma inference_trace_values_witness :
  ∃ r w',
    @benchmark_replication Example.externals Example.problem Example.method
      0 true 20 Example.clock Example.world
    = (Returned r, w')
    ∧ Forall2
        (λ it value,
           ∃ best_params,
             @best_of_iteration Example.externals Example.problem
               Example.method it best_params
             ∧ @oracle_value_of Example.externals Example.problem
                 best_params value)
        (filter productive
           (@replication_iterations Example.externals Example.problem
              Example.method 0 20 Example.clock Example.world))
        (BenchmarkResult.inference_trace r).
Proof.
  destruct (@benchmark_replication Example.externals Example.problem
              Example.method 0 true 20 Example.clock Example.world)
    as [[r|e] w'] eqn:Hrun.
  - exists r, w'. split; [reflexivity|].
    exact (@inference_trace_values Example.externals Example.problem
             Example.method 0 true 20 Example.clock Example.world r w'
             eq_refl Hrun).
  - vm_compute in Hrun. discriminate Hrun.
Defined.

(** X27. In the result of a replication the optimization trace is the
    inference trace or the oracle trace, as the problem's flag says, and
    the score trace is computed from it, position by position; so when
    the problem reports the inference value as trace but its inference
    trace is not supported, the optimization trace and the score trace
    are empty, whatever trials completed. *)
Theorem result_traces `{Externals}
    (problem : BenchmarkProblem.t) (method : BenchmarkMethod.t)
    (seed : nat) (strip_runner_before_saving : bool)
    (scheduler_logging_level : Z) (clock : Clock.t) (w : World.t)
    (r : BenchmarkResult.t) (w' : World.t) :
  benchmark_replication problem method seed strip_runner_before_saving
    scheduler_logging_level clock w
  = (Returned r, w') →
  BenchmarkResult.optimization_trace r
  = (if BenchmarkProblem.report_inference_value_as_trace problem
     then BenchmarkResult.inference_trace r
     else BenchmarkResult.oracle_trace r)
  ∧ BenchmarkResult.score_trace r
    = compute_score_trace (BenchmarkResult.optimization_trace r)
        (BenchmarkProblem.baseline_value problem)
        (BenchmarkProblem.optimal_value problem)
  ∧ length (BenchmarkResult.score_trace r)
    = length (BenchmarkResult.optimization_trace r)
  ∧ (BenchmarkProblem.report_inference_value_as_trace problem = true →
     inference_supported problem = false →
     BenchmarkResult.optimization_trace r = []
     ∧ BenchmarkResult.score_trace r = []).
Proof.
  intros Hrun.
  pose proof Hrun as (st & w1 & _ & Hfinal)%benchmark_replication_Returned.
  apply finalize_replication_Returned in Hfinal
    as (_ & _ & _ & Hopt & Hscore & _).
  split_and!; [done..| |].
  - rewrite Hscore. unfold compute_score_trace. by rewrite length_fmap.
  - intros Hflag Hunsupported.
    apply benchmark_replication_traces in Hrun
      as (? & ? & ? & _ & _ & _ & _ & _ & Hlength).
    rewrite Hunsupported in Hlength. apply nil_length_inv in Hlength.
    rewrite Hscore, Hopt, Hflag, Hlength. done.
Qed.

Lemma result_traces_witness :
  ∃ r w',
    @benchmark_replication Example.externals Example.problem Example.method
      0 true 20 Example.clock Example.world
    = (Returned r, w')
    ∧ length (BenchmarkResult.score_trace r)
      = length (BenchmarkResult.optimization_trace r).
Proof.
  destruct (@benchmark_replication Example.externals Example.problem
              Example.method 0 true 20 Example.clock Example.world)
    as [[r|e] w'] eqn:Hrun.
  - exists r, w'. split; [reflexivity|].
    exact (proj1 (proj2 (proj2 (@result_traces Example.externals
                                  Example.problem Example.method 0 true 20
                                  Example.clock Example.world r w' Hrun)))).
  - vm_compute in Hrun. discriminate Hrun.
Defined.

(** ** Requests whose keys are not the trial indices *)

Section Misaligned.
Context `{Externals}.
Implicit Types items : dict nat (dict string TParameterization).

(** The loop over a well-keyed, non-empty prefix of the requests. *)
Lemma attach_and_run_trials_prefix problem pre rest experiment w :
  dom (Experiment.trials experiment)
  = set_seq 0 (size (Experiment.trials experiment)) →
  pre.*1 = seq (size (Experiment.trials experiment)) (length pre) →
  Forall (λ it, it.2 ≠ []) pre →
  attach_and_run_trials problem (zero_noise_runner problem) (pre ++ rest)
    experiment w
  = attach_and_run_trials problem (zero_noise_runner problem) rest
      (Experiment.with_trials experiment
         (oracle_trials problem pre (Experiment.trials experiment)))
      (World.mk (World.log_levels w)
         (World.calls w ++ oracle_calls problem pre)).
Proof.
  revert experiment w.
  induction pre as [|[i d] pre IH]; intros experiment w Hdom; cbn.
  - intros _ _. destruct experiment, w. cbn. by rewrite app_nil_r.
  - intros [= -> Hkeys] [Hd Hpre]%Forall_cons. cbn in Hd.
    rewrite bool_decide_eq_false_2 by (by destruct d).
    assert (Experiment.trials experiment
              !! size (Experiment.trials experiment) = None) as Hfresh.
    { apply not_elem_of_dom. rewrite Hdom, elem_of_set_seq. lia. }
    unfold attach_trial, lookup_trial. prog_simpl. cbn.
    rewrite lookup_insert_eq. cbn. rewrite insert_insert_eq.
    set (trial := Trial.mark_completed _).
    set (experiment' := Experiment.with_trials _ _).
    assert (size (Experiment.trials experiment')
            = S (size (Experiment.trials experiment))) as Hsize.
    { unfold experiment'. rewrite trials_with_trials.
      by rewrite map_size_insert_None. }
    rewrite (IH experiment').
    + unfold experiment', trial. destruct experiment. simpl.
      rewrite <-!app_assoc. reflexivity.
    + rewrite Hsize. unfold experiment'. rewrite trials_with_trials.
      by rewrite dom_insert_L, Hdom, set_seq_S_end_union_L.
    + by rewrite Hsize.
    + done.
Qed.

Lemma dom_oracle_trials_empty problem pre :
  pre.*1 = seq 0 (length pre) →
  dom (oracle_trials problem pre ∅) = set_seq 0 (length pre).
Proof.
  intros Hkeys.
  by rewrite (dom_oracle_trials _ _ _ 0) by (done || by rewrite dom_empty_L).
Qed.

Lemma size_oracle_trials_empty problem pre :
  pre.*1 = seq 0 (length pre) →
  size (oracle_trials problem pre ∅) = length pre.
Proof.
  intros Hkeys.
  by rewrite <-size_dom, dom_oracle_trials_empty, size_set_seq.
Qed.

End Misaligned.

(** X28. When the requests up to some position are keyed 0, 1, 2, ... and
    hold arms, and the next request holds arms under a key above the
    index its trial gets, the oracle evaluator attaches that trial and
    then raises a key error for the key: the trial is not run, the
    requests that follow are not looked at, and the experiment logger
    stays at WARNING. *)
Theorem oracle_key_above_next_index `{Externals}
    (problem : BenchmarkProblem.t)
    (pre : dict nat (dict string TParameterization)) (i : nat)
    (d : dict string TParameterization)
    (post : dict nat (dict string TParameterization)) (w : World.t) :
  pre.*1 = seq 0 (length pre) →
  Forall (λ it, it.2 ≠ []) pre →
  d ≠ [] →
  length pre < i →
  get_oracle_experiment_from_params problem (pre ++ (i, d) :: post) w
  = (Raised (KeyError i),
     World.mk (<["ax.core.experiment" := WARNING]> (World.log_levels w))
       (World.calls w ++ oracle_calls problem pre
        ++ [AttachTrial (merged_parameterizations problem d) (d.*1)])).
Proof.
  intros Hkeys Hpre Hd Hi. unfold get_oracle_experiment_from_params.
  prog_simpl. fold (zero_noise_runner problem).
  rewrite attach_and_run_trials_prefix; [|done..].
  cbn [attach_and_run_trials].
  rewrite bool_decide_eq_false_2 by (by destruct d).
  unfold attach_trial, lookup_trial. prog_simpl. cbn.
  rewrite size_oracle_trials_empty by done.
  rewrite lookup_insert_ne by lia.
  assert (oracle_trials problem pre ∅ !! i = None) as ->.
  { apply not_elem_of_dom. rewrite dom_oracle_trials_empty by done.
    rewrite elem_of_set_seq. lia. }
  simpl. by rewrite insert_insert_eq, <-!app_assoc.
Qed.

Lemma oracle_key_above_next_index_witness :
  @get_oracle_experiment_from_params Example.externals Example.problem
    ([] ++ (1, Cases.one_arm) :: []) Example.world
  = (Raised (KeyError 1),
     World.mk
       (<["ax.core.experiment" := WARNING]>
          (World.log_levels Example.world))
       (World.calls Example.world ++ oracle_calls Example.problem []
        ++ [AttachTrial
              (merged_parameterizations Example.problem Cases.one_arm)
              (Cases.one_arm.*1)])).
Proof.
  apply (@oracle_key_above_next_index Example.externals Example.problem []
           1 Cases.one_arm [] Example.world).
  - reflexivity.
  - constructor.
  - discriminate.
  - simpl. lia.
Defined.

(** ** Arms evaluated in an iteration, and their dictionary *)

Lemma dict_set_keys {K V} `{EqDecision K} (k : K) (v : V) (d : dict K V) :
  (dict_set k v d).*1 = if decide (k ∈ d.*1) then d.*1 else d.*1 ++ [k].
Proof.
  induction d as [|[k' v'] d IH].
  - destruct (decide (k ∈ ([] : dict K V).*1)) as [Hin|_]; [|done].
    by apply not_elem_of_nil in Hin.
  - cbn [dict_set]. rewrite fmap_cons. cbn [fst].
    destruct (decide (k = k')) as [->|Hne].
    + destruct (decide (k' ∈ k' :: d.*1)) as [_|Hin]; [done|].
      destruct Hin. by left.
    + rewrite fmap_cons, IH. cbn [fst].
      destruct (decide (k ∈ d.*1)) as [Hin|Hin];
        destruct (decide (k ∈ k' :: d.*1)) as [Hin'|Hin']; try done.
      * destruct Hin'. by right.
      * apply elem_of_cons in Hin' as [?|?]; done.
Qed.

Lemma dict_set_fresh {K V} `{EqDecision K} (k : K) (v : V) (d : dict K V) :
  k ∉ d.*1 → dict_set k v d = d ++ [(k, v)].
Proof.
  induction d as [|[k' v'] d IH]; simpl; [done|].
  intros Hk. apply not_elem_of_cons in Hk as [Hne Hk].
  rewrite decide_False by done. by rewrite IH.
Qed.

Lemma dict_of_arms_snoc arms arm :
  dict_of_arms (arms ++ [arm])
  = dict_set (Arm.name arm) (Arm.parameters arm) (dict_of_arms arms).
Proof. unfold dict_of_arms. by rewrite foldl_app. Qed.

Lemma dict_of_arms_keys_elem_of arms name :
  name ∈ (dict_of_arms arms).*1 ↔ name ∈ Arm.name <$> arms.
Proof.
  induction arms as [|arm arms IH] using rev_ind; [done|].
  rewrite dict_of_arms_snoc, dict_set_keys, fmap_app. simpl.
  destruct (decide (Arm.name arm ∈ (dict_of_arms arms).*1)) as [Hin|Hin].
  - rewrite IH, elem_of_app, list_elem_of_singleton. split; [by left|].
    intros [?| ->]; [done|]. by apply IH.
  - rewrite !elem_of_app, IH. done.
Qed.

Lemma dict_of_arms_keys_NoDup arms : NoDup (dict_of_arms arms).*1.
Proof.
  induction arms as [|arm arms IH] using rev_ind; [constructor|].
  rewrite dict_of_arms_snoc, dict_set_keys.
  destruct (decide (Arm.name arm ∈ (dict_of_arms arms).*1)) as [Hin|Hin];
    [done|].
  apply NoDup_app. split_and!; [done| |apply NoDup_singleton].
  intros name Hname ->%list_elem_of_singleton. done.
Qed.

(** X29. The dictionary that [_get_oracle_trace_from_arms] builds from a
    group of arms has one entry per arm name: its keys are the names of
    the arms without repetition, so it has no more entries than there are
    arms; and when no two arms share a name, it lists the name and the
    parameters of every arm, in the order of the arms. *)
Theorem dict_of_arms_spec (arms : list Arm.t) :
  NoDup (dict_of_arms arms).*1
  ∧ (∀ name, name ∈ (dict_of_arms arms).*1 ↔ name ∈ Arm.name <$> arms)
  ∧ length (dict_of_arms arms) ≤ length arms
  ∧ (NoDup (Arm.name <$> arms) →
     dict_of_arms arms
     = (λ arm, (Arm.name arm, Arm.parameters arm)) <$> arms).
Proof.
  split_and!.
  - apply dict_of_arms_keys_NoDup.
  - apply dict_of_arms_keys_elem_of.
  - rewrite <-(length_fmap fst (dict_of_arms arms)).
    rewrite <-(length_fmap Arm.name arms).
    apply submseteq_length, NoDup_submseteq.
    + apply dict_of_arms_keys_NoDup.
    + intros name. by rewrite dict_of_arms_keys_elem_of.
  - induction arms as [|arm arms IH] using rev_ind; [done|].
    rewrite fmap_app. intros [Hnames [Hname _]]%NoDup_app.
    rewrite dict_of_arms_snoc, fmap_app, <-IH by done. simpl.
    apply dict_set_fresh. rewrite dict_of_arms_keys_elem_of.
    intros Hin. apply (Hname _ Hin). by left.
Qed.

(** X30. When the newly completed trials are trials of the experiment,
    the arms recorded for the iteration are the arms of these trials,
    each once: an arm is recorded exactly if it is an arm of one of the
    newly completed trials; when some index is not a trial of the
    experiment, a key error is raised instead. *)
Theorem newly_evaluated_arms_spec
    (experiment : Experiment.t) (newly_completed_trials : gset nat) :
  let result := newly_evaluated_arms experiment newly_completed_trials in
  (newly_completed_trials ⊆ dom (Experiment.trials experiment) →
   ∃ arms,
     result = Returned arms
     ∧ NoDup arms
     ∧ ∀ arm,
         arm ∈ arms
         ↔ ∃ i trial,
             i ∈ newly_completed_trials
             ∧ Experiment.trials experiment !! i = Some trial
             ∧ arm ∈ Trial.arms trial)
  ∧ (¬ (newly_completed_trials ⊆ dom (Experiment.trials experiment)) →
     ∃ i,
       i ∈ newly_completed_trials
       ∧ (i ∉ dom (Experiment.trials experiment))
       ∧ result = Raised (KeyError i)).
Proof.
  intros result. split.
  - intros Hdom. eexists. split; [by apply newly_evaluated_arms_total|].
    split; [apply NoDup_remove_dups|].
    intros arm. rewrite elem_of_remove_dups, elem_of_concat. split.
    + intros (l & Harm & Hl).
      apply list_elem_of_fmap in Hl as (i & -> & Hi%elem_of_elements).
      destruct (Experiment.trials experiment !! i) as [trial|] eqn:Htrial;
        [|by apply not_elem_of_nil in Harm].
      by exists i, trial.
    + intros (i & trial & Hi & Htrial & Harm).
      exists (Trial.arms trial). split; [done|].
      apply list_elem_of_fmap. exists i.
      rewrite Htrial. split; [done|]. by apply elem_of_elements.
  - intros Hdom. unfold result, newly_evaluated_arms.
    edestruct (mapM_Outcome_Raised
                 (λ i, Trial.arms <$> lookup_trial experiment i)
                 (elements newly_completed_trials))
      as (i & e & Hin & Hi & ->).
    { apply Exists_exists.
      destruct (decide (Forall (λ i, i ∈ dom (Experiment.trials experiment))
                          (elements newly_completed_trials)))
        as [Hall|Hsome].
      - destruct Hdom. intros i Hi%elem_of_elements.
        by eapply Forall_forall in Hall.
      - apply not_Forall_Exists in Hsome; [|intros i; apply _].
        apply Exists_exists in Hsome as (i & Hin & Hi).
        exists i. split; [done|]. unfold lookup_trial.
        apply not_elem_of_dom in Hi. rewrite Hi. by eexists. }
    exists i. unfold lookup_trial in Hi.
    destruct (Experiment.trials experiment !! i) as [trial|] eqn:Htrial;
      [done|].
    injection Hi as <-. split_and!; [by apply elem_of_elements| |done].
    by apply not_elem_of_dom.
Qed.
